(** * pubmed-stream: a shallow embedding of the download engine

    The development follows [pubmed_stream/downloader.py] and
    [pubmed_stream/cli.py]:

    - [RateLimiter]: the lock-protected throttle, as an interleaving
      semantics over threads and a monotonic clock;
    - [Py]: exceptions, strings and decoded JSON as the code uses them;
    - [ElementTree]: the fragment of [xml.etree.ElementTree] the code uses;
    - [Metadata]: [extract_metadata_from_pmc_xml];
    - [World]: the file system, the scripted network and the event trace
      the engine acts on;
    - [Fetch]: [efetch_pmc];
    - [Search]: [esearch_pmc];
    - [Coordinator]: [search_and_download];
    - [Cli]: the exit code of [main];
    - [Examples]: concrete documents, answers and disks.

    Conventions.  Durations are integers (milliseconds) and clock readings
    are integers (ticks of the monotonic clock): floating-point rounding is
    not modelled.  Logging and printing have no effect on the results and
    are left out.  The XML and JSON parsers belong to the Python runtime and
    are parameters ([Runtime]). *)

From Stdlib Require Import ZArith Lia.
From stdpp Require Import base option list strings pretty gmap.

(** ** RateLimiter *)

Module RateLimiter.

Local Open Scope Z_scope.

(** Where a thread stands with respect to [RateLimiter.wait]. *)
Inductive pc : Type :=
| Idle                    (* not inside wait() *)
| Acquiring               (* at [with self._lock], not yet owner *)
| ReadNow                 (* owner; next: now = time.monotonic() *)
| Computed (now : Z)      (* owner; next: wait_time and its test *)
| Sleeping (until : Z)    (* owner; inside time.sleep(wait_time) *)
| Stamping                (* owner; next: self._last_request = time.monotonic() *)
| Releasing.              (* owner; leaving the with-block *)

(** The instance fields, the clock, the threads sharing the instance, and a
    history of the stamps written to [_last_request] (newest first). *)
Record state : Type := State {
  _min_interval : Z;
  _last_request : Z;
  _lock : option nat;
  clock : Z;
  threads : list pc;
  grants : list Z
}.

(** [RateLimiter.__init__], shared by [nthreads] idle threads, with the
    monotonic clock reading [c0]. *)
Definition init (min_interval : Z) (nthreads : nat) (c0 : Z) : state :=
  {| _min_interval := Z.max 0 min_interval;
     _last_request := 0;
     _lock := None;
     clock := c0;
     threads := replicate nthreads Idle;
     grants := [] |}.

Definition set_pc (i : nat) (p : pc) (s : state) : state :=
  {| _min_interval := _min_interval s;
     _last_request := _last_request s;
     _lock := _lock s;
     clock := clock s;
     threads := <[i := p]> (threads s);
     grants := grants s |}.

Definition set_lock (o : option nat) (s : state) : state :=
  {| _min_interval := _min_interval s;
     _last_request := _last_request s;
     _lock := o;
     clock := clock s;
     threads := threads s;
     grants := grants s |}.

Definition advance (d : N) (s : state) : state :=
  {| _min_interval := _min_interval s;
     _last_request := _last_request s;
     _lock := _lock s;
     clock := clock s + Z.of_N d;
     threads := threads s;
     grants := grants s |}.

Definition stamp (s : state) : state :=
  {| _min_interval := _min_interval s;
     _last_request := clock s;
     _lock := _lock s;
     clock := clock s;
     threads := threads s;
     grants := clock s :: grants s |}.

(** What the scheduler and the environment can do: let time pass, or let one
    thread execute its next statement of [wait]. *)
Inductive action : Type :=
| Tick (d : N)
| Run (tid : nat).

(** One statement of [wait] executed by thread [i] standing at [p].  A thread
    that cannot progress (lock taken, sleep not over) leaves the state as it
    is. *)
Definition wait_step (i : nat) (p : pc) (s : state) : state :=
  match p with
  | Idle =>
      if _min_interval s <=? 0 then s
      else set_pc i Acquiring s
  | Acquiring =>
      match _lock s with
      | None => set_pc i ReadNow (set_lock (Some i) s)
      | Some _ => s
      end
  | ReadNow => set_pc i (Computed (clock s)) s
  | Computed now =>
      let wait_time := (_last_request s + _min_interval s) - now in
      if 0 <? wait_time then set_pc i (Sleeping (clock s + wait_time)) s
      else set_pc i Stamping s
  | Sleeping until =>
      if until <=? clock s then set_pc i Stamping s else s
  | Stamping => set_pc i Releasing (stamp s)
  | Releasing => set_pc i Idle (set_lock None s)
  end.

Definition step (a : action) (s : state) : state :=
  match a with
  | Tick d => advance d s
  | Run i =>
      match threads s !! i with
      | Some p => wait_step i p s
      | None => s
      end
  end.

Definition run (sched : list action) (s : state) : state :=
  foldl (fun s a => step a s) s sched.

(** Program points at which the thread owns the lock. *)
Definition owner (p : pc) : bool :=
  match p with
  | Idle | Acquiring => false
  | _ => true
  end.

(** Consecutive stamps of a newest-first history are [gap] apart. *)
Fixpoint spaced (gap : Z) (l : list Z) : Prop :=
  match l with
  | x :: (y :: _) as r => y + gap <= x /\ spaced gap r
  | _ => True
  end.

(** What the owner has established at each program point. *)
Definition pc_ok (s : state) (p : pc) : Prop :=
  match p with
  | Computed now => now <= clock s
  | Sleeping until => _last_request s + _min_interval s <= until
  | Stamping => _last_request s + _min_interval s <= clock s
  | _ => True
  end.

Record inv (s : state) : Prop := Inv {
  inv_owner : forall i p, threads s !! i = Some p -> owner p = true -> _lock s = Some i;
  inv_pc : forall i p, threads s !! i = Some p -> pc_ok s p;
  inv_last : forall g, head (grants s) = Some g -> _last_request s = g;
  inv_spaced : spaced (_min_interval s) (grants s)
}.

End RateLimiter.

(** ** Python values *)

Module Py.

(** The exception classes the code distinguishes.  [RequestException]
    derives from [OSError] (alias [IOError]); everything derives from
    [Exception]. *)
Inductive exn : Type :=
| RequestException
| OSError
| ParseError
| ValueError
| KeyError
| TypeError
| AttributeError
| RuntimeError.

Definition is_RequestException (e : exn) : bool :=
  match e with RequestException => true | _ => false end.

Definition is_OSError (e : exn) : bool :=
  match e with RequestException | OSError => true | _ => false end.

Definition is_ParseError (e : exn) : bool :=
  match e with ParseError => true | _ => false end.

(** A call either returns a value or raises. *)
Inductive result (A : Type) : Type :=
| Return (a : A)
| Raise (e : exn).
Arguments Return {A} a.
Arguments Raise {A} e.

#[global] Instance result_ret : MRet result := fun A a => Return a.
#[global] Instance result_bind : MBind result := fun A B f m =>
  match m with
  | Return a => f a
  | Raise e => Raise e
  end.

(** How one pass through the body of a retry loop ends. *)
Inductive pass (A : Type) : Type :=
| Continue                 (* go on with the next attempt *)
| Finish (r : result A).   (* leave the function *)
Arguments Continue {A}.
Arguments Finish {A} r.

(** [range(n)] *)
Definition range (n : Z) : list nat := seq 0 (Z.to_nat n).

(** Truth value of a string: [bool(s)]. *)
Definition truthy (s : string) : bool :=
  match s with "" => false | _ => true end.

(** [o or ""] for an optional string. *)
Definition or_empty (o : option string) : string :=
  match o with
  | Some s => if truthy s then s else ""
  | None => ""
  end.

(** Whitespace as [str.strip] and the regex class [\s] see it, on the ASCII
    range: TAB, LF, VT, FF, CR, FS, GS, RS, US and space. *)
Definition isspace (c : Ascii.ascii) : bool :=
  let n := Ascii.nat_of_ascii c in
  ((9 <=? n) && (n <=? 13)) || ((28 <=? n) && (n <=? 31)) || (n =? 32).

Fixpoint lstrip_with (p : Ascii.ascii -> bool) (s : string) : string :=
  match s with
  | String c r => if p c then lstrip_with p r else s
  | "" => ""
  end.

Definition strip_with (p : Ascii.ascii -> bool) (s : string) : string :=
  String.rev (lstrip_with p (String.rev (lstrip_with p s))).

(** [s.strip()] *)
Definition strip (s : string) : string := strip_with isspace s.

(** [sep.join(parts)] *)
Definition join (sep : string) (parts : list string) : string :=
  String.concat sep parts.

(** [s.startswith(p)] *)
Definition startswith (s p : string) : bool := String.prefix p s.

(** [s.replace(old, new)] for a non-empty [old]: occurrences are replaced
    left to right without overlap.  [skip] counts the characters of a match
    still to be dropped. *)
Fixpoint replace_from (old new : string) (skip : nat) (s : string) : string :=
  match s with
  | "" => ""
  | String c r =>
      match skip with
      | S k => replace_from old new k r
      | O =>
          if String.prefix old s
          then new +:+ replace_from old new (String.length old - 1) r
          else String c (replace_from old new 0 r)
      end
  end.

Definition replace (s old new : string) : string := replace_from old new 0 s.

(** Decoded JSON.  Numbers are the integral ones; an object keeps its items
    in order, with distinct keys. *)
#[warnings="-register-all"]
Inductive json : Type :=
| JNull
| JBool (b : bool)
| JNum (n : Z)
| JStr (s : string)
| JArr (items : list json)
| JObj (fields : list (string * json)).

Fixpoint assoc (key : string) (fields : list (string * json)) : option json :=
  match fields with
  | [] => None
  | (k, v) :: r => if String.eqb k key then Some v else assoc key r
  end.

(** [d.get(key, dflt)]: only a dict has the method. *)
Definition dict_get (d : json) (key : string) (dflt : json) : result json :=
  match d with
  | JObj fields => Return (default dflt (assoc key fields))
  | _ => Raise AttributeError
  end.

(** [len(v)] *)
Definition len (v : json) : result nat :=
  match v with
  | JStr s => Return (String.length s)
  | JArr items => Return (length items)
  | JObj fields => Return (length fields)
  | _ => Raise TypeError
  end.

(** [bool(v)] *)
Definition json_truthy (v : json) : bool :=
  match v with
  | JNull => false
  | JBool b => b
  | JNum n => negb (n =? 0)%Z
  | JStr s => truthy s
  | JArr items => match items with [] => false | _ => true end
  | JObj fields => match fields with [] => false | _ => true end
  end.

Fixpoint chars (s : string) : list string :=
  match s with
  | "" => []
  | String c r => String c "" :: chars r
  end.

(** The items a [for] loop over [v] visits, for the values that have a
    length. *)
Definition iter (v : json) : list json :=
  match v with
  | JStr s => JStr <$> chars s
  | JArr items => items
  | JObj fields => (fun kv => JStr (fst kv)) <$> fields
  | _ => []
  end.

End Py.

(** ** xml.etree.ElementTree *)

Module ElementTree.

Import Py.

(** An element as the default tree builder produces it: comments and
    processing instructions are not part of the tree. *)
#[warnings="-register-all"]
Inductive Element : Type :=
| Elem (tag : string) (attrib : gmap string string)
       (text tail : option string) (children : list Element).

Definition tag (e : Element) : string :=
  match e with Elem t _ _ _ _ => t end.
Definition attrib (e : Element) : gmap string string :=
  match e with Elem _ a _ _ _ => a end.
Definition text (e : Element) : option string :=
  match e with Elem _ _ t _ _ => t end.
Definition tail (e : Element) : option string :=
  match e with Elem _ _ _ t _ => t end.
Definition children (e : Element) : list Element :=
  match e with Elem _ _ _ _ c => c end.

(** [e.get(key)] *)
Definition get (e : Element) (key : string) : option string :=
  attrib e !! key.

(** [e.get(key, "")] *)
Definition get_or_empty (e : Element) (key : string) : string :=
  default "" (attrib e !! key).

(** [e.findall(tag)]: the direct children with that tag, in document
    order. *)
Definition findall (e : Element) (t : string) : list Element :=
  List.filter (fun c => String.eqb (tag c) t) (children e).

(** [e.find(tag)] *)
Definition find (e : Element) (t : string) : option Element :=
  head (findall e t).

(** [e.find("tag[@key='value']")] *)
Definition find_attr (e : Element) (t key value : string) : option Element :=
  head (List.filter
          (fun c => String.eqb (tag c) t &&
                    bool_decide (attrib c !! key = Some value))
          (children e)).

(** [e.findall("outer/inner")] *)
Definition findall2 (e : Element) (outer inner : string) : list Element :=
  flat_map (fun g => findall g inner) (findall e outer).

(** [e.findtext(tag)] *)
Definition findtext (e : Element) (t : string) : option string :=
  match find e t with
  | Some c => Some (or_empty (text c))
  | None => None
  end.

Definition if_truthy (o : option string) : list string :=
  match o with
  | Some s => if truthy s then [s] else []
  | None => []
  end.

(** [list(e.itertext())]: the element's text, then for each child its inner
    text followed by its tail; empty strings are not yielded. *)
Fixpoint itertext (e : Element) : list string :=
  match e with
  | Elem _ _ t _ cs =>
      if_truthy t ++
      (fix over (l : list Element) : list string :=
         match l with
         | [] => []
         | c :: r => itertext c ++ if_truthy (tail c) ++ over r
         end) cs
  end.

End ElementTree.

(** The parts of the Python runtime the engine calls and this development
    does not define: the XML and JSON parsers and the conversions of [int]
    and [str]. *)
Class Runtime : Type := {
  (** [ET.fromstring] *)
  ET_fromstring : string -> Py.result ElementTree.Element;
  (** [json.loads], behind [Response.json] *)
  json_loads : string -> Py.result Py.json;
  (** [int(s)] on a string: [None] stands for [ValueError] *)
  int_of_str : string -> option Z;
  (** [str(v)] on a value that is not a string *)
  repr : Py.json -> string;
}.

(** ** extract_metadata_from_pmc_xml *)

Module Metadata.

Import Py ElementTree.

(** Values stored in the metadata dictionary. *)
Inductive mvalue : Type :=
| MStr (s : string)
| MList (l : list string)
| MDict (d : gmap string string).

Abbreviation metadata := (gmap string mvalue).

(** [if v: metadata[key] = v] for a [v] that may be [None]. *)
Definition store_if_truthy (key : string) (v : option string) (md : metadata)
  : metadata :=
  match v with
  | Some s => if truthy s then <[key := MStr s]> md else md
  | None => md
  end.

(** [if v is not None: metadata[key] = v] *)
Definition store_if_some (key : string) (v : option string) (md : metadata)
  : metadata :=
  match v with
  | Some s => <[key := MStr s]> md
  | None => md
  end.

(** The loop over [journal_meta.findall("journal-id")]: a later entry of a
    type overwrites an earlier one. *)
Definition journal_id_step (acc : option string * option string) (jid : Element)
  : option string * option string :=
  let jid_type := get_or_empty jid "journal-id-type" in
  let value := strip (or_empty (text jid)) in
  if String.eqb jid_type "nlm-ta" then (Some value, snd acc)
  else if String.eqb jid_type "iso-abbrev" then (fst acc, Some value)
  else acc.

Definition journal_fields (journal_meta : option Element)
  : option string * option string * option string :=
  match journal_meta with
  | Some jm =>
      let journal_title :=
        match find jm "journal-title-group" with
        | Some jt_group =>
            match find jt_group "journal-title" with
            | Some jt => Some (strip (join "" (itertext jt)))
            | None => None
            end
        | None => None
        end in
      let '(nlm_ta, iso_abbrev) :=
        foldl journal_id_step (None, None) (findall jm "journal-id") in
      (journal_title, nlm_ta, iso_abbrev)
  | None => (None, None, None)
  end.

Definition is_truthy (v : option string) : bool :=
  match v with Some s => truthy s | None => false end.

Definition store_journal (journal_title journal_nlm_ta journal_iso_abbrev : option string)
    (md : metadata) : metadata :=
  let md := store_if_truthy "journal_title" journal_title md in
  let md := store_if_truthy "journal_nlm_ta" journal_nlm_ta md in
  let md := store_if_truthy "journal_iso_abbrev" journal_iso_abbrev md in
  if is_truthy journal_title then store_if_some "journal" journal_title md
  else if is_truthy journal_iso_abbrev then store_if_some "journal" journal_iso_abbrev md
  else if is_truthy journal_nlm_ta then store_if_some "journal" journal_nlm_ta md
  else md.

(** The loop over [article_meta.findall("article-id")]. *)
Definition article_id_step (md : metadata) (aid : Element) : metadata :=
  let id_type := get_or_empty aid "pub-id-type" in
  let value := strip (or_empty (text aid)) in
  if String.eqb id_type "pmid" then <["pmid" := MStr value]> md
  else if String.eqb id_type "pmcid" then <["pmcid" := MStr value]> md
  else if String.eqb id_type "doi" then <["doi" := MStr value]> md
  else md.

Definition store_article_ids (article_meta : Element) (md : metadata) : metadata :=
  foldl article_id_step md (findall article_meta "article-id").

Definition store_title (article_meta : Element) (md : metadata) : metadata :=
  match find article_meta "title-group" with
  | Some title_group =>
      match find title_group "article-title" with
      | Some at_ => <["title" := MStr (strip (join "" (itertext at_)))]> md
      | None => md
      end
  | None => md
  end.

(** [(el.text or "").strip()] when [el] is found under [parent]. *)
Definition child_text (parent : Element) (t : string) : option string :=
  match find parent t with
  | Some el => Some (strip (or_empty (text el)))
  | None => None
  end.

(** The resolved [(pub_year, pub_month, pub_day)]: the epub entry when there
    is one, else the year of the collection entry. *)
Definition resolve_pub_date (article_meta : Element)
  : option string * option string * option string :=
  match find_attr article_meta "pub-date" "pub-type" "epub" with
  | Some pub_date =>
      (child_text pub_date "year", child_text pub_date "month",
       child_text pub_date "day")
  | None =>
      match find_attr article_meta "pub-date" "pub-type" "collection" with
      | Some coll_date => (child_text coll_date "year", None, None)
      | None => (None, None, None)
      end
  end.

Definition dict_set_if_some (key : string) (v : option string)
    (d : gmap string string) : gmap string string :=
  match v with
  | Some s => <[key := s]> d
  | None => d
  end.

Definition store_pub_date (pub_year pub_month pub_day : option string)
    (md : metadata) : metadata :=
  let md := store_if_some "year" pub_year md in
  let md := store_if_some "month" pub_month md in
  let md := store_if_some "day" pub_day md in
  match pub_year with
  | Some y =>
      <["pub_date" :=
          MDict (dict_set_if_some "day" pub_day
                   (dict_set_if_some "month" pub_month {["year" := y]}))]> md
  | None => md
  end.

(** The display name of one [contrib] entry, when it yields one. *)
Definition author_name (contrib : Element) : option string :=
  if bool_decide (get contrib "contrib-type" = Some "author") then
    match find contrib "name" with
    | Some name_el =>
        let surname := strip (or_empty (findtext name_el "surname")) in
        let given := strip (or_empty (findtext name_el "given-names")) in
        let initials := strip (or_empty (get name_el "initials")) in
        let full :=
          if truthy given then strip (surname +:+ " " +:+ given)
          else if truthy initials then strip (surname +:+ " " +:+ initials)
          else surname in
        if truthy full then Some full else None
    | None => None
    end
  else None.

Definition store_list (key : string) (l : list string) (md : metadata) : metadata :=
  match l with
  | [] => md
  | _ => <[key := MList l]> md
  end.

Definition store_authors (article_meta : Element) (md : metadata) : metadata :=
  store_list "authors"
    (omap author_name (findall2 article_meta "contrib-group" "contrib")) md.

Definition store_abstract (article_meta : Element) (md : metadata) : metadata :=
  match find article_meta "abstract" with
  | Some abstract_el =>
      <["abstract" := MStr (strip (join " " (itertext abstract_el)))]> md
  | None => md
  end.

Definition keyword_text (kwd : Element) : option string :=
  let t := strip (join "" (itertext kwd)) in
  if truthy t then Some t else None.

Definition store_keywords (article_meta : Element) (md : metadata) : metadata :=
  store_list "keywords"
    (omap keyword_text (findall2 article_meta "kwd-group" "kwd")) md.

(** The part of the function that reads [article_meta]. *)
Definition extract_article_meta (article_meta : Element) (md : metadata)
  : metadata :=
  let md := store_article_ids article_meta md in
  let md := store_title article_meta md in
  let '(pub_year, pub_month, pub_day) := resolve_pub_date article_meta in
  let md := store_pub_date pub_year pub_month pub_day md in
  let md := store_authors article_meta md in
  let md := store_abstract article_meta md in
  store_keywords article_meta md.

(** [article = root.find("article") if root.tag != "article" else root] *)
Definition locate_article (root : Element) : option Element :=
  if String.eqb (tag root) "article" then Some root else find root "article".

(** The [article_meta] element the function reads, when the document has
    one. *)
Definition article_meta_of (root : Element) : option Element :=
  article ← locate_article root;
  front ← find article "front";
  find front "article-meta".

(** The keys of the journal fields. *)
Definition journal_keys : list string :=
  ["journal_title"; "journal_nlm_ta"; "journal_iso_abbrev"; "journal"].

(** The function after a successful parse. *)
Definition extract_from_root (root : Element) : metadata :=
  match locate_article root with
  | None => ∅
  | Some article =>
      match find article "front" with
      | None => ∅
      | Some front =>
          let journal_meta := find front "journal-meta" in
          let article_meta := find front "article-meta" in
          let '(journal_title, journal_nlm_ta, journal_iso_abbrev) :=
            journal_fields journal_meta in
          let md :=
            store_journal journal_title journal_nlm_ta journal_iso_abbrev ∅ in
          match article_meta with
          | None => md
          | Some am => extract_article_meta am md
          end
      end
  end.

Definition extract_metadata_from_pmc_xml `{RT : Runtime} (xml_text : string)
  : result metadata :=
  match ET_fromstring xml_text with
  | Raise _ => Return ∅                     (* except Exception: return metadata *)
  | Return root => Return (extract_from_root root)
  end.

End Metadata.

(** ** The world the engine runs in *)

Module World.

Import Py Metadata.

(** The record [efetch_pmc] serialises with [json.dumps]. *)
Record payload : Type := Payload {
  payload_pmcid : string;
  payload_source : string;
  payload_download_date : string;
  payload_metadata : metadata;
  payload_xml : option string;
  payload_text : option string
}.

Inductive content : Type :=
| Record_ (p : payload)     (* a record written by the engine *)
| Bytes (s : string).       (* anything else found on disk *)

(** Directories with the files they hold; the directories that cannot be
    created, the files that cannot be opened for writing, and the files whose
    writing fails after they were opened (with the bytes that reach the disk
    before the failure) stand for the [OSError]s of the operating system.
    File names are taken not to contain a path separator. *)
Record filesystem : Type := FileSystem {
  dirs : gmap string (gmap string content);
  mkdir_denied : gset string;
  write_denied : gset (string * string);
  write_cut : gmap (string * string) string
}.

Inductive reply : Type :=
| Fails (e : exn)                              (* [session.get] raises *)
| Response (status_code : Z) (text : string).

Inductive event : Type :=
| EvWait                                        (* rate_limiter.wait() *)
| EvGet (url : string) (params : gmap string string)
| EvSleep (ms : Z)                              (* time.sleep *)
| EvWrite (dir name : string).

Record world : Type := MkWorld {
  fs : filesystem;
  replies : nat -> reply;        (* the reply to the n-th request *)
  sent : nat;                    (* requests sent so far *)
  environ : gmap string string;  (* os.environ *)
  now_iso : string;              (* datetime.now().isoformat() *)
  trace : list event             (* oldest first *)
}.

Definition log (e : event) (w : world) : world :=
  {| fs := fs w; replies := replies w; sent := sent w; environ := environ w;
     now_iso := now_iso w; trace := trace w ++ [e] |}.

Definition set_fs (f : filesystem) (w : world) : world :=
  {| fs := f; replies := replies w; sent := sent w; environ := environ w;
     now_iso := now_iso w; trace := trace w |}.

(** [rate_limiter.wait()] *)
Definition wait (w : world) : world := log EvWait w.

(** [time.sleep(ms / 1000)] *)
Definition sleep (ms : Z) (w : world) : world := log (EvSleep ms) w.

(** [session.get(url, params=params, timeout=REQUEST_TIMEOUT)] *)
Definition session_get (url : string) (params : gmap string string) (w : world)
  : result (Z * string) * world :=
  let w' :=
    {| fs := fs w; replies := replies w; sent := S (sent w);
       environ := environ w; now_iso := now_iso w;
       trace := trace w ++ [EvGet url params] |} in
  match replies w (sent w) with
  | Fails e => (Raise e, w')
  | Response status_code text => (Return (status_code, text), w')
  end.

(** [path.mkdir(parents=True, exist_ok=True)] *)
Definition mkdir (path : string) (f : filesystem) : result filesystem :=
  match dirs f !! path with
  | Some _ => Return f
  | None =>
      if bool_decide (path ∈ mkdir_denied f) then Raise OSError
      else Return {| dirs := <[path := ∅]> (dirs f);
                     mkdir_denied := mkdir_denied f;
                     write_denied := write_denied f;
                     write_cut := write_cut f |}
  end.

(** [(dir / name).exists()] *)
Definition file_exists (dir name : string) (f : filesystem) : bool :=
  match dirs f !! dir with
  | Some files => bool_decide (is_Some (files !! name))
  | None => false
  end.

Definition read_file (dir name : string) (f : filesystem) : option content :=
  dirs f !! dir ≫= fun files => files !! name.

(** The file system with [c] as the content of [dir / name]. *)
Definition put (dir name : string) (c : content) (files : gmap string content)
    (f : filesystem) : filesystem :=
  {| dirs := <[dir := <[name := c]> files]> (dirs f);
     mkdir_denied := mkdir_denied f;
     write_denied := write_denied f;
     write_cut := write_cut f |}.

(** [(dir / name).write_text(...)]: the file is opened with mode ["w"], which
    creates or truncates it, and then written.  The call is given with the
    file system it leaves: when the open fails nothing has changed, but when
    the write fails after the open the file holds the bytes written so
    far. *)
Definition write_text (dir name : string) (c : content) (f : filesystem)
  : result unit * filesystem :=
  if bool_decide ((dir, name) ∈ write_denied f) then (Raise OSError, f)
  else match dirs f !! dir with
       | Some files =>
           match write_cut f !! (dir, name) with
           | Some written => (Raise OSError, put dir name (Bytes written) files f)
           | None => (Return (), put dir name c files f)
           end
       | None => (Raise OSError, f)
       end.

End World.

(** ** Module constants *)

Definition DEFAULT_OUTPUT_DIR : string := "publications".
Definition NCBI_API_KEY_ENV : string := "NCBI_API_KEY".
Definition EUTILS_BASE : string := "https://eutils.ncbi.nlm.nih.gov/entrez/eutils".
Definition MAX_RETRIES : Z := 3.
(** [RETRY_DELAY = 2.0] seconds, in milliseconds. *)
Definition RETRY_DELAY : Z := 2000.
Definition MAX_WORKERS : Z := 5.

(** ** efetch_pmc *)

Module Fetch.

Import Py ElementTree Metadata World.

Definition chr_lt : Ascii.ascii := Ascii.ascii_of_nat 60.
Definition chr_gt : Ascii.ascii := Ascii.ascii_of_nat 62.
Definition chr_space : Ascii.ascii := Ascii.ascii_of_nat 32.

(** [re.sub(r"<[^>]+>", " ", s)], on the characters that follow a ["<"]:
    the number of characters up to and including the closing [">"], when at
    least one character that is not [">"] precedes it. *)
Fixpoint tag_span (s : string) (seen : nat) : option nat :=
  match s with
  | "" => None
  | String c r =>
      if Ascii.eqb c chr_gt
      then match seen with O => None | _ => Some (S seen) end
      else tag_span r (S seen)
  end.

Fixpoint sub_tags (skip : nat) (s : string) : string :=
  match s with
  | "" => ""
  | String c r =>
      match skip with
      | S k => sub_tags k r
      | O =>
          if Ascii.eqb c chr_lt then
            match tag_span r 0 with
            | Some n => String chr_space (sub_tags n r)
            | None => String c (sub_tags 0 r)
            end
          else String c (sub_tags 0 r)
      end
  end.

(** [re.sub(r"\s+", " ", s)] *)
Fixpoint collapse_spaces (in_run : bool) (s : string) : string :=
  match s with
  | "" => ""
  | String c r =>
      if isspace c then
        if in_run then collapse_spaces true r
        else String chr_space (collapse_spaces true r)
      else String c (collapse_spaces false r)
  end.

Definition strip_xml_tags (xml_text : string) : string :=
  strip (collapse_spaces false (sub_tags 0 xml_text)).

Definition pmcid_numeric (pmcid : string) : string :=
  if startswith pmcid "PMC" then replace pmcid "PMC" "" else pmcid.

Definition pmcid_display (pmcid : string) : string :=
  let numeric := pmcid_numeric pmcid in
  if negb (startswith numeric "PMC") then "PMC" +:+ numeric else numeric.

Definition normalize_fmt (fmt : string) : string :=
  if String.eqb fmt "json" || String.eqb fmt "txt" then "text" else fmt.

Definition with_api_key (api_key : option string) (params : gmap string string)
  : gmap string string :=
  match api_key with
  | Some k => if truthy k then <["api_key" := k]> params else params
  | None => params
  end.

Definition efetch_params (pmcid : string) (api_key : option string)
  : gmap string string :=
  with_api_key api_key
    (<["retmode" := "xml"]> (<["rettype" := "full"]>
       (<["id" := pmcid_numeric pmcid]> {["db" := "pmc"]}))).

Definition build_payload (display fmt : string) (include_text : bool)
    (body : string) (md : metadata) (w : world) : payload :=
  {| payload_pmcid := display;
     payload_source := "PMC";
     payload_download_date := now_iso w;
     payload_metadata := md;
     payload_xml :=
       if String.eqb fmt "xml" || String.eqb fmt "both" then Some body else None;
     payload_text :=
       if (String.eqb fmt "text" || String.eqb fmt "both") && include_text
       then Some (strip_xml_tags body) else None |}.

(** The pairs [efetch_pmc] may return. *)
Definition documented (r : bool * string) : Prop :=
  (r.2 = "success" \/ r.2 = "exists" \/ r.2 = "unavailable" \/ r.2 = "error") /\
  (r.1 = true <-> (r.2 = "success" \/ r.2 = "exists")).

Section Attempt.
Context `{RT : Runtime}.
Variables (pmcid out_dir fmt : string) (api_key : option string)
          (retries : Z) (include_text : bool).

(** [attempt < retries - 1] *)
Definition more_attempts (attempt : nat) : bool :=
  (Z.of_nat attempt <? retries - 1)%Z.

(** The two [except] clauses that close the [try] of the loop body. *)
Definition on_exception (attempt : nat) (e : exn) (w : world)
  : pass (bool * string) * world :=
  if is_RequestException e then
    if more_attempts attempt
    then (Continue, sleep (RETRY_DELAY * (Z.of_nat attempt + 1)) w)
    else (Finish (Return (false, "error")), w)
  else if is_OSError e then (Finish (Return (false, "error")), w)
  else (Finish (Raise e), w).

(** Retry after the fixed delay, or give up with ["error"]. *)
Definition retry_or_error (attempt : nat) (w : world)
  : pass (bool * string) * world :=
  if more_attempts attempt then (Continue, sleep RETRY_DELAY w)
  else (Finish (Return (false, "error")), w).

(** Saving the article once the body is known to be a document. *)
Definition save_article (attempt : nat) (body : string) (w : world)
  : pass (bool * string) * world :=
  match extract_metadata_from_pmc_xml body with
  | Raise e => on_exception attempt e w
  | Return md =>
      let display := pmcid_display pmcid in
      let name := display +:+ ".json" in
      let p := build_payload display (normalize_fmt fmt) include_text body md w in
      match write_text out_dir name (Record_ p) (fs w) with
      | (Raise e, f) => on_exception attempt e (set_fs f w)
      | (Return _, f) =>
          (Finish (Return (true, "success")),
           log (EvWrite out_dir name) (set_fs f w))
      end
  end.

(** The body of [for attempt in range(retries)]. *)
Definition efetch_attempt (attempt : nat) (w : world)
  : pass (bool * string) * world :=
  let w := wait w in
  match session_get (EUTILS_BASE +:+ "/efetch.fcgi")
                    (efetch_params pmcid api_key) w with
  | (Raise e, w) => on_exception attempt e w
  | (Return (status_code, body), w) =>
      if negb (status_code =? 200)%Z then retry_or_error attempt w
      else
        match ET_fromstring body with
        | Raise e =>
            if is_ParseError e then retry_or_error attempt w
            else on_exception attempt e w
        | Return root =>
            if String.eqb (tag root) "pmc-articleset" &&
               bool_decide (is_Some (find root "error"))
            then (Finish (Return (false, "unavailable")), w)
            else save_article attempt body w
        end
  end.

Fixpoint efetch_loop (attempts : list nat) (w : world)
  : result (bool * string) * world :=
  match attempts with
  | [] => (Return (false, "error"), w)
  | attempt :: rest =>
      match efetch_attempt attempt w with
      | (Continue, w) => efetch_loop rest w
      | (Finish r, w) => (r, w)
      end
  end.

Definition efetch_pmc (w : world) : result (bool * string) * world :=
  match mkdir out_dir (fs w) with
  | Raise e => (Raise e, w)
  | Return f =>
      let w := set_fs f w in
      if file_exists out_dir (pmcid_display pmcid +:+ ".json") (fs w)
      then (Return (true, "exists"), w)
      else efetch_loop (range retries) w
  end.

End Attempt.

End Fetch.

(** ** esearch_pmc *)

Module Search.

Import Py World.

(** [Response.raise_for_status]: [HTTPError], a [RequestException], for the
    client and server error statuses. *)
Definition raise_for_status (status_code : Z) : result unit :=
  if ((400 <=? status_code) && (status_code <? 600))%Z
  then Raise RequestException
  else Return tt.

Section Search.
Context `{RT : Runtime}.
Variables (term : string) (max_results : Z) (api_key : option string)
          (retries : Z).

(** [int(v)] *)
Definition int (v : json) : result Z :=
  match v with
  | JNum n => Return n
  | JBool b => Return (if b then 1 else 0)%Z
  | JStr s => match int_of_str s with
              | Some n => Return n
              | None => Raise ValueError
              end
  | _ => Raise TypeError
  end.

Definition esearch_params : gmap string string :=
  Fetch.with_api_key api_key
    (<["retstart" := "0"]> (<["retmode" := "json"]>
       (<["retmax" := pretty max_results]>
          (<["term" := term]> {["db" := "pmc"]})))).

(** What the [try] block computes from a response. *)
Definition read_search_response (status_code : Z) (body : string)
  : result (json * Z) :=
  _ ← raise_for_status status_code;
  data ← json_loads body;
  result ← dict_get data "esearchresult" (JObj []);
  pmcids ← dict_get result "idlist" (JArr []);
  n ← len pmcids;
  count ← dict_get result "count" (JNum (Z.of_nat n));
  total_count ← int count;
  mret (pmcids, total_count).

(** [except (requests.RequestException, ValueError, KeyError)] *)
Definition caught (e : exn) : bool :=
  match e with
  | RequestException | ValueError | KeyError => true
  | _ => false
  end.

Definition on_exception (attempt : nat) (e : exn) (w : world)
  : pass (json * Z) * world :=
  if caught e then
    if (Z.of_nat attempt <? retries - 1)%Z
    then (Continue, sleep (RETRY_DELAY * (Z.of_nat attempt + 1)) w)
    else (Finish (Return (JArr [], 0%Z)), w)
  else (Finish (Raise e), w).

(** The body of [for attempt in range(retries)]. *)
Definition esearch_attempt (attempt : nat) (w : world)
  : pass (json * Z) * world :=
  let w := wait w in
  match session_get (EUTILS_BASE +:+ "/esearch.fcgi") esearch_params w with
  | (Raise e, w) => on_exception attempt e w
  | (Return (status_code, body), w) =>
      match read_search_response status_code body with
      | Raise e => on_exception attempt e w
      | Return found => (Finish (Return found), w)
      end
  end.

Fixpoint esearch_loop (attempts : list nat) (w : world)
  : result (json * Z) * world :=
  match attempts with
  | [] => (Return (JArr [], 0%Z), w)
  | attempt :: rest =>
      match esearch_attempt attempt w with
      | (Continue, w) => esearch_loop rest w
      | (Finish r, w) => (r, w)
      end
  end.

Definition esearch_pmc (w : world) : result (json * Z) * world :=
  esearch_loop (range retries) w.

(** An answer on which the attempt fails: a transport error, an error
    status ([raise_for_status] rejects 4xx and 5xx), or a body that is not
    JSON. *)
Definition failing (r : reply) : Prop :=
  match r with
  | Fails e => e = RequestException
  | Response status_code body =>
      (400 <= status_code < 600)%Z \/ json_loads body = Raise ValueError
  end.

(** The same with every status outside 2xx counted as a failure. *)
Definition failing_non_2xx (r : reply) : Prop :=
  match r with
  | Fails e => e = RequestException
  | Response status_code body =>
      ~ (200 <= status_code < 300)%Z \/ json_loads body = Raise ValueError
  end.

(** What a search logs when each of its attempts fails: a wait and a
    request per attempt, and between two attempts a sleep of
    [RETRY_DELAY] times the number of attempts made. *)
Definition backoff_trace : list event :=
  flat_map
    (fun attempt =>
       [EvWait; EvGet (EUTILS_BASE +:+ "/esearch.fcgi") esearch_params] ++
       if (Z.of_nat attempt <? retries - 1)%Z
       then [EvSleep (RETRY_DELAY * (Z.of_nat attempt + 1))]
       else [])
    (range retries).

End Search.

End Search.

(** ** search_and_download *)

Module Coordinator.

Import Py World.

(** The statistics of a session; [duration_seconds], a difference of wall
    clock readings, is left out. *)
Record DownloadStats : Type := Stats {
  keyword : string;
  total_found : Z;
  requested : Z;
  successful : Z;
  failed : Z;
  skipped : Z;
  unavailable : Z;
  errors : Z;
  output_dir : string
}.

(** The four counters of the download loops. *)
Record counters : Type := Counters {
  c_successful : Z;
  c_unavailable : Z;
  c_errors : Z;
  c_skipped : Z
}.

Definition zero : counters := Counters 0 0 0 0.

(** The identifiers counted so far. *)
Definition counted (c : counters) : Z :=
  c_successful c + c_skipped c + c_unavailable c + c_errors c.

(** [c'] is [c] with exactly one counter incremented by one. *)
Definition one_more (c c' : counters) : Prop :=
  c' = Counters (c_successful c + 1) (c_unavailable c) (c_errors c) (c_skipped c) \/
  c' = Counters (c_successful c) (c_unavailable c + 1) (c_errors c) (c_skipped c) \/
  c' = Counters (c_successful c) (c_unavailable c) (c_errors c + 1) (c_skipped c) \/
  c' = Counters (c_successful c) (c_unavailable c) (c_errors c) (c_skipped c + 1).

(** What one loop iteration does to the counters: the status chain of the
    [try] block, or the [except Exception] clause. *)
Definition tally (c : counters) (r : result (bool * string)) : counters :=
  match r with
  | Return (_, status) =>
      if String.eqb status "success" then
        Counters (c_successful c + 1) (c_unavailable c) (c_errors c) (c_skipped c)
      else if String.eqb status "exists" then
        Counters (c_successful c) (c_unavailable c) (c_errors c) (c_skipped c + 1)
      else if String.eqb status "unavailable" then
        Counters (c_successful c) (c_unavailable c + 1) (c_errors c) (c_skipped c)
      else
        Counters (c_successful c) (c_unavailable c) (c_errors c + 1) (c_skipped c)
  | Raise _ =>
      Counters (c_successful c) (c_unavailable c) (c_errors c + 1) (c_skipped c)
  end.

(** [re.sub(r"[^A-Za-z0-9._-]+", "_", s)] *)
Definition slug_char (c : Ascii.ascii) : bool :=
  let n := Ascii.nat_of_ascii c in
  ((65 <=? n) && (n <=? 90)) || ((97 <=? n) && (n <=? 122)) ||
  ((48 <=? n) && (n <=? 57)) || (n =? 46) || (n =? 95) || (n =? 45).

Definition chr_underscore : Ascii.ascii := Ascii.ascii_of_nat 95.

Fixpoint sub_unsafe (in_run : bool) (s : string) : string :=
  match s with
  | "" => ""
  | String c r =>
      if slug_char c then String c (sub_unsafe false r)
      else if in_run then sub_unsafe true r
      else String chr_underscore (sub_unsafe true r)
  end.

Definition keyword_slug (keyword : string) : string :=
  let s := strip_with (Ascii.eqb chr_underscore) (sub_unsafe false (strip keyword)) in
  if truthy s then s else "keyword".

(** [a or b] on optional strings *)
Definition or_else (a b : option string) : option string :=
  match a with
  | Some s => if truthy s then a else b
  | None => b
  end.

(** [str(pmcid)] *)
Definition str `{RT : Runtime} (v : json) : string :=
  match v with
  | JStr s => s
  | _ => repr v
  end.

(** The thread pool: [as_completed] hands back, in completion order, one
    result per submitted task, each either the task's return value or the
    exception it raised. *)
Class Executor : Type := {
  as_completed :
    (json -> world -> result (bool * string) * world) ->
    list json -> world -> list (result (bool * string)) * world;
  as_completed_length : forall task items w,
    length (as_completed task items w).1 = length items
}.

Section Run.
Context `{RT : Runtime} `{EX : Executor}.
Variables (keyword_ : string) (max_results : Z) (fmt : string)
          (api_key : option string) (use_concurrent : bool) (max_workers : Z)
          (include_text : bool) (output_dir_ : option string).

Definition download_one (out_dir : string) (key : option string) (pmcid : json)
    (w : world) : result (bool * string) * world :=
  Fetch.efetch_pmc (str pmcid) out_dir fmt key MAX_RETRIES include_text w.

(** The sequential loop. *)
Fixpoint download_sequential (out_dir : string) (key : option string)
    (pmcids : list json) (c : counters) (w : world) : counters * world :=
  match pmcids with
  | [] => (c, w)
  | pmcid :: rest =>
      let '(r, w) := download_one out_dir key pmcid w in
      download_sequential out_dir key rest (tally c r) w
  end.

(** The loop over [as_completed(futures)]. *)
Definition download_concurrent (out_dir : string) (key : option string)
    (pmcids : list json) (c : counters) (w : world) : counters * world :=
  let '(results, w) := as_completed (download_one out_dir key) pmcids w in
  (foldl tally c results, w).

Definition empty_stats (total : Z) (dir : string) : DownloadStats :=
  {| keyword := keyword_; total_found := total; requested := 0;
     successful := 0; failed := 0; skipped := 0; unavailable := 0;
     errors := 0; output_dir := dir |}.

(** [search_and_download].  The arguments [user_agent], [email],
    [rate_limit] and [session] configure the HTTP session and the limiter,
    which the world abstracts. *)
Definition search_and_download (w : world) : result DownloadStats * world :=
  let key := or_else api_key (environ w !! NCBI_API_KEY_ENV) in
  let base :=
    match output_dir_ with
    | Some d => if truthy d then d else DEFAULT_OUTPUT_DIR
    | None => DEFAULT_OUTPUT_DIR
    end in
  match mkdir base (fs w) with
  | Raise e => (Raise e, w)
  | Return f =>
      let w := set_fs f w in
      match Search.esearch_pmc keyword_ max_results key MAX_RETRIES w with
      | (Raise _, w) => (Return (empty_stats 0 base), w)
      | (Return (pmcids, total), w) =>
          if negb (json_truthy pmcids) then (Return (empty_stats total base), w)
          else
            let out_dir := base +:+ "/" +:+ keyword_slug keyword_ in
            match len pmcids with
            | Raise e => (Raise e, w)
            | Return n =>
                let concurrent := use_concurrent && (1 <? Z.of_nat n)%Z in
                if concurrent && (max_workers <=? 0)%Z
                then (Raise ValueError, w)       (* ThreadPoolExecutor(...) *)
                else
                  let '(c, w) :=
                    if concurrent
                    then download_concurrent out_dir key (iter pmcids) zero w
                    else download_sequential out_dir key (iter pmcids) zero w in
                  (Return {| keyword := keyword_; total_found := total;
                             requested := Z.of_nat n;
                             successful := c_successful c;
                             failed := c_unavailable c + c_errors c;
                             skipped := c_skipped c;
                             unavailable := c_unavailable c;
                             errors := c_errors c;
                             output_dir := out_dir |}, w)
            end
      end
  end.

End Run.

End Coordinator.

(** ** The command line *)

Module Cli.

Import Py World Coordinator.

Record args : Type := Args {
  command : string;
  arg_keyword : string;
  arg_max_results : Z;
  arg_format : string;
  arg_api_key : option string;
  arg_sequential : bool;
  arg_workers : Z;
  arg_exclude_text : bool;
  arg_output_dir : option string
}.

(** The exit code [main] derives from the statistics. *)
Definition exit_code (stats : DownloadStats) : Z :=
  if (0 <? successful stats)%Z then 0
  else if (0 <? skipped stats)%Z && (errors stats =? 0)%Z then 0
  else if (requested stats =? 0)%Z then 1
  else 2.

Definition main `{RT : Runtime} `{EX : Executor} (a : args) (w : world)
  : result Z * world :=
  if String.eqb (command a) "download" then
    match search_and_download (arg_keyword a) (arg_max_results a)
            (arg_format a) (arg_api_key a) (negb (arg_sequential a))
            (arg_workers a) (negb (arg_exclude_text a)) (arg_output_dir a) w with
    | (Return stats, w) => (Return (exit_code stats), w)
    | (Raise e, w) => (Raise e, w)
    end
  else (Return 1%Z, w).

End Cli.

(** ** Concrete inputs used by the examples below *)

Module Examples.

Import Py ElementTree Metadata World.

(** Two threads, [min_interval = 3], clock starting at 10.  Thread 0 is
    granted at once; thread 1 queues on the lock, finds the stamp too recent
    and sleeps. *)
Definition two_threads : list RateLimiter.action :=
  [RateLimiter.Run 0; RateLimiter.Run 1; RateLimiter.Run 0; RateLimiter.Run 1;
   RateLimiter.Run 0; RateLimiter.Run 0; RateLimiter.Run 0; RateLimiter.Run 0;
   RateLimiter.Run 1; RateLimiter.Run 1; RateLimiter.Run 1;
   RateLimiter.Run 1; RateLimiter.Tick 5; RateLimiter.Run 1; RateLimiter.Run 1;
   RateLimiter.Run 1].

Definition leaf (t txt : string) : Element := Elem t ∅ (Some txt) None [].
Definition node (t : string) (cs : list Element) : Element :=
  Elem t ∅ None None cs.

(** The wrapper the service answers with when an identifier has no full
    text. *)
Definition error_wrapper : Element :=
  node "pmc-articleset" [leaf "error" "not found"].

(** A small but complete article. *)
Definition article_doc : Element :=
  node "article" [
    node "front" [
      node "journal-meta" [
        node "journal-title-group" [leaf "journal-title" "Aging Cell"]];
      node "article-meta" [
        Elem "article-id" {["pub-id-type" := "pmid"]} (Some "12345") None [];
        node "title-group" [leaf "article-title" "Frailty"];
        Elem "pub-date" {["pub-type" := "epub"]} None None
          [leaf "year" "2020"; leaf "month" "03"];
        node "contrib-group" [
          Elem "contrib" {["contrib-type" := "author"]} None None
            [node "name" [leaf "surname" "Doe"; leaf "given-names" "Jane"]]]]]].

(** An article whose [pmid] element is empty. *)
Definition empty_pmid_doc : Element :=
  node "article" [
    node "front" [
      node "article-meta" [
        Elem "article-id" {["pub-id-type" := "pmid"]} None None []]]].

(** An article whose epub date gives a month and no year. *)
Definition month_only_doc : Element :=
  node "article" [
    node "front" [
      node "article-meta" [
        Elem "pub-date" {["pub-type" := "epub"]} None None
          [leaf "month" "03"]]]].

Definition error_wrapper_text : string :=
  "<pmc-articleset><error>not found</error></pmc-articleset>".
Definition article_text : string :=
  "<article><front><journal-meta><journal-title-group><journal-title>Aging Cell</journal-title></journal-title-group></journal-meta><article-meta><article-id pub-id-type='pmid'>12345</article-id><title-group><article-title>Frailty</article-title></title-group><pub-date pub-type='epub'><year>2020</year><month>03</month></pub-date><contrib-group><contrib contrib-type='author'><name><surname>Doe</surname><given-names>Jane</given-names></name></contrib></contrib-group></article-meta></front></article>".
Definition empty_pmid_text : string :=
  "<article><front><article-meta><article-id pub-id-type='pmid'/></article-meta></front></article>".
Definition month_only_text : string :=
  "<article><front><article-meta><pub-date pub-type='epub'><month>03</month></pub-date></article-meta></front></article>".

(** A string between double quotes, as JSON writes it. *)
Definition quoted (s : string) : string :=
  String (Ascii.ascii_of_nat 34) (s +:+ String (Ascii.ascii_of_nat 34) "").

(** The body of a search answer listing the identifiers 1 and 2: a JSON
    object whose [esearchresult] holds the [idlist] of the two strings and
    the [count] string 2, as the service writes them. *)
Definition search_body : string :=
  "{" +:+ quoted "esearchresult" +:+ ": {" +:+
    quoted "idlist" +:+ ": [" +:+ quoted "1" +:+ ", " +:+ quoted "2" +:+ "], " +:+
    quoted "count" +:+ ": " +:+ quoted "2" +:+ "}}".
Definition search_json : json :=
  JObj [("esearchresult",
         JObj [("idlist", JArr [JStr "1"; JStr "2"]); ("count", JStr "2")])].

(** A runtime that knows the documents above and rejects everything else. *)
Definition runtime : Runtime :=
  {| ET_fromstring := fun s =>
       if String.eqb s error_wrapper_text then Return error_wrapper
       else if String.eqb s article_text then Return article_doc
       else if String.eqb s empty_pmid_text then Return empty_pmid_doc
       else if String.eqb s month_only_text then Return month_only_doc
       else Raise ParseError;
     json_loads := fun s =>
       if String.eqb s search_body then Return search_json
       else Raise ValueError;
     int_of_str := fun s =>
       if String.eqb s "2" then Some 2%Z else None;
     repr := fun _ => "?" |}.

(** A disk on which [PMC1.json] is already present. *)
Definition disk : filesystem :=
  {| dirs := {[ "publications" := ∅;
                "publications/frailty" := {[ "PMC1.json" := Bytes "{}" ]} ]};
     mkdir_denied := ∅;
     write_denied := ∅;
     write_cut := ∅ |}.

Definition world_of (f : filesystem) (answers : nat -> reply) : world :=
  {| fs := f; replies := answers; sent := 0; environ := ∅;
     now_iso := "2024-01-01T00:00:00"; trace := [] |}.

(** A pool that runs its tasks one after the other, in submission order. *)
Fixpoint run_tasks (task : json -> world -> result (bool * string) * world)
    (items : list json) (w : world) : list (result (bool * string)) * world :=
  match items with
  | [] => ([], w)
  | x :: rest =>
      let '(r, w) := task x w in
      let '(rs, w) := run_tasks task rest w in
      (r :: rs, w)
  end.

Lemma run_tasks_length task items w :
  length (run_tasks task items w).1 = length items.
Proof.
  revert w. induction items as [| x rest IH]; intros w; simpl; [reflexivity |].
  destruct (task x w) as [r w1]. specialize (IH w1).
  destruct (run_tasks task rest w1) as [rs w2]. simpl in *. by rewrite IH.
Qed.

Definition executor : Coordinator.Executor :=
  {| Coordinator.as_completed := run_tasks;
     Coordinator.as_completed_length := run_tasks_length |}.

(** [pubmed-stream download frailty --sequential] *)
Definition download_frailty : Cli.args :=
  {| Cli.command := "download"; Cli.arg_keyword := "frailty";
     Cli.arg_max_results := 100; Cli.arg_format := "text";
     Cli.arg_api_key := None; Cli.arg_sequential := true;
     Cli.arg_workers := MAX_WORKERS; Cli.arg_exclude_text := false;
     Cli.arg_output_dir := None |}.

(** Every request is answered by 503. *)
Definition always_503 : nat -> reply := fun _ => Response 503 "".

(** The first answer is the error wrapper. *)
Definition wrapper_first : nat -> reply := fun n =>
  match n with
  | O => Response 200 error_wrapper_text
  | _ => Response 200 article_text
  end.

(** A search that finds 1 and 2, then nothing but 503: identifier 1 is on
    disk already and identifier 2 cannot be fetched. *)
Definition search_then_503 : nat -> reply := fun n =>
  match n with
  | O => Response 200 search_body
  | _ => Response 503 ""
  end.

(** A fetch answered by 429, then by the article. *)
Definition rate_limited_once : nat -> reply := fun n =>
  match n with
  | O => Response 429 ""
  | _ => Response 200 article_text
  end.

(** A search answered with status 300 and a well-formed body. *)
Definition search_300 : nat -> reply := fun _ => Response 300 search_body.

(** What [download frailty --sequential] reports when the search finds 1
    and 2, record 1 is on disk and every fetch of 2 is answered by 503. *)
Definition one_skipped_one_error : Coordinator.DownloadStats :=
  {| Coordinator.keyword := "frailty"; Coordinator.total_found := 2;
     Coordinator.requested := 2; Coordinator.successful := 0;
     Coordinator.failed := 1; Coordinator.skipped := 1;
     Coordinator.unavailable := 0; Coordinator.errors := 1;
     Coordinator.output_dir := "publications/frailty" |}.

(** The world that run leaves behind. *)
Definition after_download_frailty : world :=
  (Coordinator.search_and_download (RT := runtime) (EX := executor)
     "frailty" 100 "text" None false MAX_WORKERS true None
     (world_of disk search_then_503)).2.

End Examples.


(** * Further definitions *)

(** ** RateLimiter: stamps lie in the past *)

Module RateLimiterPast.

Import RateLimiter.
Local Open Scope Z_scope.

(** The last stamp is a past reading of the clock, the reading [now] of the
    owner is not older than it, and a sleeping owner is due within the
    interval. *)
Definition past (s : state) : Prop :=
  _last_request s <= clock s /\
  forall i p, threads s !! i = Some p ->
    match p with
    | Computed now => _last_request s <= now
    | Sleeping until => until <= clock s + _min_interval s
    | _ => True
    end.

End RateLimiterPast.

(** ** What a call adds to the trace *)

Module Trace.

Import World.

Definition is_get (e : event) : bool :=
  match e with EvGet _ _ => true | _ => false end.

(** The requests among some events. *)
Definition requests (l : list event) : nat := length (List.filter is_get l).

(** The sleeps among some events, in order. *)
Definition sleeps (l : list event) : list Z :=
  omap (fun e => match e with EvSleep ms => Some ms | _ => None end) l.

(** Every request comes directly after a [rate_limiter.wait()];
    [after_wait] tells whether the event before the list was one. *)
Fixpoint paced (after_wait : bool) (l : list event) : bool :=
  match l with
  | [] => true
  | EvWait :: r => paced true r
  | EvGet _ _ :: r => after_wait && paced false r
  | _ :: r => paced false r
  end.

(** The call that took the world from [w] to [w'] logged [new] and sent the
    requests of [new]; it touched neither the script of the network, nor the
    environment, nor the wall clock. *)
Definition acts (w : world) (new : list event) (w' : world) : Prop :=
  trace w' = trace w ++ new /\
  sent w' = (sent w + requests new)%nat /\
  replies w' = replies w /\
  environ w' = environ w /\
  now_iso w' = now_iso w.

End Trace.

(** ** Answers that make every attempt of a fetch fail *)

Module FetchFailures.

Import Py World Fetch.

(** An answer the fetch retries after the fixed delay: a status other than
    200, or a body that is not well-formed. *)
Definition refused `{RT : Runtime} (r : reply) : Prop :=
  match r with
  | Response status_code body =>
      status_code ≠ 200%Z \/ ET_fromstring body = Raise ParseError
  | Fails _ => False
  end.

(** What a fetch logs when each of its attempts fails and is retried after
    [delay attempt]: a wait and a request per attempt, a sleep between two
    attempts. *)
Definition retry_trace (pmcid : string) (api_key : option string) (retries : Z)
    (delay : nat -> Z) : list event :=
  flat_map
    (fun attempt =>
       [EvWait; EvGet (EUTILS_BASE +:+ "/efetch.fcgi")
                      (efetch_params pmcid api_key)] ++
       if (Z.of_nat attempt <? retries - 1)%Z
       then [EvSleep (delay attempt)]
       else [])
    (range retries).

End FetchFailures.

(** ** Identifiers made of digits *)

Module Ids.

(** The string consists of decimal digits only. *)
Fixpoint digits_only (s : string) : bool :=
  match s with
  | "" => true
  | String c r =>
      let n := Ascii.nat_of_ascii c in
      (48 <=? n) && (n <=? 57) && digits_only r
  end.

End Ids.

(** ** The directories of a session, and the shape of strings *)

Module Dirs.

Import Py Coordinator.

(** [Path(output_dir) if output_dir else DEFAULT_OUTPUT_DIR] *)
Definition base_dir (output_dir_ : option string) : string :=
  match output_dir_ with
  | Some d => if truthy d then d else DEFAULT_OUTPUT_DIR
  | None => DEFAULT_OUTPUT_DIR
  end.

(** [output_dir / keyword_slug] *)
Definition out_dir_of (keyword_ : string) (output_dir_ : option string)
  : string :=
  base_dir output_dir_ +:+ "/" +:+ keyword_slug keyword_.

(** The characters [re.sub(r"[^A-Za-z0-9._-]+", "_", ...)] lets through. *)
Fixpoint all_chars (p : Ascii.ascii -> bool) (s : string) : bool :=
  match s with
  | "" => true
  | String c r => p c && all_chars p r
  end.

Definition first_char (s : string) : option Ascii.ascii :=
  match s with
  | "" => None
  | String c _ => Some c
  end.

Fixpoint last_char (s : string) : option Ascii.ascii :=
  match s with
  | "" => None
  | String c r =>
      match last_char r with
      | Some d => Some d
      | None => Some c
      end
  end.

(** Neither the first nor the last character satisfies [p]. *)
Definition trimmed (p : Ascii.ascii -> bool) (s : string) : Prop :=
  (forall c, first_char s = Some c -> p c = false) /\
  (forall c, last_char s = Some c -> p c = false).

(** No two neighbours both satisfy [p]; [before] tells whether the
    character before the string does. *)
Fixpoint no_adjacent (p : Ascii.ascii -> bool) (before : bool) (s : string)
  : bool :=
  match s with
  | "" => true
  | String c r => negb (before && p c) && no_adjacent p (p c) r
  end.

End Dirs.

(** ** The shape of derived plain text *)

Module PlainText.

Import Py Fetch.

(** A character that is not whitespace, or the space. *)
Definition plain_char (c : Ascii.ascii) : bool :=
  negb (isspace c) || Ascii.eqb c chr_space.

(** The first character of the string, if any, satisfies [p]. *)
Definition starts_with (p : Ascii.ascii -> bool) (s : string) : bool :=
  match s with
  | "" => false
  | String c _ => p c
  end.

(** The regular expression [<[^>]+>] matches somewhere in the string: at
    some ["<"] a tag opens, in the sense of [tag_span]. *)
Fixpoint has_tag (s : string) : bool :=
  match s with
  | "" => false
  | String c r =>
      (Ascii.eqb c chr_lt && bool_decide (is_Some (tag_span r 0)))
      || has_tag r
  end.

Definition is_gt (c : Ascii.ascii) : bool := Ascii.eqb c chr_gt.

(** A [">"] occurs in the string. *)
Fixpoint gt_in (s : string) : bool :=
  match s with
  | "" => false
  | String c r => is_gt c || gt_in r
  end.

End PlainText.

(** ** Reading the record back *)

Module Fields.

Import Py ElementTree Metadata.

(** The text of the last [article-id] of type [k] among [ids]. *)
Definition last_id (ids : list Element) (k : string) : option string :=
  (fun aid => strip (or_empty (text aid))) <$>
  last (List.filter
          (fun aid => String.eqb (get_or_empty aid "pub-id-type") k) ids).

(** [journal_meta = front.find("journal-meta")], when the document has an
    article with a front. *)
Definition journal_meta_of (root : Element) : option Element :=
  article ← locate_article root;
  front ← find article "front";
  find front "journal-meta".

(** The generic journal name a record should carry, given its three
    specific journal fields: the title, else the ISO abbreviation, else the
    NLM abbreviation. *)
Definition preferred_journal (md : metadata) : option mvalue :=
  match md !! "journal_title" with
  | Some v => Some v
  | None =>
      match md !! "journal_iso_abbrev" with
      | Some v => Some v
      | None => md !! "journal_nlm_ta"
      end
  end.

(** No string of the value has whitespace at either end. *)
Definition tidy (v : mvalue) : Prop :=
  match v with
  | MStr s => Dirs.trimmed isspace s
  | MList l => Forall (Dirs.trimmed isspace) l
  | MDict d => forall k s, d !! k = Some s -> Dirs.trimmed isspace s
  end.

End Fields.

(** ** Counters *)

Module Tallies.

Import Coordinator.
Local Open Scope Z_scope.

(** No counter is negative. *)
Definition nonneg (c : counters) : Prop :=
  0 <= c_successful c /\ 0 <= c_unavailable c /\
  0 <= c_errors c /\ 0 <= c_skipped c.

End Tallies.

(** ** The instants at which calls of wait return *)

Module RateLimiterReturns.

Import RateLimiter.
Local Open Scope Z_scope.

(** Whether the statement thread [i] executes next makes its call of [wait]
    return: the early [return] of a disabled limiter, or leaving the
    with-block. *)
Definition returning (s : state) (a : action) : bool :=
  match a with
  | Tick _ => false
  | Run i =>
      match threads s !! i with
      | Some Idle => _min_interval s <=? 0
      | Some Releasing => true
      | _ => false
      end
  end.

(** The clock readings at which calls of [wait] return along a schedule, in
    the order of the returns. *)
Fixpoint returns (sched : list action) (s : state) : list Z :=
  match sched with
  | [] => []
  | a :: rest =>
      (if returning s a then [clock s] else []) ++ returns rest (step a s)
  end.

(** Thread 0 is granted at 10 and is then kept from running for 100 ticks
    before it leaves the with-block; thread 1, queued on the lock, is granted
    as soon as the lock is free. *)
Definition late_release : list action :=
  [Run 0; Run 0; Run 0; Run 0; Run 0; Run 1; Tick 100; Run 0;
   Run 1; Run 1; Run 1; Run 1; Run 1].

End RateLimiterReturns.

(** ** Further scenarios *)

Module Scenarios.

Import Py ElementTree Metadata World Examples.

(** The network is down: every request fails in transport. *)
Definition always_down : nat -> reply := fun _ => Fails RequestException.

(** Fetching identifier 2 when the service answers 429, then the article. *)
Definition fetch_2 : result (bool * string) * world :=
  Fetch.efetch_pmc (RT := runtime) "2" "publications/frailty" "text" None 3 true
    (world_of disk rate_limited_once).

(** Fetching identifier 2 when the service answers with the error
    wrapper. *)
Definition fetch_2_unavailable : result (bool * string) * world :=
  Fetch.efetch_pmc (RT := runtime) "2" "publications/frailty" "text" None 3 true
    (world_of disk wrapper_first).

(** The metadata of the example article. *)
Definition article_record : metadata :=
  match extract_metadata_from_pmc_xml (RT := runtime) article_text with
  | Return md => md
  | Raise _ => ∅
  end.

(** The author of the example article, and her name. *)
Definition jane_name : Element :=
  node "name" [leaf "surname" "Doe"; leaf "given-names" "Jane"].
Definition jane : Element :=
  Elem "contrib" {["contrib-type" := "author"]} None None [jane_name].

(** The [article-meta] element of the example article. *)
Definition article_meta_el : Element :=
  node "article-meta" [
    Elem "article-id" {["pub-id-type" := "pmid"]} (Some "12345") None [];
    node "title-group" [leaf "article-title" "Frailty"];
    Elem "pub-date" {["pub-type" := "epub"]} None None
      [leaf "year" "2020"; leaf "month" "03"];
    node "contrib-group" [jane]].

(** A search on a world whose service answers the search, then 503. *)
Definition search_frailty : result (json * Z) * world :=
  Search.esearch_pmc (RT := runtime) "frailty" 100 None MAX_RETRIES
    (world_of disk search_then_503).

(** The body of a search answer without a [count]: a JSON object whose
    [esearchresult] holds only the [idlist] of the strings 1 and 2. *)
Definition uncounted_body : string :=
  "{" +:+ quoted "esearchresult" +:+ ": {" +:+
    quoted "idlist" +:+ ": [" +:+ quoted "1" +:+ ", " +:+ quoted "2" +:+ "]}}".
Definition uncounted : list (string * json) :=
  [("esearchresult", JObj [("idlist", JArr [JStr "1"; JStr "2"])])].

(** A body that is a JSON array. *)
Definition array_body : string := "[]".

(** An article whose [article-meta] gives two identifiers of type pmid. *)
Definition repeated_pmid_text : string :=
  "<article><front><article-meta><article-id pub-id-type='pmid'>111</article-id><article-id pub-id-type='pmid'>222</article-id></article-meta></front></article>".
Definition repeated_pmid_meta : Element :=
  node "article-meta" [
    Elem "article-id" {["pub-id-type" := "pmid"]} (Some "111") None [];
    Elem "article-id" {["pub-id-type" := "pmid"]} (Some "222") None []].
Definition repeated_pmid_doc : Element :=
  node "article" [node "front" [repeated_pmid_meta]].

(** The runtime of the examples, which also knows the texts above. *)
Definition parsers : Runtime :=
  {| ET_fromstring := fun s =>
       if String.eqb s repeated_pmid_text then Return repeated_pmid_doc
       else ET_fromstring (Runtime := runtime) s;
     json_loads := fun s =>
       if String.eqb s uncounted_body then Return (JObj uncounted)
       else if String.eqb s array_body then Return (JArr [])
       else json_loads (Runtime := runtime) s;
     int_of_str := int_of_str (Runtime := runtime);
     repr := repr (Runtime := runtime) |}.

(** A search answered without a [count], and one answered with an array. *)
Definition uncounted_search : nat -> reply := fun _ => Response 200 uncounted_body.
Definition array_search : nat -> reply := fun _ => Response 200 array_body.

(** A disk on which both records are present. *)
Definition full_disk : filesystem :=
  {| dirs := {[ "publications" := ∅;
                "publications/frailty" :=
                  {[ "PMC1.json" := Bytes "{}"; "PMC2.json" := Bytes "{}" ]} ]};
     mkdir_denied := ∅;
     write_denied := ∅;
     write_cut := ∅ |}.



(** The search of a session run on that disk. *)
Definition search_again : result (json * Z) * world :=
  Search.esearch_pmc (RT := runtime) "frailty" 100 None MAX_RETRIES
    (world_of full_disk search_then_503).

End Scenarios.
(** * Properties *)

(** ** RateLimiter: the lock serialises the stamps *)

Section RateLimiterFacts.
Import RateLimiter.
Local Open Scope Z_scope.

Lemma lookup_set_pc i p s j q :
  threads (set_pc i p s) !! j = Some q ->
  (j = i /\ q = p) \/ (j <> i /\ threads s !! j = Some q).
Proof.
  simpl. intros H. apply list_lookup_insert_Some in H.
  destruct H as [(-> & -> & _) | (Hne & H)]; [left | right]; auto.
Qed.

Lemma inv_init mi n c0 : inv (init mi n c0).
Proof.
  split; simpl.
  - intros i p H. apply lookup_replicate in H as [-> _]. discriminate.
  - intros i p H. apply lookup_replicate in H as [-> _]. exact I.
  - discriminate.
  - exact I.
Qed.

Lemma inv_advance d s : inv s -> inv (advance d s).
Proof.
  intros [Ho Hp Hl Hs]. split; simpl; auto.
  intros i p H. specialize (Hp i p H).
  destruct p; simpl in *; lia.
Qed.

(** A thread other than the owner is outside the critical section, where
    nothing is assumed about it. *)
Lemma other_thread_free s i p j q :
  inv s -> threads s !! i = Some p -> owner p = true ->
  j <> i -> threads s !! j = Some q -> owner q = false.
Proof.
  intros [Ho _ _ _] Hi Hpi Hne Hj.
  destruct (owner q) eqn:E; [| reflexivity].
  pose proof (Ho i p Hi Hpi) as H1. pose proof (Ho j q Hj E) as H2.
  congruence.
Qed.

Lemma pc_ok_free s p : owner p = false -> pc_ok s p.
Proof. destruct p; simpl; intros; try discriminate; exact I. Qed.

Lemma inv_set_pc i p' s :
  inv s ->
  (owner p' = true -> _lock s = Some i) ->
  pc_ok s p' ->
  inv (set_pc i p' s).
Proof.
  intros [Ho Hp Hl Hs] Hown Hok. split; simpl; auto.
  - intros j q H. apply lookup_set_pc in H as [[-> ->] | [Hne H]]; eauto.
  - intros j q H. apply lookup_set_pc in H as [[-> ->] | [Hne H]]; eauto.
Qed.

Lemma inv_wait_step i p s :
  inv s -> threads s !! i = Some p -> inv (wait_step i p s).
Proof.
  intros HI Hi. pose proof HI as [Ho Hp Hl Hs].
  pose proof (Hp i p Hi) as Hpi.
  destruct p; simpl in *.
  - (* Idle *)
    destruct (_min_interval s <=? 0); [assumption |].
    apply inv_set_pc; [assumption | discriminate | exact I].
  - (* Acquiring *)
    destruct (_lock s) eqn:EL; [assumption |].
    apply inv_set_pc; [| reflexivity | exact I].
    split; simpl; auto.
    intros j q H Hq. specialize (Ho j q H Hq). congruence.
  - (* ReadNow *)
    apply inv_set_pc; [assumption | intros _; eapply Ho; eauto | simpl; lia].
  - (* Computed *)
    destruct (0 <? _last_request s + _min_interval s - now) eqn:E;
      (apply inv_set_pc; [assumption | intros _; eapply Ho; eauto | simpl]).
    + lia.
    + apply Z.ltb_ge in E. lia.
  - (* Sleeping *)
    destruct (until <=? clock s) eqn:E; [| assumption].
    apply Z.leb_le in E.
    apply inv_set_pc; [assumption | intros _; eapply Ho; eauto | simpl; lia].
  - (* Stamping *)
    split; simpl.
    + intros j q H. apply lookup_set_pc in H as [[-> ->] | [Hne H]]; simpl in *.
      * intros _. eapply Ho; eauto.
      * eauto.
    + intros j q H. apply lookup_set_pc in H as [[-> ->] | [Hne H]]; simpl in *.
      * exact I.
      * apply pc_ok_free.
        eapply (other_thread_free s i Stamping j q); eauto.
    + intros g [= <-]. reflexivity.
    + destruct (grants s) as [| g r] eqn:EG; [exact I |].
      split; [| assumption].
      rewrite <- (Hl g eq_refl). exact Hpi.
  - (* Releasing *)
    split; simpl; auto.
    + intros j q H. apply lookup_set_pc in H as [[-> ->] | [Hne H]]; simpl in *.
      * discriminate.
      * intros Hq.
        pose proof (other_thread_free s i Releasing j q HI Hi eq_refl Hne H).
        congruence.
    + intros j q H. apply lookup_set_pc in H as [[-> ->] | [Hne H]]; simpl in *.
      * exact I.
      * apply pc_ok_free.
        eapply (other_thread_free s i Releasing j q); eauto.
Qed.

Lemma inv_step a s : inv s -> inv (step a s).
Proof.
  intros HI. destruct a as [d | i]; simpl.
  - by apply inv_advance.
  - destruct (threads s !! i) as [p |] eqn:E; [| assumption].
    by apply inv_wait_step.
Qed.

Lemma inv_run sched s : inv s -> inv (run sched s).
Proof.
  revert s. induction sched as [| a sched IH]; intros s HI; simpl; [assumption |].
  apply IH, inv_step, HI.
Qed.

Lemma min_interval_step a s : _min_interval (step a s) = _min_interval s.
Proof.
  destruct a as [d | i]; simpl; [reflexivity |].
  destruct (threads s !! i) as [p |]; [| reflexivity].
  destruct p; simpl; try reflexivity.
  - destruct (_min_interval s <=? 0); reflexivity.
  - destruct (_lock s); reflexivity.
  - destruct (0 <? _); reflexivity.
  - destruct (_ <=? _); reflexivity.
Qed.

Lemma min_interval_run sched s : _min_interval (run sched s) = _min_interval s.
Proof.
  revert s. induction sched as [| a sched IH]; intros s; simpl; [reflexivity |].
  rewrite IH. apply min_interval_step.
Qed.

Lemma spaced_head gap x r :
  0 <= gap -> spaced gap (x :: r) ->
  forall j g, r !! j = Some g -> g + gap <= x.
Proof.
  intros Hg. revert x. induction r as [| y r IH]; intros x Hs j g Hj.
  - discriminate.
  - destruct Hs as [Hxy Hs]. destruct j as [| j]; simpl in Hj.
    + injection Hj as <-. exact Hxy.
    + specialize (IH y Hs j g Hj). lia.
Qed.

Lemma spaced_pairwise gap l :
  0 <= gap -> spaced gap l ->
  forall (i j : nat) gi gj, (i < j)%nat ->
    l !! i = Some gi -> l !! j = Some gj -> gj + gap <= gi.
Proof.
  intros Hg. induction l as [| x r IH]; intros Hs i j gi gj Hij Hi Hj.
  - discriminate.
  - destruct j as [| j]; [lia |]. simpl in Hj.
    destruct i as [| i]; simpl in Hi.
    + injection Hi as <-. eapply spaced_head; eauto.
    + apply (IH ltac:(destruct r; [exact I | apply Hs]) i j); auto. lia.
Qed.

(** C1. On one instance built with [min_interval > 0], whatever the number
    of threads and however the scheduler interleaves their statements with
    the passing of time, any two stamps granted by [wait] (the monotonic
    readings it stores in [_last_request]) are at least [min_interval]
    apart. *)
Theorem wait_grants_min_interval_apart
    (min_interval : Z) (nthreads : nat) (c0 : Z) (sched : list action)
    (i j : nat) (gi gj : Z) :
  0 < min_interval ->
  (i < j)%nat ->
  grants (run sched (init min_interval nthreads c0)) !! i = Some gi ->
  grants (run sched (init min_interval nthreads c0)) !! j = Some gj ->
  gj + min_interval <= gi.
Proof.
  intros Hmi Hij Hi Hj.
  pose proof (inv_run sched _ (inv_init min_interval nthreads c0)) as [_ _ _ Hs].
  rewrite min_interval_run in Hs. simpl in Hs.
  rewrite Z.max_r in Hs by lia.
  eapply spaced_pairwise; eauto. lia.
Qed.

End RateLimiterFacts.

(** The schedule [Examples.two_threads] grants at 10 and at 15. *)
Lemma wait_grants_min_interval_apart_witness : (10 + 3 <= 15)%Z.
Proof.
  apply (wait_grants_min_interval_apart 3 2 10 Examples.two_threads 0 1 15 10).
  - lia.
  - lia.
  - reflexivity.
  - reflexivity.
Defined.

(** C1, as stated, fails for the instants at which calls return: a thread
    that is granted its stamp and then kept from running returns late.  On
    [late_release], with [min_interval = 3], the stamps are 10 and 110 but
    both calls return at 110. *)
Lemma wait_returns_together :
  (0 < 3)%Z /\
  RateLimiter.grants
    (RateLimiter.run RateLimiterReturns.late_release (RateLimiter.init 3 2 10))
  = [110; 10]%Z /\
  RateLimiterReturns.returns RateLimiterReturns.late_release
    (RateLimiter.init 3 2 10)
  = [110; 110]%Z.
Proof. split; [lia | split; reflexivity]. Qed.

(** ** efetch_pmc *)

Section FetchFacts.
Import Py ElementTree Metadata World Fetch.
Context `{RT : Runtime}.
Variables (pmcid out_dir fmt : string) (api_key : option string)
          (retries : Z) (include_text : bool).

Lemma documented_error : documented (false, "error").
Proof. split; simpl; [tauto |]. split; [discriminate | intros [|]; discriminate]. Qed.

Lemma documented_unavailable : documented (false, "unavailable").
Proof. split; simpl; [tauto |]. split; [discriminate | intros [|]; discriminate]. Qed.

Lemma documented_success : documented (true, "success").
Proof. split; simpl; tauto. Qed.

Lemma documented_exists : documented (true, "exists").
Proof. split; simpl; tauto. Qed.

Create HintDb fetch.
#[local] Hint Resolve documented_error documented_unavailable
  documented_success documented_exists : fetch.

Lemma on_exception_documented attempt e w r w' :
  on_exception retries attempt e w = (Finish (Return r), w') -> documented r.
Proof.
  unfold on_exception.
  destruct (is_RequestException e); [destruct (more_attempts retries attempt) |
    destruct (is_OSError e)];
    intros [= <-]; auto with fetch.
Qed.

Lemma retry_or_error_documented attempt w r w' :
  retry_or_error retries attempt w = (Finish (Return r), w') -> documented r.
Proof.
  unfold retry_or_error. destruct (more_attempts retries attempt);
    intros [= <-]; auto with fetch.
Qed.

Lemma save_article_documented attempt body w r w' :
  save_article pmcid out_dir fmt retries include_text attempt body w
    = (Finish (Return r), w') -> documented r.
Proof.
  unfold save_article.
  destruct (extract_metadata_from_pmc_xml body) as [md | e].
  - destruct (write_text _ _ _ _) as [[u | e] f].
    + intros [= <-]; auto with fetch.
    + apply on_exception_documented.
  - apply on_exception_documented.
Qed.

Lemma efetch_attempt_documented attempt w r w' :
  efetch_attempt pmcid out_dir fmt api_key retries include_text attempt w
    = (Finish (Return r), w') -> documented r.
Proof.
  unfold efetch_attempt.
  destruct (session_get _ _ _) as [[[code body] | e] w1].
  - destruct (negb (code =? 200)%Z).
    + apply retry_or_error_documented.
    + destruct (ET_fromstring body) as [root | e].
      * destruct (_ && _).
        -- intros [= <-]; auto with fetch.
        -- apply save_article_documented.
      * destruct (is_ParseError e).
        -- apply retry_or_error_documented.
        -- apply on_exception_documented.
  - apply on_exception_documented.
Qed.

Lemma efetch_loop_documented attempts w r w' :
  efetch_loop pmcid out_dir fmt api_key retries include_text attempts w
    = (Return r, w') -> documented r.
Proof.
  revert w. induction attempts as [| attempt rest IH]; intros w; simpl.
  - intros [= <-]; auto with fetch.
  - destruct (efetch_attempt _ _ _ _ _ _ _ _) as [[| res] w1] eqn:E.
    + apply IH.
    + intros [= -> <-]. eapply efetch_attempt_documented; eauto.
Qed.

(** C10. Whatever path [efetch_pmc] returns by, the status of the returned
    pair is one of "success", "exists", "unavailable" and "error", and the
    flag is [True] exactly for "success" and "exists". *)
Theorem efetch_pmc_returns_documented_pair (w w' : world) (success : bool)
    (status : string) :
  efetch_pmc pmcid out_dir fmt api_key retries include_text w
    = (Return (success, status), w') ->
  (status = "success" \/ status = "exists" \/ status = "unavailable" \/
   status = "error") /\
  (success = true <-> (status = "success" \/ status = "exists")).
Proof.
  unfold efetch_pmc.
  destruct (mkdir out_dir (fs w)) as [f | e]; [| discriminate].
  destruct (file_exists _ _ _).
  - intros [= <- <-]. apply documented_exists.
  - intros E. apply (efetch_loop_documented _ _ _ _ E).
Qed.

Lemma set_fs_same (w : world) : set_fs (fs w) w = w.
Proof. destruct w; reflexivity. Qed.

(** C4. When the record file of the identifier (its display form followed by
    ".json") is already in the destination directory, [efetch_pmc] returns
    [(True, "exists")] and leaves the world as it found it: no request is
    sent, nothing is logged, and the file system, the existing file
    included, is untouched. *)
Theorem efetch_pmc_existing_record (w : world) (c : content) :
  read_file out_dir (pmcid_display pmcid +:+ ".json") (fs w) = Some c ->
  efetch_pmc pmcid out_dir fmt api_key retries include_text w
    = (Return (true, "exists"), w).
Proof.
  unfold read_file, efetch_pmc, mkdir, file_exists. intros Hc.
  destruct (dirs (fs w) !! out_dir) as [files |] eqn:Ed; [| discriminate].
  simpl in Hc. rewrite set_fs_same, Ed.
  rewrite bool_decide_eq_true_2 by (rewrite Hc; eauto).
  reflexivity.
Qed.

(** C5. Standing at any attempt of the retry loop, with any number of
    attempts left: when the answer has status 200 and parses to a
    [pmc-articleset] root with an [error] child, the loop returns
    [(False, "unavailable")] after that single request, without sleeping
    and without using the attempts that remain. *)
Theorem efetch_error_wrapper_is_final (attempt : nat) (rest : list nat)
    (w : world) (body : string) (root err : Element) :
  replies w (sent w) = Response 200 body ->
  ET_fromstring body = Return root ->
  tag root = "pmc-articleset" ->
  find root "error" = Some err ->
  exists w',
    efetch_loop pmcid out_dir fmt api_key retries include_text
      (attempt :: rest) w = (Return (false, "unavailable"), w') /\
    sent w' = S (sent w) /\
    fs w' = fs w /\
    trace w' = trace w ++
      [EvWait; EvGet (EUTILS_BASE +:+ "/efetch.fcgi") (efetch_params pmcid api_key)].
Proof.
  intros Hr Hp Ht He. eexists. simpl.
  unfold efetch_attempt, session_get, wait. simpl.
  rewrite Hr. simpl. rewrite Hp, Ht, He. simpl.
  split; [reflexivity |]. simpl.
  repeat split. by rewrite <- app_assoc.
Qed.

End FetchFacts.

Section FetchExamples.
Import Py ElementTree Metadata World Fetch Examples.

(** Identifier 2 is answered by the error wrapper. *)
Lemma efetch_pmc_returns_documented_pair_witness :
  ("unavailable" = "success" \/ "unavailable" = "exists" \/
   "unavailable" = "unavailable" \/ "unavailable" = "error") /\
  (false = true <-> ("unavailable" = "success" \/ "unavailable" = "exists")).
Proof.
  eapply (efetch_pmc_returns_documented_pair (RT := runtime)
            "2" "publications/frailty" "text" None 3 true
            (world_of disk wrapper_first) _ false "unavailable").
  vm_compute. reflexivity.
Defined.

(** Identifier 1 is on disk: nothing happens. *)
Lemma efetch_pmc_existing_record_witness :
  efetch_pmc (RT := runtime) "1" "publications/frailty" "text" None 3 true
    (world_of disk always_503)
  = (Return (true, "exists"), world_of disk always_503).
Proof.
  apply (efetch_pmc_existing_record (RT := runtime)
           "1" "publications/frailty" "text" None 3 true
           (world_of disk always_503) (Bytes "{}")).
  vm_compute. reflexivity.
Defined.

(** The wrapper arrives at the second attempt of three. *)
Lemma efetch_error_wrapper_is_final_witness :
  exists w',
    efetch_loop (RT := runtime) "2" "publications/frailty" "text" None 3 true
      [1; 2]%nat (world_of disk wrapper_first)
      = (Return (false, "unavailable"), w') /\
    sent w' = 1%nat /\
    fs w' = disk /\
    trace w' =
      [EvWait; EvGet (EUTILS_BASE +:+ "/efetch.fcgi") (efetch_params "2" None)].
Proof.
  apply (efetch_error_wrapper_is_final (RT := runtime)
           "2" "publications/frailty" "text" None 3 true 1%nat [2%nat]
           (world_of disk wrapper_first) error_wrapper_text error_wrapper
           (leaf "error" "not found")); reflexivity.
Defined.

End FetchExamples.

(** ** esearch_pmc *)

Section SearchFacts.
Import Py World Search.
Context `{RT : Runtime}.
Variables (term : string) (max_results : Z) (api_key : option string)
          (retries : Z).

Lemma failing_is_caught status_code body :
  failing (Response status_code body) ->
  exists e, read_search_response status_code body = Raise e /\ caught e = true.
Proof.
  simpl. intros Hf. unfold read_search_response, raise_for_status.
  destruct ((400 <=? status_code)%Z && (status_code <? 600)%Z) eqn:E.
  - exists RequestException. split; reflexivity.
  - destruct Hf as [Hc | Hj].
    + apply andb_false_iff in E as [E | E]; [apply Z.leb_gt in E | apply Z.ltb_ge in E]; lia.
    + exists ValueError. simpl. rewrite Hj. split; reflexivity.
Qed.

(** A failing attempt ends in the [except] clause, one request later. *)
Lemma failing_attempt attempt w :
  failing (replies w (sent w)) ->
  exists e, caught e = true /\
    esearch_attempt term max_results api_key retries attempt w
    = on_exception retries attempt e
        {| fs := fs w; replies := replies w; sent := S (sent w);
           environ := environ w; now_iso := now_iso w;
           trace := trace w ++
             [EvWait; EvGet (EUTILS_BASE +:+ "/esearch.fcgi")
                            (esearch_params term max_results api_key)] |}.
Proof.
  intros Hf. unfold esearch_attempt, session_get, wait, log. simpl.
  rewrite <- app_assoc. simpl.
  destruct (replies w (sent w)) as [e | code body].
  - simpl in Hf. subst e. exists RequestException. split; reflexivity.
  - destruct (failing_is_caught code body Hf) as (e & -> & Hc).
    exists e. split; [assumption | reflexivity].
Qed.

Lemma esearch_loop_all_fail (m a : nat) (w : world) :
  (a + m)%nat = Z.to_nat retries ->
  (forall i, (i < m)%nat -> failing (replies w (sent w + i))) ->
  exists w',
    esearch_loop term max_results api_key retries (seq a m) w
      = (Return (JArr [], 0%Z), w') /\
    sent w' = (sent w + m)%nat /\
    fs w' = fs w /\
    replies w' = replies w /\
    trace w' = trace w ++
      flat_map
        (fun attempt =>
           [EvWait; EvGet (EUTILS_BASE +:+ "/esearch.fcgi")
                          (esearch_params term max_results api_key)] ++
           if (Z.of_nat attempt <? retries - 1)%Z
           then [EvSleep (RETRY_DELAY * (Z.of_nat attempt + 1))]
           else [])
        (seq a m).
Proof.
  revert a w. induction m as [| m IH]; intros a w Hlen Hf; simpl.
  - exists w. rewrite Nat.add_0_r, app_nil_r. auto.
  - destruct (failing_attempt a w) as (e & Hc & ->).
    { specialize (Hf 0%nat ltac:(lia)). by rewrite Nat.add_0_r in Hf. }
    unfold on_exception. rewrite Hc.
    destruct (Z.of_nat a <? retries - 1)%Z eqn:E.
    + edestruct (IH (S a)) as (w' & -> & Hs & Hfs & Hr & Ht).
      { lia. }
      { intros i Hi. simpl.
        replace (S (sent w + i)) with (sent w + S i)%nat by lia.
        apply Hf. lia. }
      exists w'. simpl in *. split; [reflexivity |].
      rewrite Hs, Hfs, Hr, Ht. repeat split; [lia |].
      by rewrite <- !app_assoc.
    + apply Z.ltb_ge in E.
      assert (m = 0%nat) as -> by lia.
      eexists. split; [reflexivity |]. simpl.
      rewrite ?app_nil_r. repeat split; lia.
Qed.

(** C6, as the code has it. If each of the [retries] attempts fails with a
    transport error, with a 4xx or 5xx status, or with a body that is not
    JSON, [esearch_pmc] returns the empty list and a zero total without
    raising, after [retries] requests, sleeping
    [RETRY_DELAY * attempt] after the attempt-th failure that is not the
    last. *)
Theorem esearch_pmc_all_attempts_fail (w : world) :
  (forall i, (i < Z.to_nat retries)%nat -> failing (replies w (sent w + i))) ->
  exists w',
    esearch_pmc term max_results api_key retries w
      = (Return (JArr [], 0%Z), w') /\
    sent w' = (sent w + Z.to_nat retries)%nat /\
    fs w' = fs w /\
    trace w' = trace w ++ backoff_trace term max_results api_key retries.
Proof.
  intros Hf.
  destruct (esearch_loop_all_fail (Z.to_nat retries) 0 w eq_refl Hf)
    as (w' & Hrun & Hs & Hfs & _ & Ht).
  exists w'. unfold esearch_pmc, backoff_trace, range. auto.
Qed.

End SearchFacts.

Section SearchExamples.
Import Py World Search Examples.

(** Three answers 503: two sleeps, of 2 and of 4 seconds. *)
Lemma esearch_pmc_all_attempts_fail_witness :
  exists w',
    esearch_pmc (RT := runtime) "frailty" 10 None 3 (world_of disk always_503)
      = (Return (JArr [], 0%Z), w') /\
    sent w' = 3%nat /\
    fs w' = disk /\
    trace w' =
      [EvWait; EvGet (EUTILS_BASE +:+ "/esearch.fcgi")
                     (esearch_params "frailty" 10 None);
       EvSleep 2000;
       EvWait; EvGet (EUTILS_BASE +:+ "/esearch.fcgi")
                     (esearch_params "frailty" 10 None);
       EvSleep 4000;
       EvWait; EvGet (EUTILS_BASE +:+ "/esearch.fcgi")
                     (esearch_params "frailty" 10 None)].
Proof.
  apply (esearch_pmc_all_attempts_fail (RT := runtime) "frailty" 10 None 3
           (world_of disk always_503)).
  intros i _. simpl. left. lia.
Defined.

(** C6, as stated, fails: a status outside 2xx that is not an error status
    does not make the attempt fail.  Answered with 300 and a well-formed
    body, the search returns the identifiers of the body. *)
Lemma esearch_pmc_status_300_returns_ids :
  (forall i, failing_non_2xx (RT := runtime) (search_300 i)) /\
  (esearch_pmc (RT := runtime) "frailty" 10 None 3
     (world_of disk search_300)).1
  = Return (JArr [JStr "1"; JStr "2"], 2%Z).
Proof.
  split.
  - intros i. simpl. left. lia.
  - vm_compute. reflexivity.
Qed.

End SearchExamples.

(** ** search_and_download *)

Section CoordinatorFacts.
Import Py World Coordinator.
Context `{RT : Runtime} `{EX : Executor}.
Variables (keyword_ : string) (max_results : Z) (fmt : string)
          (api_key : option string) (use_concurrent : bool) (max_workers : Z)
          (include_text : bool) (output_dir_ : option string).

Local Open Scope Z_scope.

Lemma tally_one_more c r : one_more c (tally c r).
Proof.
  unfold one_more, tally. destruct r as [[ok status] | e]; [| tauto].
  repeat (destruct (String.eqb status _); [tauto |]). tauto.
Qed.

Lemma one_more_counted c c' : one_more c c' -> counted c' = counted c + 1.
Proof. unfold counted. intros [-> | [-> | [-> | ->]]]; simpl; lia. Qed.

Lemma foldl_tally_counted results c :
  counted (foldl tally c results) = counted c + Z.of_nat (length results).
Proof.
  revert c. induction results as [| r rest IH]; intros c; simpl; [lia |].
  rewrite IH, (one_more_counted _ _ (tally_one_more c r)). lia.
Qed.

Lemma download_sequential_counted out_dir key items c w :
  counted (download_sequential fmt include_text out_dir key items c w).1
  = counted c + Z.of_nat (length items).
Proof.
  revert c w. induction items as [| x rest IH]; intros c w; simpl; [lia |].
  destruct (download_one fmt include_text out_dir key x w) as [r w1].
  rewrite IH, (one_more_counted _ _ (tally_one_more c r)). lia.
Qed.

Lemma download_concurrent_counted out_dir key items c w :
  counted (download_concurrent fmt include_text out_dir key items c w).1
  = counted c + Z.of_nat (length items).
Proof.
  unfold download_concurrent.
  pose proof (as_completed_length
                (download_one fmt include_text out_dir key) items w) as Hlen.
  destruct (as_completed _ items w) as [results w1]. simpl in *.
  by rewrite foldl_tally_counted, Hlen.
Qed.

Lemma chars_length s : length (chars s) = String.length s.
Proof. induction s as [| a s IH]; simpl; [reflexivity | by rewrite IH]. Qed.

(** A [for] loop visits [len(v)] items. *)
Lemma iter_length v n : len v = Return n -> length (iter v) = n.
Proof.
  destruct v; simpl; try discriminate; intros [= <-].
  - by rewrite length_fmap, chars_length.
  - reflexivity.
  - by rewrite length_fmap.
Qed.

(** C2. Whenever [search_and_download] returns its statistics,
    [requested] is exactly [successful + skipped + unavailable + errors];
    and each pass through a download loop adds one to exactly one of the
    four counters. *)
Theorem search_and_download_accounts_for_every_id
    (w w' : world) (stats : DownloadStats) :
  search_and_download keyword_ max_results fmt api_key use_concurrent
    max_workers include_text output_dir_ w = (Return stats, w') ->
  requested stats
    = successful stats + skipped stats + unavailable stats + errors stats /\
  (forall c r, one_more c (tally c r)).
Proof.
  intros Hrun. split; [| apply tally_one_more].
  revert Hrun. unfold search_and_download.
  destruct (mkdir _ (fs w)) as [f | e]; [| discriminate].
  destruct (Search.esearch_pmc _ _ _ _ _) as [[[pmcids total] | e] w1].
  2: { intros [= <- _]. reflexivity. }
  destruct (negb (json_truthy pmcids)).
  { intros [= <- _]. reflexivity. }
  destruct (len pmcids) as [n | e] eqn:En; [| discriminate].
  destruct (_ && (max_workers <=? 0)); [discriminate |].
  pose proof (iter_length _ _ En) as Hn.
  destruct (use_concurrent && (1 <? Z.of_nat n)).
  - match goal with
    | |- context [download_concurrent _ _ ?o ?k ?it ?c ?w] =>
        pose proof (download_concurrent_counted o k it c w) as Hc
    end.
    destruct (download_concurrent _ _ _ _ _ _ _) as [c w2].
    intros [= <- _]. simpl in *. unfold counted in Hc. simpl in Hc. lia.
  - match goal with
    | |- context [download_sequential _ _ ?o ?k ?it ?c ?w] =>
        pose proof (download_sequential_counted o k it c w) as Hc
    end.
    destruct (download_sequential _ _ _ _ _ _ _) as [c w2].
    intros [= <- _]. simpl in *. unfold counted in Hc. simpl in Hc. lia.
Qed.

End CoordinatorFacts.

(** ** The exit code of the command line *)

Section CliFacts.
Import Py World Coordinator Cli.
Context `{RT : Runtime} `{EX : Executor}.

Local Open Scope Z_scope.

Lemma exit_code_zero_iff (stats : DownloadStats) :
  exit_code stats = 0 <->
  (0 < successful stats \/ (0 < skipped stats /\ errors stats = 0)).
Proof.
  unfold exit_code.
  destruct (0 <? successful stats) eqn:E1.
  - apply Z.ltb_lt in E1. tauto.
  - apply Z.ltb_ge in E1.
    destruct (0 <? skipped stats) eqn:E2; simpl.
    + apply Z.ltb_lt in E2.
      destruct (errors stats =? 0) eqn:E3.
      * apply Z.eqb_eq in E3. split; [intros _ | reflexivity]. right. lia.
      * apply Z.eqb_neq in E3.
        destruct (requested stats =? 0); split; try discriminate; lia.
    + apply Z.ltb_ge in E2.
      destruct (requested stats =? 0); split; try discriminate; lia.
Qed.

(** C9, as the code has it. The download command exits with zero exactly
    when at least one article was newly downloaded, or at least one record
    was already present and no identifier ended in error; identifiers that
    were unavailable do not stand in the way.  Otherwise it exits with 1 when
    nothing was requested and with 2 when something was. *)
Theorem main_exit_code (a : args) (w w' : world) (stats : DownloadStats) :
  command a = "download" ->
  search_and_download (arg_keyword a) (arg_max_results a) (arg_format a)
    (arg_api_key a) (negb (arg_sequential a)) (arg_workers a)
    (negb (arg_exclude_text a)) (arg_output_dir a) w = (Return stats, w') ->
  exists code,
    main a w = (Return code, w') /\
    (code = 0 <->
       (0 < successful stats \/ (0 < skipped stats /\ errors stats = 0))) /\
    (code <> 0 -> code = if requested stats =? 0 then 1 else 2).
Proof.
  intros Hc Hrun. exists (exit_code stats). unfold main.
  rewrite Hc, Hrun. simpl. split; [reflexivity |].
  split; [apply exit_code_zero_iff |].
  unfold exit_code.
  destruct (0 <? successful stats); [congruence |].
  destruct (_ && _); [congruence |]. reflexivity.
Qed.

End CliFacts.

Section CoordinatorExamples.
Import Py World Coordinator Cli Examples.

Local Open Scope Z_scope.

Lemma search_and_download_accounts_for_every_id_witness :
  2 = 0 + 1 + 0 + 1 /\ (forall c r, one_more c (tally c r)).
Proof.
  eapply (search_and_download_accounts_for_every_id
            (RT := runtime) (EX := executor)
            "frailty" 100 "text" None false MAX_WORKERS true None
            (world_of disk search_then_503) _ one_skipped_one_error).
  vm_compute. reflexivity.
Defined.

Lemma main_exit_code_witness :
  exists code,
    main (RT := runtime) (EX := executor) download_frailty
      (world_of disk search_then_503)
      = (Return code, after_download_frailty) /\
    (code = 0 <->
       (0 < successful one_skipped_one_error \/
        (0 < skipped one_skipped_one_error /\
         errors one_skipped_one_error = 0))) /\
    (code <> 0 ->
     code = if requested one_skipped_one_error =? 0 then 1 else 2).
Proof.
  apply (main_exit_code (RT := runtime) (EX := executor) download_frailty
           (world_of disk search_then_503) after_download_frailty
           one_skipped_one_error).
  - reflexivity.
  - vm_compute. reflexivity.
Defined.

(** C9, as stated, fails: with one record already present and one
    identifier in error, nothing newly downloaded, the command exits
    with 2. *)
Lemma main_exits_2_with_a_record_present :
  exists stats w',
    search_and_download (RT := runtime) (EX := executor)
      "frailty" 100 "text" None false MAX_WORKERS true None
      (world_of disk search_then_503) = (Return stats, w') /\
    0 < skipped stats /\
    main (RT := runtime) (EX := executor) download_frailty
      (world_of disk search_then_503) = (Return 2, w').
Proof.
  eexists one_skipped_one_error, _. split; [vm_compute; reflexivity |].
  split; [reflexivity | vm_compute; reflexivity].
Qed.

End CoordinatorExamples.

(** ** extract_metadata_from_pmc_xml *)

Section MetadataFacts.
Import Py ElementTree Metadata.
Context `{RT : Runtime}.

(** C3. [extract_metadata_from_pmc_xml] returns a record for every input
    string and never raises; the record is empty when the parser raises,
    whatever the exception, and when the parsed root is not an [article] and
    has no [article] child. *)
Theorem extract_metadata_total (xml_text : string) :
  exists md,
    extract_metadata_from_pmc_xml xml_text = Return md /\
    (forall e, ET_fromstring xml_text = Raise e -> md = ∅) /\
    (forall root, ET_fromstring xml_text = Return root ->
       tag root ≠ "article" -> find root "article" = None -> md = ∅).
Proof.
  unfold extract_metadata_from_pmc_xml.
  destruct (ET_fromstring xml_text) as [root | e].
  - eexists. split; [reflexivity |]. split; [discriminate |].
    intros ? [= <-] Htag Hfind. unfold extract_from_root, locate_article.
    apply String.eqb_neq in Htag. by rewrite Htag, Hfind.
  - eexists. split; [reflexivity |]. split; [reflexivity | discriminate].
Qed.

(** *** Which stage writes which key *)

Lemma store_if_truthy_frame key v (md : metadata) k :
  k ≠ key -> store_if_truthy key v md !! k = md !! k.
Proof.
  intros Hne. unfold store_if_truthy. destruct v as [s |]; [| reflexivity].
  destruct (truthy s); [| reflexivity]. by rewrite lookup_insert_ne.
Qed.

Lemma store_if_some_frame key v (md : metadata) k :
  k ≠ key -> store_if_some key v md !! k = md !! k.
Proof.
  intros Hne. unfold store_if_some. destruct v as [s |]; [| reflexivity].
  by rewrite lookup_insert_ne.
Qed.

Lemma store_if_some_eq key v (md : metadata) :
  store_if_some key v md !! key
  = match v with Some s => Some (MStr s) | None => md !! key end.
Proof.
  unfold store_if_some. destruct v as [s |]; [| reflexivity].
  by rewrite lookup_insert_eq.
Qed.

Lemma store_list_frame key l (md : metadata) k :
  k ≠ key -> store_list key l md !! k = md !! k.
Proof.
  intros Hne. unfold store_list. destruct l; [reflexivity |].
  by rewrite lookup_insert_ne.
Qed.

Lemma store_keywords_frame am (md : metadata) k :
  k ≠ "keywords" -> store_keywords am md !! k = md !! k.
Proof. apply store_list_frame. Qed.

Lemma store_authors_frame am (md : metadata) k :
  k ≠ "authors" -> store_authors am md !! k = md !! k.
Proof. apply store_list_frame. Qed.

Lemma store_abstract_frame am (md : metadata) k :
  k ≠ "abstract" -> store_abstract am md !! k = md !! k.
Proof.
  intros Hne. unfold store_abstract.
  destruct (find am "abstract"); [| reflexivity]. by rewrite lookup_insert_ne.
Qed.

Lemma store_title_frame am (md : metadata) k :
  k ≠ "title" -> store_title am md !! k = md !! k.
Proof.
  intros Hne. unfold store_title.
  destruct (find am "title-group") as [g |]; [| reflexivity].
  destruct (find g "article-title"); [| reflexivity].
  by rewrite lookup_insert_ne.
Qed.

Lemma store_pub_date_frame y m d (md : metadata) k :
  k ≠ "year" -> k ≠ "month" -> k ≠ "day" -> k ≠ "pub_date" ->
  store_pub_date y m d md !! k = md !! k.
Proof.
  intros Hy Hm Hd Hp. unfold store_pub_date.
  destruct y as [ys |]; [rewrite lookup_insert_ne by done |];
    by rewrite !store_if_some_frame.
Qed.

Lemma article_id_step_frame (md : metadata) aid k :
  k ≠ "pmid" -> k ≠ "pmcid" -> k ≠ "doi" ->
  article_id_step md aid !! k = md !! k.
Proof.
  intros H1 H2 H3. unfold article_id_step.
  repeat (destruct (String.eqb _ _); [by rewrite lookup_insert_ne |]).
  reflexivity.
Qed.

Lemma store_article_ids_frame am (md : metadata) k :
  k ≠ "pmid" -> k ≠ "pmcid" -> k ≠ "doi" ->
  store_article_ids am md !! k = md !! k.
Proof.
  intros H1 H2 H3. unfold store_article_ids.
  generalize (findall am "article-id"). intros ids. revert md.
  induction ids as [| aid ids IH]; intros md; simpl; [reflexivity |].
  by rewrite IH, article_id_step_frame.
Qed.

Lemma store_journal_frame jt nlm iso (md : metadata) k :
  k ∉ journal_keys -> store_journal jt nlm iso md !! k = md !! k.
Proof.
  intros Hk. unfold store_journal.
  assert (k ≠ "journal_title" /\ k ≠ "journal_nlm_ta" /\
          k ≠ "journal_iso_abbrev" /\ k ≠ "journal") as (H1 & H2 & H3 & H4).
  { unfold journal_keys in Hk. rewrite !not_elem_of_cons in Hk. tauto. }
  repeat (destruct (is_truthy _));
    by rewrite ?store_if_some_frame, !store_if_truthy_frame.
Qed.

(** *** The record of a document with an [article-meta] *)

Lemma extract_from_root_article_meta root am :
  article_meta_of root = Some am ->
  exists jt nlm iso,
    extract_from_root root
    = extract_article_meta am (store_journal jt nlm iso ∅).
Proof.
  unfold article_meta_of, extract_from_root.
  destruct (locate_article root) as [article |]; [simpl | discriminate].
  destruct (find article "front") as [front |]; [simpl | discriminate].
  intros ->.
  destruct (journal_fields (find front "journal-meta")) as [[jt nlm] iso].
  by exists jt, nlm, iso.
Qed.

Lemma extract_article_meta_stages am (md : metadata) :
  extract_article_meta am md
  = store_keywords am (store_abstract am (store_authors am
      (store_pub_date (resolve_pub_date am).1.1 (resolve_pub_date am).1.2
         (resolve_pub_date am).2
         (store_title am (store_article_ids am md))))).
Proof.
  unfold extract_article_meta.
  by destruct (resolve_pub_date am) as [[y m] d].
Qed.

Lemma journal_has_no_other_key jt nlm iso k :
  k ∉ journal_keys -> store_journal jt nlm iso ∅ !! k = None.
Proof. intros Hk. by rewrite store_journal_frame. Qed.

Lemma not_journal_key k :
  k ≠ "journal_title" -> k ≠ "journal_nlm_ta" -> k ≠ "journal_iso_abbrev" ->
  k ≠ "journal" -> k ∉ journal_keys.
Proof. intros. unfold journal_keys. rewrite !not_elem_of_cons. set_solver. Qed.

(** The flat date fields are the resolved components, and [pub_date] is
    built from them when there is a year. *)
Lemma date_fields root am :
  article_meta_of root = Some am ->
  let y := (resolve_pub_date am).1.1 in
  let m := (resolve_pub_date am).1.2 in
  let d := (resolve_pub_date am).2 in
  let md := extract_from_root root in
  md !! "year" = MStr <$> y /\
  md !! "month" = MStr <$> m /\
  md !! "day" = MStr <$> d /\
  md !! "pub_date"
  = (fun ys => MDict (dict_set_if_some "day" d
                        (dict_set_if_some "month" m {["year" := ys]}))) <$> y.
Proof.
  intros Ham. destruct (extract_from_root_article_meta root am Ham)
    as (jt & nlm & iso & E).
  simpl. rewrite E, extract_article_meta_stages.
  destruct (resolve_pub_date am) as [[y m] d]. simpl.
  rewrite !store_keywords_frame, !store_abstract_frame,
    !store_authors_frame by done.
  unfold store_pub_date.
  assert (forall k, k ∉ journal_keys -> k ≠ "pmid" -> k ≠ "pmcid" ->
            k ≠ "doi" -> k ≠ "title" ->
            store_title am (store_article_ids am (store_journal jt nlm iso ∅))
              !! k = None) as Hnone.
  { intros k ? ? ? ? ?.
    by rewrite store_title_frame, store_article_ids_frame,
      journal_has_no_other_key. }
  destruct y as [ys |]; cbn [fmap option_fmap option_map]; repeat split;
    repeat first
      [ rewrite lookup_insert_eq
      | rewrite lookup_insert_ne by done
      | rewrite store_if_some_eq
      | rewrite store_if_some_frame by done
      | rewrite Hnone by (done || by apply not_journal_key) ];
    by destruct m, d.
Qed.

(** Without an [article-meta] only journal fields are stored. *)
Lemma no_article_meta root k :
  article_meta_of root = None -> k ∉ journal_keys ->
  extract_from_root root !! k = None.
Proof.
  unfold article_meta_of, extract_from_root. intros Hnone Hk.
  destruct (locate_article root) as [article |]; [simpl in * | done].
  destruct (find article "front") as [front |]; [simpl in * | done].
  rewrite Hnone.
  destruct (journal_fields (find front "journal-meta")) as [[jt nlm] iso].
  by apply journal_has_no_other_key.
Qed.

Lemma resolve_pub_date_epub am e :
  find_attr am "pub-date" "pub-type" "epub" = Some e ->
  resolve_pub_date am
  = (child_text e "year", child_text e "month", child_text e "day").
Proof. unfold resolve_pub_date. by intros ->. Qed.

Lemma resolve_pub_date_fallback am :
  find_attr am "pub-date" "pub-type" "epub" = None ->
  resolve_pub_date am
  = (find_attr am "pub-date" "pub-type" "collection"
       ≫= fun c => child_text c "year", None, None).
Proof.
  unfold resolve_pub_date. intros ->.
  by destruct (find_attr am "pub-date" "pub-type" "collection").
Qed.

(** C8, as the code has it. The date comes from the epub [pub-date] entry
    (year, month, day) when the document has one, and otherwise from the
    year of the collection entry; every resolved component is stored as a
    flat field.  The nested [pub_date] is written exactly when a year is
    resolved, and then mirrors the year and whichever of month and day are
    resolved. *)
Theorem pub_date_resolved_and_mirrored (xml_text : string) (root : Element) :
  ET_fromstring xml_text = Return root ->
  exists md,
    extract_metadata_from_pmc_xml xml_text = Return md /\
    (forall am e,
       article_meta_of root = Some am ->
       find_attr am "pub-date" "pub-type" "epub" = Some e ->
       md !! "year" = MStr <$> child_text e "year" /\
       md !! "month" = MStr <$> child_text e "month" /\
       md !! "day" = MStr <$> child_text e "day") /\
    (forall am,
       article_meta_of root = Some am ->
       find_attr am "pub-date" "pub-type" "epub" = None ->
       md !! "year"
       = MStr <$> (find_attr am "pub-date" "pub-type" "collection"
                     ≫= fun c => child_text c "year") /\
       md !! "month" = None /\
       md !! "day" = None) /\
    (md !! "year" = None -> md !! "pub_date" = None) /\
    (forall y,
       md !! "year" = Some (MStr y) ->
       exists d : gmap string string,
         md !! "pub_date" = Some (MDict d) /\
         d !! "year" = Some y /\
         MStr <$> d !! "month" = md !! "month" /\
         MStr <$> d !! "day" = md !! "day").
Proof.
  intros Hparse. unfold extract_metadata_from_pmc_xml. rewrite Hparse.
  eexists. split; [reflexivity |].
  split; [| split; [| split]].
  - intros am e Ham He.
    destruct (date_fields root am Ham) as (Hy & Hm & Hd & _).
    rewrite (resolve_pub_date_epub am e He) in Hy, Hm, Hd. auto.
  - intros am Ham He.
    destruct (date_fields root am Ham) as (Hy & Hm & Hd & _).
    rewrite (resolve_pub_date_fallback am He) in Hy, Hm, Hd. auto.
  - destruct (article_meta_of root) as [am |] eqn:Ham.
    + destruct (date_fields root am Ham) as (Hy & _ & _ & Hp).
      rewrite Hy, Hp. by destruct ((resolve_pub_date am).1.1).
    + intros _. apply no_article_meta; [done | by apply not_journal_key].
  - intros y Hyear.
    destruct (article_meta_of root) as [am |] eqn:Ham.
    + destruct (date_fields root am Ham) as (Hy & Hm & Hd & Hp).
      rewrite Hm, Hd, Hp. rewrite Hy in Hyear.
      destruct (resolve_pub_date am) as [[yo mo] do]. simpl in *.
      destruct yo as [ys |]; [| discriminate]. injection Hyear as ->.
      eexists. split; [reflexivity |].
      by destruct mo, do; simpl; simplify_map_eq.
    + rewrite no_article_meta in Hyear; [done.. | by apply not_journal_key].
Qed.

(** *** Where a stored field comes from *)

Lemma truthy_nonempty s : truthy s = true -> s ≠ "".
Proof. by destruct s. Qed.

Lemma head_filter_Some {A} (f : A -> bool) (l : list A) x :
  head (List.filter f l) = Some x -> x ∈ l /\ f x = true.
Proof.
  intros Hh. assert (In x (List.filter f l)) as Hin.
  { destruct (List.filter f l); [discriminate |].
    injection Hh as ->. by left. }
  apply filter_In in Hin as [Hin Hf]. by rewrite list_elem_of_In.
Qed.

Lemma find_attr_Some am t key value e :
  find_attr am t key value = Some e -> e ∈ children am /\ tag e = t.
Proof.
  unfold find_attr. intros Hh. apply head_filter_Some in Hh as [Hin Hf].
  apply andb_true_iff in Hf as [Ht _]. by apply String.eqb_eq in Ht.
Qed.

Lemma child_text_Some parent t s :
  child_text parent t = Some s ->
  exists el, find parent t = Some el /\ s = strip (or_empty (text el)).
Proof.
  unfold child_text. destruct (find parent t) as [el |]; [| discriminate].
  intros [= <-]. eauto.
Qed.

(** A resolved date component is the text of a child of some [pub-date]
    entry. *)
Lemma resolved_component am :
  let '(y, m, d) := resolve_pub_date am in
  forall k s,
    (k = "year" /\ y = Some s) \/ (k = "month" /\ m = Some s) \/
    (k = "day" /\ d = Some s) ->
    exists entry el,
      entry ∈ children am /\ tag entry = "pub-date" /\
      find entry k = Some el /\ s = strip (or_empty (text el)).
Proof.
  unfold resolve_pub_date.
  destruct (find_attr am "pub-date" "pub-type" "epub") as [e |] eqn:Ee.
  - apply find_attr_Some in Ee as [Hin Ht].
    intros k s [[-> H] | [[-> H] | [-> H]]];
      apply child_text_Some in H as (el & Hf & ->); eauto 10.
  - destruct (find_attr am "pub-date" "pub-type" "collection") as [c |] eqn:Ec.
    + apply find_attr_Some in Ec as [Hin Ht].
      intros k s [[-> H] | [[_ H] | [_ H]]]; try discriminate.
      apply child_text_Some in H as (el & Hf & ->); eauto 10.
    + intros k s [[_ H] | [[_ H] | [_ H]]]; discriminate.
Qed.

Lemma store_list_lookup key l (md : metadata) k v :
  store_list key l md !! k = Some v ->
  (k = key /\ v = MList l /\ l ≠ []) \/ md !! k = Some v.
Proof.
  unfold store_list. destruct l as [| x l]; [by right |].
  intros H. apply lookup_insert_Some in H as [[<- <-] | [_ H]]; auto.
Qed.

Lemma Forall_omap_Some {A B} (f : A -> option B) (P : B -> Prop) l :
  (forall x y, f x = Some y -> P y) -> Forall P (omap f l).
Proof.
  intros Hf. induction l as [| x l IH]; simpl; [constructor |].
  destruct (f x) as [y |] eqn:E; [constructor; eauto | assumption].
Qed.

Lemma author_name_nonempty contrib s : author_name contrib = Some s -> s ≠ "".
Proof.
  unfold author_name. destruct (bool_decide _); [| discriminate].
  destruct (find contrib "name") as [name_el |]; [| discriminate].
  match goal with |- context [truthy ?full] => destruct (truthy full) eqn:E end;
    [| discriminate].
  intros [= <-]. by apply truthy_nonempty.
Qed.

Lemma keyword_text_nonempty kwd s : keyword_text kwd = Some s -> s ≠ "".
Proof.
  unfold keyword_text.
  match goal with |- context [truthy ?t] => destruct (truthy t) eqn:E end;
    [| discriminate].
  intros [= <-]. by apply truthy_nonempty.
Qed.

Lemma article_id_step_lookup (md : metadata) aid k v :
  article_id_step md aid !! k = Some v ->
  (k ∈ ["pmid"; "pmcid"; "doi"] /\ get_or_empty aid "pub-id-type" = k /\
   v = MStr (strip (or_empty (text aid)))) \/
  md !! k = Some v.
Proof.
  unfold article_id_step.
  destruct (String.eqb _ "pmid") eqn:E1;
    [| destruct (String.eqb _ "pmcid") eqn:E2;
       [| destruct (String.eqb _ "doi") eqn:E3]];
    try (by right);
    intros H; apply lookup_insert_Some in H as [[<- <-] | [_ H]]; auto;
    left; (split; [apply list_elem_of_In; simpl; tauto | split; [by apply String.eqb_eq | done]]).
Qed.

Lemma store_article_ids_lookup am (md : metadata) k v :
  store_article_ids am md !! k = Some v ->
  (k ∈ ["pmid"; "pmcid"; "doi"] /\
   exists aid, aid ∈ findall am "article-id" /\
     get_or_empty aid "pub-id-type" = k /\
     v = MStr (strip (or_empty (text aid)))) \/
  md !! k = Some v.
Proof.
  unfold store_article_ids. generalize (findall am "article-id").
  intros ids. revert md. induction ids as [| aid ids IH]; intros md; simpl.
  - by right.
  - intros H. apply IH in H as [(Hk & a & Hin & Ht & Hv) | H].
    + left. split; [done |]. exists a. split; [by right | done].
    + apply article_id_step_lookup in H as [(Hk & Ht & Hv) | H]; [| by right].
      left. split; [done |]. exists aid. split; [by left | done].
Qed.

Lemma store_title_lookup am (md : metadata) k v :
  store_title am md !! k = Some v ->
  (k = "title" /\ exists g el,
     find am "title-group" = Some g /\ find g "article-title" = Some el /\
     v = MStr (strip (join "" (itertext el)))) \/
  md !! k = Some v.
Proof.
  unfold store_title.
  destruct (find am "title-group") as [g |]; [| by right].
  destruct (find g "article-title") as [el |] eqn:E; [| by right].
  intros H. apply lookup_insert_Some in H as [[<- <-] | [_ H]]; eauto 10.
Qed.

Lemma store_abstract_lookup am (md : metadata) k v :
  store_abstract am md !! k = Some v ->
  (k = "abstract" /\ exists el,
     find am "abstract" = Some el /\
     v = MStr (strip (join " " (itertext el)))) \/
  md !! k = Some v.
Proof.
  unfold store_abstract.
  destruct (find am "abstract") as [el |]; [| by right].
  intros H. apply lookup_insert_Some in H as [[<- <-] | [_ H]]; eauto 10.
Qed.

Lemma store_if_some_lookup key o (md : metadata) k v :
  store_if_some key o md !! k = Some v ->
  (k = key /\ exists s, o = Some s /\ v = MStr s) \/ md !! k = Some v.
Proof.
  unfold store_if_some. destruct o as [s |]; [| by right].
  intros H. apply lookup_insert_Some in H as [[<- <-] | [_ H]]; eauto 10.
Qed.

Lemma store_pub_date_lookup y m d (md : metadata) k v :
  store_pub_date y m d md !! k = Some v ->
  (exists s, v = MStr s /\
     ((k = "year" /\ y = Some s) \/ (k = "month" /\ m = Some s) \/
      (k = "day" /\ d = Some s))) \/
  (k = "pub_date" /\ exists (dict : gmap string string) ys,
     y = Some ys /\ v = MDict dict) \/
  md !! k = Some v.
Proof.
  unfold store_pub_date. intros H.
  assert (store_if_some "day" d
            (store_if_some "month" m (store_if_some "year" y md)) !! k
          = Some v -> 
          (exists s, v = MStr s /\
             ((k = "year" /\ y = Some s) \/ (k = "month" /\ m = Some s) \/
              (k = "day" /\ d = Some s))) \/ md !! k = Some v) as Hflat.
  { intros H'.
    apply store_if_some_lookup in H' as [(-> & s & -> & ->) | H']; [eauto 10 |].
    apply store_if_some_lookup in H' as [(-> & s & -> & ->) | H']; [eauto 10 |].
    apply store_if_some_lookup in H' as [(-> & s & -> & ->) | H']; eauto 10. }
  destruct y as [ys |].
  - apply lookup_insert_Some in H as [[<- <-] | [_ H]]; [eauto 10 |].
    apply Hflat in H as [H | H]; auto.
  - apply Hflat in H as [H | H]; auto.
Qed.

Lemma store_if_truthy_lookup key o (md : metadata) k v :
  store_if_truthy key o md !! k = Some v ->
  (k = key /\ exists s, v = MStr s /\ s ≠ "") \/ md !! k = Some v.
Proof.
  unfold store_if_truthy. destruct o as [s |]; [| by right].
  destruct (truthy s) eqn:E; [| by right].
  intros H. apply lookup_insert_Some in H as [[<- <-] | [_ H]]; [| by right].
  left. split; [done |]. exists s. split; [done | by apply truthy_nonempty].
Qed.

Lemma store_journal_lookup jt nlm iso k v :
  store_journal jt nlm iso ∅ !! k = Some v ->
  k ∈ journal_keys /\ exists s, v = MStr s /\ s ≠ "".
Proof.
  unfold store_journal, journal_keys. intros H.
  assert (forall o, is_truthy o = true ->
            store_if_some "journal" o
              (store_if_truthy "journal_iso_abbrev" iso
                 (store_if_truthy "journal_nlm_ta" nlm
                    (store_if_truthy "journal_title" jt ∅))) !! k = Some v ->
            k ∈ journal_keys /\ exists s, v = MStr s /\ s ≠ "") as Halias.
  { intros o Ho H'. unfold journal_keys.
    apply store_if_some_lookup in H' as [(-> & s & -> & ->) | H'].
    { split; [(apply list_elem_of_In; simpl; tauto) |]. exists s. split; [done |].
      by apply truthy_nonempty. }
    repeat (apply store_if_truthy_lookup in H' as [[-> Hs] | H'];
            [split; [(apply list_elem_of_In; simpl; tauto) | done] |]).
    by rewrite lookup_empty in H'. }
  destruct (is_truthy jt) eqn:E1; [by eapply Halias |].
  destruct (is_truthy iso) eqn:E2; [by eapply Halias |].
  destruct (is_truthy nlm) eqn:E3; [by eapply Halias |].
  repeat (apply store_if_truthy_lookup in H as [[-> Hs] | H];
          [split; [(apply list_elem_of_In; simpl; tauto) | done] |]).
  by rewrite lookup_empty in H.
Qed.

Lemma no_article_meta_lookup root k v :
  article_meta_of root = None ->
  extract_from_root root !! k = Some v ->
  k ∈ journal_keys /\ exists s, v = MStr s /\ s ≠ "".
Proof.
  unfold article_meta_of, extract_from_root. intros Hnone.
  destruct (locate_article root) as [article |]; [simpl in * | done].
  destruct (find article "front") as [front |]; [simpl in * | done].
  rewrite Hnone.
  destruct (journal_fields (find front "journal-meta")) as [[jt nlm] iso].
  apply store_journal_lookup.
Qed.

(** The field was written by a stage that reads [am]. *)
Ltac from_article_meta root am :=
  right; exists root, am; repeat (split; [done |]).

(** Membership of a literal key in a literal list of keys. *)
Ltac in_keys := apply list_elem_of_In; simpl; tauto.

End MetadataFacts.

Section MetadataExamples.
Import Py ElementTree Metadata Examples.

(** C7, as stated, fails: an [article-id] element of type pmid without text
    is stored as [pmid] with the empty string. *)
Lemma empty_pmid_is_stored :
  exists md,
    extract_metadata_from_pmc_xml (RT := runtime) empty_pmid_text = Return md /\
    md !! "pmid" = Some (MStr "").
Proof. eexists. split; [reflexivity | vm_compute; reflexivity]. Qed.

Lemma pub_date_resolved_and_mirrored_witness :
  exists md,
    extract_metadata_from_pmc_xml (RT := runtime) article_text = Return md /\
    (forall am e,
       article_meta_of article_doc = Some am ->
       find_attr am "pub-date" "pub-type" "epub" = Some e ->
       md !! "year" = MStr <$> child_text e "year" /\
       md !! "month" = MStr <$> child_text e "month" /\
       md !! "day" = MStr <$> child_text e "day") /\
    (forall am,
       article_meta_of article_doc = Some am ->
       find_attr am "pub-date" "pub-type" "epub" = None ->
       md !! "year"
       = MStr <$> (find_attr am "pub-date" "pub-type" "collection"
                     ≫= fun c => child_text c "year") /\
       md !! "month" = None /\
       md !! "day" = None) /\
    (md !! "year" = None -> md !! "pub_date" = None) /\
    (forall y,
       md !! "year" = Some (MStr y) ->
       exists d : gmap string string,
         md !! "pub_date" = Some (MDict d) /\
         d !! "year" = Some y /\
         MStr <$> d !! "month" = md !! "month" /\
         MStr <$> d !! "day" = md !! "day").
Proof.
  apply (pub_date_resolved_and_mirrored (RT := runtime) article_text article_doc).
  reflexivity.
Defined.

(** C8, as stated, fails: an epub entry that gives a month and no year
    resolves the month, which is stored as a flat field, and no nested
    [pub_date] is written. *)
Lemma month_without_year_is_not_mirrored :
  exists md,
    extract_metadata_from_pmc_xml (RT := runtime) month_only_text = Return md /\
    md !! "month" = Some (MStr "03") /\
    md !! "pub_date" = None.
Proof.
  eexists. split; [reflexivity |]. split; vm_compute; reflexivity.
Qed.

(** The article of the examples: Aging Cell, pmid 12345, March 2020, one
    author. *)
Example article_doc_fields :
  let md := extract_from_root article_doc in
  md !! "journal" = Some (MStr "Aging Cell") /\
  md !! "pmid" = Some (MStr "12345") /\
  md !! "year" = Some (MStr "2020") /\
  md !! "month" = Some (MStr "03") /\
  md !! "day" = None /\
  md !! "pub_date" = Some (MDict {["year" := "2020"; "month" := "03"]}) /\
  md !! "authors" = Some (MList ["Doe Jane"]).
Proof. vm_compute. repeat split. Qed.

End MetadataExamples.

(** ** The model on known behaviours *)

Section ModelChecks.
Import Py ElementTree Metadata World Fetch Coordinator Examples.

Example strip_trims_both_ends : strip "  a b  " = "a b".
Proof. reflexivity. Qed.

Example pmcid_forms :
  pmcid_numeric "PMC123" = "123" /\ pmcid_display "PMC123" = "PMC123" /\
  pmcid_numeric "123" = "123" /\ pmcid_display "123" = "PMC123".
Proof. repeat split. Qed.

Example strip_xml_tags_paragraph :
  strip_xml_tags "<p>A &amp;
   B</p><br/>" = "A &amp; B".
Proof. reflexivity. Qed.

Example keyword_slug_examples :
  keyword_slug " frailty  cytokines " = "frailty_cytokines" /\
  keyword_slug "??" = "keyword".
Proof. split; reflexivity. Qed.

(** A 429 followed by the article: two requests, one sleep of
    [RETRY_DELAY], and the record is on disk afterwards. *)
Example efetch_429_then_success :
  let '(r, w) :=
    efetch_pmc (RT := runtime) "2" "publications/frailty" "text" None 3 true
      (world_of disk rate_limited_once) in
  r = Return (true, "success") /\
  sent w = 2%nat /\
  trace w =
    [EvWait; EvGet (EUTILS_BASE +:+ "/efetch.fcgi") (efetch_params "2" None);
     EvSleep 2000;
     EvWait; EvGet (EUTILS_BASE +:+ "/efetch.fcgi") (efetch_params "2" None);
     EvWrite "publications/frailty" "PMC2.json"] /\
  file_exists "publications/frailty" "PMC2.json" (fs w) = true.
Proof. vm_compute. repeat split. Qed.

(** The same search and fetches through the thread pool. *)
Example concurrent_download_frailty :
  (search_and_download (RT := runtime) (EX := executor)
     "frailty" 100 "text" None true MAX_WORKERS true None
     (world_of disk search_then_503)).1
  = Return one_skipped_one_error.
Proof. vm_compute. reflexivity. Qed.

End ModelChecks.

(** * Further properties of the engine *)

(** ** RateLimiter: exclusion, the disabled limiter, the length of a sleep *)

Section RateLimiterMore.
Import RateLimiter RateLimiterPast.
Local Open Scope Z_scope.

(** X1. At any moment of any run at most one thread is inside the
    [with self._lock] block of [wait]. *)
Theorem wait_mutual_exclusion
    (min_interval : Z) (nthreads : nat) (c0 : Z) (sched : list action)
    (i j : nat) (p q : pc) :
  threads (run sched (init min_interval nthreads c0)) !! i = Some p ->
  threads (run sched (init min_interval nthreads c0)) !! j = Some q ->
  owner p = true -> owner q = true -> i = j.
Proof.
  intros Hi Hj Hp Hq.
  pose proof (inv_run sched _ (inv_init min_interval nthreads c0)) as [Ho _ _ _].
  pose proof (Ho i p Hi Hp) as H1. pose proof (Ho j q Hj Hq) as H2.
  congruence.
Qed.

(** With a non-positive interval and every thread idle, no action changes
    anything but the clock. *)
Lemma disabled_step a s :
  _min_interval s <= 0 -> Forall (fun p => p = Idle) (threads s) ->
  _min_interval (step a s) = _min_interval s /\
  _lock (step a s) = _lock s /\
  grants (step a s) = grants s /\
  _last_request (step a s) = _last_request s /\
  threads (step a s) = threads s.
Proof.
  intros Hmi Hall. destruct a as [d | i]; simpl; [auto |].
  destruct (threads s !! i) as [p |] eqn:E; [| auto].
  assert (p = Idle) as ->.
  { rewrite Forall_lookup in Hall. eauto. }
  simpl. apply Z.leb_le in Hmi. by rewrite Hmi.
Qed.

Lemma disabled_run sched s :
  _min_interval s <= 0 -> Forall (fun p => p = Idle) (threads s) ->
  _lock (run sched s) = _lock s /\
  grants (run sched s) = grants s /\
  _last_request (run sched s) = _last_request s /\
  threads (run sched s) = threads s.
Proof.
  revert s. induction sched as [| a sched IH]; intros s Hmi Hall; simpl.
  - auto.
  - destruct (disabled_step a s Hmi Hall) as (Hmi' & Hl & Hg & Hr & Ht).
    destruct (IH (step a s)) as (Hl' & Hg' & Hr' & Ht').
    { lia. }
    { by rewrite Ht. }
    repeat split; congruence.
Qed.

(** X2. A limiter built with a zero or negative interval is disabled:
    whatever the threads do, [wait] never takes the lock, never sleeps and
    never stamps; every call returns at its first statement. *)
Theorem wait_disabled_when_interval_not_positive
    (min_interval : Z) (nthreads : nat) (c0 : Z) (sched : list action) :
  min_interval <= 0 ->
  _lock (run sched (init min_interval nthreads c0)) = None /\
  grants (run sched (init min_interval nthreads c0)) = [] /\
  _last_request (run sched (init min_interval nthreads c0)) = 0 /\
  threads (run sched (init min_interval nthreads c0)) = replicate nthreads Idle.
Proof.
  intros Hmi.
  apply (disabled_run sched (init min_interval nthreads c0)); simpl.
  - lia.
  - apply Forall_forall. intros p Hp.
    by apply elem_of_replicate in Hp as [-> _].
Qed.

Lemma past_set_pc i p' s :
  past s ->
  match p' with
  | Computed now => _last_request s <= now
  | Sleeping until => until <= clock s + _min_interval s
  | _ => True
  end ->
  past (set_pc i p' s).
Proof.
  intros [Hc Hp] Hnew. split; [exact Hc |].
  intros j q H. apply lookup_set_pc in H as [[-> ->] | [Hne H]].
  - exact Hnew.
  - exact (Hp j q H).
Qed.

Lemma past_step a s : inv s -> past s -> past (step a s).
Proof.
  intros HI HP. pose proof HP as [Hc Hp].
  destruct a as [d | i]; simpl.
  - split; simpl; [lia |]. intros j q H. specialize (Hp j q H).
    destruct q; simpl in *; auto; lia.
  - destruct (threads s !! i) as [p |] eqn:Hi; [| assumption].
    pose proof (Hp i p Hi) as Hpi.
    destruct p; simpl in *.
    + destruct (_min_interval s <=? 0); [assumption |].
      by apply past_set_pc.
    + destruct (_lock s); [assumption |].
      apply past_set_pc; [| exact I]. split; [exact Hc | exact Hp].
    + by apply past_set_pc.
    + destruct (0 <? _) eqn:E; apply past_set_pc; auto. lia.
    + destruct (until <=? clock s); [| assumption]. by apply past_set_pc.
    + split; simpl; [lia |].
      intros j q H. apply lookup_set_pc in H as [[-> ->] | [Hne H]]; [exact I |].
      pose proof (other_thread_free s i Stamping j q HI Hi eq_refl Hne H) as Hf.
      destruct q; simpl in *; try discriminate; exact I.
    + apply past_set_pc; [| exact I]. split; [exact Hc | exact Hp].
Qed.

Lemma past_run sched s : inv s -> past s -> past (run sched s).
Proof.
  revert s. induction sched as [| a sched IH]; intros s HI HP; simpl; auto.
  apply IH; [by apply inv_step | by apply past_step].
Qed.

(** X3. When the clock is not negative at construction, a thread that
    sleeps inside [wait] is never due to wake more than the interval ahead
    of the clock: the sleep [wait] asks for is at most [min_interval]
    long. *)
Theorem wait_sleeps_at_most_min_interval
    (min_interval : Z) (nthreads : nat) (c0 : Z) (sched : list action)
    (i : nat) (until : Z) :
  0 <= c0 ->
  threads (run sched (init min_interval nthreads c0)) !! i
    = Some (Sleeping until) ->
  until <= clock (run sched (init min_interval nthreads c0))
           + Z.max 0 min_interval.
Proof.
  intros Hc0 Hi.
  assert (past (init min_interval nthreads c0)) as HP0.
  { split; simpl; [lia |]. intros j p H.
    by apply lookup_replicate in H as [-> _]. }
  pose proof (past_run sched _ (inv_init min_interval nthreads c0) HP0)
    as [_ Hp].
  specialize (Hp i _ Hi). simpl in Hp.
  by rewrite min_interval_run in Hp.
Qed.

End RateLimiterMore.

Section RateLimiterMoreExamples.
Import RateLimiter.
Local Open Scope Z_scope.

(** After five actions thread 0 is in the block and thread 1 queues. *)
Lemma wait_mutual_exclusion_witness : 0%nat = 0%nat.
Proof.
  apply (wait_mutual_exclusion 3 2 10 (take 5 Examples.two_threads) 0 0
           (Computed 10) (Computed 10)); reflexivity.
Defined.

Lemma wait_disabled_when_interval_not_positive_witness :
  _lock (run Examples.two_threads (init 0 2 10)) = None /\
  grants (run Examples.two_threads (init 0 2 10)) = [] /\
  _last_request (run Examples.two_threads (init 0 2 10)) = 0 /\
  threads (run Examples.two_threads (init 0 2 10)) = replicate 2 Idle.
Proof.
  apply (wait_disabled_when_interval_not_positive 0 2 10 Examples.two_threads).
  lia.
Defined.

(** After eleven actions thread 1 sleeps until 13, the clock reading 10. *)
Lemma wait_sleeps_at_most_min_interval_witness :
  13 <= clock (run (take 11 Examples.two_threads) (init 3 2 10)) + Z.max 0 3.
Proof.
  apply (wait_sleeps_at_most_min_interval 3 2 10
           (take 11 Examples.two_threads) 1 13).
  - lia.
  - reflexivity.
Defined.

End RateLimiterMoreExamples.

(** ** efetch_pmc: requests, files and records *)

Section TraceFacts.
Import World Trace.

Lemma requests_app l1 l2 : requests (l1 ++ l2) = (requests l1 + requests l2)%nat.
Proof. unfold requests. by rewrite List.filter_app, length_app. Qed.

Lemma paced_weaken l : paced false l = true -> paced true l = true.
Proof. by destruct l as [| [] l]. Qed.

Lemma paced_app b l1 l2 :
  paced b l1 = true -> paced false l2 = true -> paced b (l1 ++ l2) = true.
Proof.
  revert b. induction l1 as [| e l1 IH]; intros b H1 H2; simpl in *.
  - destruct b; [by apply paced_weaken | assumption].
  - destruct e; simpl in *; auto.
    apply andb_true_iff in H1 as [-> H1]. simpl. auto.
Qed.

Lemma acts_refl w : acts w [] w.
Proof. unfold acts, requests. rewrite app_nil_r. simpl. repeat split. lia. Qed.

Lemma acts_trans w1 l1 w2 l2 w3 :
  acts w1 l1 w2 -> acts w2 l2 w3 -> acts w1 (l1 ++ l2) w3.
Proof.
  intros (Ht1 & Hs1 & Hr1 & He1 & Hn1) (Ht2 & Hs2 & Hr2 & He2 & Hn2).
  unfold acts. rewrite Ht2, Ht1, Hs2, Hs1, Hr2, Hr1, He2, He1, Hn2, Hn1.
  rewrite requests_app, app_assoc. repeat split. lia.
Qed.

End TraceFacts.

Section FetchMore.
Import Py ElementTree Metadata World Fetch Trace.
Context `{RT : Runtime}.
Variables (pmcid out_dir fmt : string) (api_key : option string)
          (retries : Z) (include_text : bool).

(** The record [efetch_pmc] writes for the body [body], in world [w]. *)
Let record_of (body : string) (md : metadata) (w : world) : content :=
  Record_ (build_payload (pmcid_display pmcid) (normalize_fmt fmt)
             include_text body md w).

Ltac solve_acts :=
  unfold acts; simpl; rewrite <- ?app_assoc; simpl;
  split; [reflexivity || (symmetry; apply app_nil_r) |];
  unfold requests; simpl; repeat split; lia.

Lemma on_exception_acts attempt e w o w' :
  on_exception retries attempt e w = (o, w') ->
  exists new, acts w new w' /\ paced false new = true /\ requests new = 0%nat /\
    o ≠ Finish (Return (true, "success")) /\ fs w' = fs w.
Proof.
  unfold on_exception.
  destruct (is_RequestException e); [destruct (more_attempts retries attempt) |
    destruct (is_OSError e)];
    intros [= <- <-]; eexists; (split; [solve_acts |]); by repeat split.
Qed.

Lemma retry_or_error_acts attempt w o w' :
  retry_or_error retries attempt w = (o, w') ->
  exists new, acts w new w' /\ paced false new = true /\ requests new = 0%nat /\
    o ≠ Finish (Return (true, "success")) /\ fs w' = fs w.
Proof.
  unfold retry_or_error. destruct (more_attempts retries attempt);
    intros [= <- <-]; eexists; (split; [solve_acts |]); by repeat split.
Qed.

(** What a call reports once it has tried to write the record. *)
Let outcome (res : result unit) : bool * string :=
  match res with
  | Return _ => (true, "success")
  | Raise _ => (false, "error")
  end.

Lemma write_text_raises d n c f e f' :
  write_text d n c f = (Raise e, f') -> e = OSError.
Proof. unfold write_text. repeat case_match; congruence. Qed.

Lemma save_article_acts attempt body w o w' :
  save_article pmcid out_dir fmt retries include_text attempt body w = (o, w') ->
  exists new, acts w new w' /\ paced false new = true /\ requests new = 0%nat /\
    exists md res,
      extract_metadata_from_pmc_xml body = Return md /\
      write_text out_dir (pmcid_display pmcid +:+ ".json")
        (record_of body md w) (fs w) = (res, fs w') /\
      o = Finish (Return (outcome res)).
Proof.
  unfold save_article, record_of.
  destruct (extract_metadata_from_pmc_xml body) as [md | e] eqn:Emd.
  2: { exfalso. unfold extract_metadata_from_pmc_xml in Emd.
       by destruct (ET_fromstring body). }
  destruct (write_text _ _ _ _) as [[u | e] f] eqn:Ew.
  - intros [= <- <-]. eexists. split; [solve_acts |].
    repeat (split; [done |]). by exists md, (Return u).
  - pose proof (write_text_raises _ _ _ _ _ _ Ew) as ->.
    unfold on_exception. simpl. intros [= <- <-].
    exists []. split; [solve_acts |].
    repeat (split; [done |]). by exists md, (Raise OSError).
Qed.

(** One attempt: a wait, a request, then at most a sleep or a write; the
    files change only when the attempt reaches the write of the record. *)
Lemma efetch_attempt_acts attempt w o w' :
  efetch_attempt pmcid out_dir fmt api_key retries include_text attempt w
    = (o, w') ->
  exists new, acts w new w' /\ paced false new = true /\ requests new = 1%nat /\
    ((o ≠ Finish (Return (true, "success")) /\ fs w' = fs w) \/
     (exists body md res,
        replies w (sent w) = Response 200 body /\
        extract_metadata_from_pmc_xml body = Return md /\
        write_text out_dir (pmcid_display pmcid +:+ ".json")
          (record_of body md w) (fs w) = (res, fs w') /\
        o = Finish (Return (outcome res)))).
Proof.
  unfold efetch_attempt.
  set (url := EUTILS_BASE +:+ "/efetch.fcgi").
  set (params := efetch_params pmcid api_key).
  assert (acts w [EvWait; EvGet url params]
            (session_get url params (wait w)).2) as Hget.
  { unfold session_get, wait, log. simpl.
    destruct (replies w (sent w)); solve_acts. }
  assert (fs (session_get url params (wait w)).2 = fs w) as Hfs.
  { unfold session_get. simpl. by destruct (replies w (sent w)). }
  assert (now_iso (session_get url params (wait w)).2 = now_iso w) as Hnow.
  { unfold session_get. simpl. by destruct (replies w (sent w)). }
  assert (forall new,
            acts (session_get url params (wait w)).2 new w' ->
            paced false new = true -> requests new = 0%nat ->
            exists new', acts w new' w' /\ paced false new' = true /\
              requests new' = 1%nat) as Hglue.
  { intros new Ha Hp Hr. exists ([EvWait; EvGet url params] ++ new).
    split; [eapply acts_trans; eauto |]. split; [done |].
    rewrite requests_app, Hr. reflexivity. }
  destruct (session_get url params (wait w)) as [[[code body] | e] w1] eqn:Eg;
    simpl in *.
  - assert (replies w (sent w) = Response code body) as Hreply.
    { unfold session_get in Eg. simpl in Eg.
      destruct (replies w (sent w)); congruence. }
    destruct (negb (code =? 200)%Z) eqn:Ecode.
    { intros H. apply retry_or_error_acts in H
        as (new & Ha & Hp & Hr & Ho & Hf).
      destruct (Hglue new Ha Hp Hr) as (new' & ? & ? & ?).
      exists new'. repeat (split; [done |]). left. split; congruence. }
    apply negb_false_iff, Z.eqb_eq in Ecode. subst code.
    destruct (ET_fromstring body) as [root | e].
    + destruct (_ && _).
      * intros [= <- <-]. exists [EvWait; EvGet url params].
        repeat (split; [done |]). by left.
      * intros H. apply save_article_acts in H
          as (new & Ha & Hp & Hr & md & res & Hmd & Hw & Ho).
        destruct (Hglue new Ha Hp Hr) as (new' & ? & ? & ?).
        exists new'. repeat (split; [done |]).
        right. exists body, md, res.
        repeat (split; [done |]). split; [| done].
        rewrite Hfs in Hw. unfold record_of, build_payload in *.
        by rewrite Hnow in Hw.
    + destruct (is_ParseError e).
      * intros H. apply retry_or_error_acts in H
          as (new & Ha & Hp & Hr & Ho & Hf).
        destruct (Hglue new Ha Hp Hr) as (new' & ? & ? & ?).
        exists new'. repeat (split; [done |]). left. split; congruence.
      * intros H. apply on_exception_acts in H
          as (new & Ha & Hp & Hr & Ho & Hf).
        destruct (Hglue new Ha Hp Hr) as (new' & ? & ? & ?).
        exists new'. repeat (split; [done |]). left. split; congruence.
  - intros H. apply on_exception_acts in H
      as (new & Ha & Hp & Hr & Ho & Hf).
    destruct (Hglue new Ha Hp Hr) as (new' & ? & ? & ?).
    exists new'. repeat (split; [done |]). left. split; congruence.
Qed.

Lemma record_of_now body md w1 w2 :
  now_iso w1 = now_iso w2 -> record_of body md w1 = record_of body md w2.
Proof. unfold record_of, build_payload. by intros ->. Qed.

Lemma efetch_loop_acts attempts w r w' :
  efetch_loop pmcid out_dir fmt api_key retries include_text attempts w
    = (r, w') ->
  exists new, acts w new w' /\ paced false new = true /\
    (requests new <= length attempts)%nat /\
    ((r ≠ Return (true, "success") /\ fs w' = fs w) \/
     (exists body md res,
        (sent w < sent w')%nat /\
        replies w (sent w' - 1) = Response 200 body /\
        extract_metadata_from_pmc_xml body = Return md /\
        write_text out_dir (pmcid_display pmcid +:+ ".json")
          (record_of body md w) (fs w) = (res, fs w') /\
        r = Return (outcome res))).
Proof.
  revert w. induction attempts as [| attempt rest IH]; intros w; simpl.
  - intros [= <- <-]. exists []. split; [apply acts_refl |].
    split; [reflexivity |]. split; [unfold requests; simpl; lia |]. by left.
  - destruct (efetch_attempt _ _ _ _ _ _ _ _) as [[| res] w1] eqn:E.
    + intros Hloop.
      apply efetch_attempt_acts in E
        as (new1 & Ha1 & Hp1 & Hr1 & [[_ Hf1] | (? & ? & ? & _ & _ & _ & ?)]);
        [| done].
      apply IH in Hloop as (new2 & Ha2 & Hp2 & Hr2 & Hcase).
      exists (new1 ++ new2).
      split; [by eapply acts_trans |].
      split; [by apply paced_app |].
      split; [rewrite requests_app; lia |].
      destruct Ha1 as (_ & Hs1 & Hrep1 & _ & Hn1).
      destruct Hcase
        as [[Hr Hf] | (body & md & res & Hlt & Hb & Hmd & Hw & Hr)].
      * left. split; [done | congruence].
      * right. exists body, md, res.
        split; [lia |]. split; [congruence |]. split; [done |].
        split; [| done].
        rewrite Hf1 in Hw. by rewrite (record_of_now body md w w1).
    + intros [= <- <-].
      apply efetch_attempt_acts in E as (new1 & Ha1 & Hp1 & Hr1 & Hcase).
      exists new1. repeat (split; [done || lia |]).
      destruct Ha1 as (_ & Hs1 & _).
      destruct Hcase as [[Ho Hf] | (body & md & res0 & Hb & Hmd & Hw & Ho)].
      * left. split; [congruence | done].
      * right. exists body, md, res0.
        rewrite Hs1, Hr1. split; [lia |].
        replace (sent w + 1 - 1)%nat with (sent w) by lia.
        repeat (split; [done |]). congruence.
Qed.

Lemma range_length n : length (range n) = Z.to_nat n.
Proof. unfold range. apply length_seq. Qed.

(** *** The file system under [mkdir] and [write_text] *)

Lemma read_file_mkdir path f f' d n :
  mkdir path f = Return f' -> read_file d n f' = read_file d n f.
Proof.
  unfold mkdir, read_file.
  destruct (dirs f !! path) as [files |] eqn:E; [by intros [= <-] |].
  destruct (bool_decide _); [discriminate |]. intros [= <-]. simpl.
  destruct (decide (d = path)) as [-> | Hne].
  - by rewrite lookup_insert_eq, E.
  - by rewrite lookup_insert_ne.
Qed.

Lemma write_cut_mkdir path f f' :
  mkdir path f = Return f' -> write_cut f' = write_cut f.
Proof.
  unfold mkdir. destruct (dirs f !! path); [by intros [= <-] |].
  destruct (bool_decide _); [discriminate |]. by intros [= <-].
Qed.

Lemma read_file_put d n c files f : read_file d n (put d n c files f) = Some c.
Proof.
  unfold read_file, put. simpl. rewrite lookup_insert_eq. simpl.
  by rewrite lookup_insert_eq.
Qed.

(** A write that goes through leaves the content in the file. *)
Lemma read_file_write d n c f u f' :
  write_text d n c f = (Return u, f') -> read_file d n f' = Some c.
Proof.
  unfold write_text. destruct (bool_decide _); [discriminate |].
  destruct (dirs f !! d) as [files |]; [| discriminate].
  destruct (write_cut f !! (d, n)); [discriminate |].
  intros [= _ <-]. apply read_file_put.
Qed.

(** A write that fails leaves the file as it was, unless it was cut after
    the open: then the file holds what was written. *)
Lemma read_file_write_failed d n c f e f' :
  write_text d n c f = (Raise e, f') ->
  match write_cut f !! (d, n) with
  | Some written => f' = f \/ read_file d n f' = Some (Bytes written)
  | None => f' = f
  end.
Proof.
  unfold write_text. destruct (bool_decide _).
  { intros [= _ <-]. destruct (write_cut f !! (d, n)); auto. }
  destruct (dirs f !! d) as [files |].
  2: { intros [= _ <-]. destruct (write_cut f !! (d, n)); auto. }
  destruct (write_cut f !! (d, n)); [| discriminate].
  intros [= _ <-]. right. apply read_file_put.
Qed.

(** However it ends, a write touches no other file. *)
Lemma read_file_write_other d n c f res f' d' n' :
  write_text d n c f = (res, f') -> (d', n') ≠ (d, n) ->
  read_file d' n' f' = read_file d' n' f.
Proof.
  unfold write_text. destruct (bool_decide _); [by intros [= _ <-] |].
  destruct (dirs f !! d) as [files |] eqn:E; [| by intros [= _ <-]].
  assert (forall c0, read_file d' n' (put d n c0 files f) = read_file d' n' f
                     \/ (d', n') = (d, n)) as Hput.
  { intros c0. unfold read_file, put. simpl.
    destruct (decide (d' = d)) as [-> | Hd].
    - rewrite lookup_insert_eq, E. simpl.
      destruct (decide (n' = n)) as [-> | Hn]; [by right |].
      left. by rewrite lookup_insert_ne.
    - left. by rewrite lookup_insert_ne. }
  destruct (write_cut f !! (d, n)) as [written |]; intros [= _ <-] Hne.
  - by destruct (Hput (Bytes written)).
  - by destruct (Hput c).
Qed.

Lemma file_exists_read d n f :
  file_exists d n f = true <-> is_Some (read_file d n f).
Proof.
  unfold file_exists, read_file. destruct (dirs f !! d) as [files |]; simpl.
  - by rewrite bool_decide_eq_true.
  - split; [discriminate | by intros [? ?]].
Qed.

(** [efetch_pmc] as a whole. *)
Lemma efetch_pmc_acts w r w' :
  efetch_pmc pmcid out_dir fmt api_key retries include_text w = (r, w') ->
  exists new, acts w new w' /\ paced false new = true /\
    (requests new <= Z.to_nat retries)%nat /\
    ((r ≠ Return (true, "success") /\
      forall d n, read_file d n (fs w') = read_file d n (fs w)) \/
     (exists body md f res,
        mkdir out_dir (fs w) = Return f /\
        file_exists out_dir (pmcid_display pmcid +:+ ".json") f = false /\
        (sent w < sent w')%nat /\
        replies w (sent w' - 1) = Response 200 body /\
        extract_metadata_from_pmc_xml body = Return md /\
        write_text out_dir (pmcid_display pmcid +:+ ".json")
          (record_of body md w) f = (res, fs w') /\
        r = Return (outcome res))).
Proof.
  unfold efetch_pmc.
  destruct (mkdir out_dir (fs w)) as [f | e] eqn:Em.
  2: { intros [= <- <-]. exists []. split; [apply acts_refl |].
       split; [reflexivity |]. split; [unfold requests; simpl; lia |]. by left. }
  destruct (file_exists _ _ _) eqn:Ex.
  { intros [= <- <-]. exists []. split; [unfold acts, requests; simpl |].
    { rewrite app_nil_r. repeat split. lia. }
    split; [reflexivity |]. split; [unfold requests; simpl; lia |].
    left. split; [done |].
    intros d n. simpl. by eapply read_file_mkdir. }
  intros Hloop. apply efetch_loop_acts in Hloop
    as (new & Ha & Hp & Hr & Hcase).
  rewrite range_length in Hr. exists new.
  split; [exact Ha |]. repeat (split; [done |]).
  destruct Hcase as [[Hne Hf] | (body & md & res & Hlt & Hb & Hmd & Hw & Hres)].
  - left. split; [done |]. intros d n. rewrite Hf. simpl.
    by eapply read_file_mkdir.
  - right. exists body, md, f, res. simpl in *. done.
Qed.

(** X4. However it ends, a call of [efetch_pmc] sends at most [retries]
    requests, and each of them directly after a [rate_limiter.wait()]. *)
Theorem efetch_pmc_requests_paced_and_bounded
    (w w' : world) (r : result (bool * string)) :
  efetch_pmc pmcid out_dir fmt api_key retries include_text w = (r, w') ->
  exists new,
    trace w' = trace w ++ new /\
    sent w' = (sent w + requests new)%nat /\
    paced false new = true /\
    (requests new <= Z.to_nat retries)%nat.
Proof.
  intros H. apply efetch_pmc_acts in H as (new & Ha & Hp & Hr & _).
  destruct Ha as (Ht & Hs & _). by exists new.
Qed.

(** X5. When [efetch_pmc] returns "success", the record file of the
    identifier holds the record built from the last answer (status 200): the
    display identifier, the source tag, the time stamp, the metadata
    extracted from the body, and the body or its plain text as the format
    asks; every other file is as before. *)
Theorem efetch_pmc_success_writes_the_record (w w' : world) :
  efetch_pmc pmcid out_dir fmt api_key retries include_text w
    = (Return (true, "success"), w') ->
  exists body md,
    (sent w < sent w')%nat /\
    replies w (sent w' - 1) = Response 200 body /\
    extract_metadata_from_pmc_xml body = Return md /\
    read_file out_dir (pmcid_display pmcid +:+ ".json") (fs w')
    = Some (Record_
              {| payload_pmcid := pmcid_display pmcid;
                 payload_source := "PMC";
                 payload_download_date := now_iso w;
                 payload_metadata := md;
                 payload_xml :=
                   if bool_decide (fmt = "xml" \/ fmt = "both")
                   then Some body else None;
                 payload_text :=
                   if bool_decide (fmt ∈ ["text"; "json"; "txt"; "both"])
                      && include_text
                   then Some (strip_xml_tags body) else None |}) /\
    (forall d n, (d, n) ≠ (out_dir, pmcid_display pmcid +:+ ".json") ->
       read_file d n (fs w') = read_file d n (fs w)).
Proof.
  intros H. apply efetch_pmc_acts in H
    as (new & Ha & Hp & Hr &
        [[? _] | (body & md & f & res & Hm & _ & Hlt & Hb & Hmd & Hw & Hres)]);
    [done |].
  destruct res as [u | e]; [| discriminate].
  exists body, md. repeat (split; [done |]). split.
  - rewrite (read_file_write _ _ _ _ _ _ Hw). unfold record_of, build_payload.
    do 2 f_equal. f_equal.
    + unfold normalize_fmt.
      destruct (String.eqb fmt "json") eqn:E1;
        [apply String.eqb_eq in E1 as -> ; reflexivity |].
      destruct (String.eqb fmt "txt") eqn:E2;
        [apply String.eqb_eq in E2 as -> ; reflexivity |].
      simpl. apply String.eqb_neq in E1, E2.
      destruct (String.eqb fmt "xml") eqn:E3;
        [apply String.eqb_eq in E3 as ->; reflexivity |].
      destruct (String.eqb fmt "both") eqn:E4;
        [apply String.eqb_eq in E4 as ->; reflexivity |].
      apply String.eqb_neq in E3, E4. simpl.
      by rewrite bool_decide_eq_false_2 by (intros [|]; done).
    + unfold normalize_fmt.
      destruct (String.eqb fmt "json") eqn:E1;
        [apply String.eqb_eq in E1 as -> ; reflexivity |].
      destruct (String.eqb fmt "txt") eqn:E2;
        [apply String.eqb_eq in E2 as -> ; reflexivity |].
      simpl. apply String.eqb_neq in E1, E2.
      destruct (String.eqb fmt "text") eqn:E3;
        [apply String.eqb_eq in E3 as ->; reflexivity |].
      destruct (String.eqb fmt "both") eqn:E4;
        [apply String.eqb_eq in E4 as ->; reflexivity |].
      apply String.eqb_neq in E3, E4. simpl.
      rewrite bool_decide_eq_false_2; [done |].
      rewrite !elem_of_cons, elem_of_nil. tauto.
  - intros d n Hne.
    rewrite (read_file_write_other _ _ _ _ _ _ d n Hw Hne).
    by eapply read_file_mkdir.
Qed.

(** X6. Unless [efetch_pmc] returns "success" it leaves every file other
    than the record of the identifier as it was, whether it returns another
    status or raises.  The record itself is as it was too, except when its
    write was cut after the file was opened: then the call returns "error"
    and the file, which was not there before, holds what was written. *)
Theorem efetch_pmc_failure_leaves_the_files
    (w w' : world) (r : result (bool * string)) :
  efetch_pmc pmcid out_dir fmt api_key retries include_text w = (r, w') ->
  r ≠ Return (true, "success") ->
  (forall d n,
     (d, n) ≠ (out_dir, pmcid_display pmcid +:+ ".json") ->
     read_file d n (fs w') = read_file d n (fs w)) /\
  ((forall d n, read_file d n (fs w') = read_file d n (fs w)) \/
   (exists written,
      r = Return (false, "error") /\
      write_cut (fs w) !! (out_dir, pmcid_display pmcid +:+ ".json")
      = Some written /\
      read_file out_dir (pmcid_display pmcid +:+ ".json") (fs w) = None /\
      read_file out_dir (pmcid_display pmcid +:+ ".json") (fs w')
      = Some (Bytes written))).
Proof.
  intros H Hne. apply efetch_pmc_acts in H
    as (new & _ & _ & _ &
        [[_ Hf] | (body & md & f & res & Hm & Hex & _ & _ & _ & Hw & Hres)]).
  { split; [intros d n _; apply Hf | by left]. }
  destruct res as [u | e]; [done |].
  split.
  - intros d n Hdn. rewrite (read_file_write_other _ _ _ _ _ _ d n Hw Hdn).
    by eapply read_file_mkdir.
  - pose proof (read_file_write_failed _ _ _ _ _ _ Hw) as Hcut.
    rewrite (write_cut_mkdir _ _ _ Hm) in Hcut.
    destruct (write_cut (fs w) !! _) as [written |] eqn:Ec.
    + destruct Hcut as [-> | Hread].
      * left. intros d n. by eapply read_file_mkdir.
      * right. exists written. repeat (split; [done |]). split; [| done].
        rewrite <- (read_file_mkdir _ _ _ out_dir _ Hm).
        destruct (read_file _ _ f) as [c |] eqn:Er; [| done].
        assert (file_exists out_dir (pmcid_display pmcid +:+ ".json") f = true)
          as Hyes by (apply file_exists_read; rewrite Er; eauto).
        congruence.
    + left. intros d n. rewrite Hcut. by eapply read_file_mkdir.
Qed.

End FetchMore.

Section FetchRerun.
Import Py ElementTree Metadata World Fetch Trace.
Context `{RT : Runtime}.

(** The existence check, for any arguments. *)
Lemma efetch_pmc_present pmcid out_dir fmt api_key retries include_text w :
  is_Some (read_file out_dir (pmcid_display pmcid +:+ ".json") (fs w)) ->
  efetch_pmc pmcid out_dir fmt api_key retries include_text w
  = (Return (true, "exists"), w).
Proof.
  unfold read_file, efetch_pmc, mkdir, file_exists. intros [c Hc].
  destruct (dirs (fs w) !! out_dir) as [files |] eqn:Ed; [| discriminate].
  simpl in Hc. rewrite set_fs_same, Ed.
  rewrite bool_decide_eq_true_2 by (rewrite Hc; eauto).
  reflexivity.
Qed.

(** X7. Fetching is idempotent: once [efetch_pmc] has returned "success"
    for an identifier, fetching it again into the same directory, in any
    format and with any retry count, returns [(True, "exists")] and changes
    nothing, no request being sent. *)
Theorem efetch_pmc_again_after_success
    (pmcid out_dir fmt : string) (api_key : option string) (retries : Z)
    (include_text : bool) (w w' : world)
    (fmt2 : string) (api_key2 : option string) (retries2 : Z)
    (include_text2 : bool) :
  efetch_pmc pmcid out_dir fmt api_key retries include_text w
    = (Return (true, "success"), w') ->
  efetch_pmc pmcid out_dir fmt2 api_key2 retries2 include_text2 w'
    = (Return (true, "exists"), w').
Proof.
  intros H. apply efetch_pmc_present.
  apply efetch_pmc_acts in H
    as (new & _ & _ & _ &
        [[? _] | (body & md & f & res & _ & _ & _ & _ & _ & Hw & Hres)]);
    [done |].
  destruct res as [u | e]; [| discriminate].
  rewrite (read_file_write _ _ _ _ _ _ Hw). eauto.
Qed.



End FetchRerun.

Section FetchFailureFacts.
Import Py ElementTree Metadata World Fetch Trace FetchFailures.
Context `{RT : Runtime}.
Variables (pmcid out_dir fmt : string) (api_key : option string)
          (retries : Z) (include_text : bool).

(** The world after the wait and the request of an attempt. *)
Let requested (w : world) : world :=
  {| fs := fs w; replies := replies w; sent := S (sent w);
     environ := environ w; now_iso := now_iso w;
     trace := trace w ++
       [EvWait; EvGet (EUTILS_BASE +:+ "/efetch.fcgi")
                      (efetch_params pmcid api_key)] |}.

(** The attempt fails on the answer [r] and is retried after [delay]. *)
Let retried (delay : nat -> Z) (r : reply) : Prop :=
  forall attempt w, replies w (sent w) = r ->
    efetch_attempt pmcid out_dir fmt api_key retries include_text attempt w
    = if more_attempts retries attempt
      then (Continue, sleep (delay attempt) (requested w))
      else (Finish (Return (false, "error")), requested w).

Lemma refused_retried r : refused r -> retried (fun _ => RETRY_DELAY) r.
Proof.
  intros Hr attempt w Hw. unfold efetch_attempt, session_get, wait, log.
  simpl. rewrite Hw. destruct r as [e | code body]; [done |]. simpl in Hr.
  rewrite <- app_assoc. simpl. fold (requested w).
  destruct (negb (code =? 200)%Z) eqn:E; [reflexivity |].
  apply negb_false_iff, Z.eqb_eq in E.
  destruct Hr as [Hr | Hr]; [done |]. rewrite Hr. reflexivity.
Qed.

Lemma transport_error_retried :
  retried (fun attempt => RETRY_DELAY * (Z.of_nat attempt + 1))%Z
    (Fails RequestException).
Proof.
  intros attempt w Hw. unfold efetch_attempt, session_get, wait, log.
  simpl. rewrite Hw. rewrite <- app_assoc. simpl. fold (requested w).
  reflexivity.
Qed.

Lemma efetch_loop_all_retried delay (m a : nat) (w : world) :
  (a + m)%nat = Z.to_nat retries ->
  (forall i, (i < m)%nat -> retried delay (replies w (sent w + i))) ->
  exists w',
    efetch_loop pmcid out_dir fmt api_key retries include_text (seq a m) w
      = (Return (false, "error"), w') /\
    sent w' = (sent w + m)%nat /\
    fs w' = fs w /\
    replies w' = replies w /\
    trace w' = trace w ++
      flat_map
        (fun attempt =>
           [EvWait; EvGet (EUTILS_BASE +:+ "/efetch.fcgi")
                          (efetch_params pmcid api_key)] ++
           if (Z.of_nat attempt <? retries - 1)%Z
           then [EvSleep (delay attempt)]
           else [])
        (seq a m).
Proof.
  revert a w. induction m as [| m IH]; intros a w Hlen Hf; simpl.
  - exists w. rewrite Nat.add_0_r, app_nil_r. auto.
  - rewrite (Hf 0%nat ltac:(lia) a w) by (by rewrite Nat.add_0_r).
    unfold more_attempts.
    destruct (Z.of_nat a <? retries - 1)%Z eqn:E.
    + edestruct (IH (S a) (sleep (delay a) (requested w)))
        as (w' & -> & Hs & Hfs & Hr & Ht).
      { lia. }
      { intros i Hi. simpl.
        replace (S (sent w + i)) with (sent w + S i)%nat by lia.
        apply Hf. lia. }
      exists w'. simpl in *. split; [reflexivity |].
      rewrite Hs, Hfs, Hr, Ht. repeat split; [lia |].
      by rewrite <- !app_assoc.
    + apply Z.ltb_ge in E.
      assert (m = 0%nat) as -> by lia.
      eexists. split; [reflexivity |]. simpl.
      rewrite ?app_nil_r. repeat split; lia.
Qed.

(** X8. When the record is not on disk and every answer has a status other
    than 200 or a body that is not well-formed, [efetch_pmc] returns
    [(False, "error")] after exactly [retries] requests, sleeping the fixed
    [RETRY_DELAY] between two attempts, and writes nothing. *)
Theorem efetch_pmc_refused_every_time (w : world) (f : filesystem) :
  mkdir out_dir (fs w) = Return f ->
  file_exists out_dir (pmcid_display pmcid +:+ ".json") f = false ->
  (forall i, (i < Z.to_nat retries)%nat -> refused (replies w (sent w + i))) ->
  exists w',
    efetch_pmc pmcid out_dir fmt api_key retries include_text w
      = (Return (false, "error"), w') /\
    sent w' = (sent w + Z.to_nat retries)%nat /\
    fs w' = f /\
    trace w' = trace w ++
      retry_trace pmcid api_key retries (fun _ => RETRY_DELAY).
Proof.
  intros Hm He Hf. unfold efetch_pmc. rewrite Hm. simpl. rewrite He.
  destruct (efetch_loop_all_retried (fun _ => RETRY_DELAY)
              (Z.to_nat retries) 0 (set_fs f w) eq_refl)
    as (w' & Hrun & Hs & Hfs & _ & Ht).
  { intros i Hi. apply refused_retried. simpl. auto. }
  exists w'. unfold retry_trace, range. auto.
Qed.

(** X9. When the record is not on disk and every request fails in
    transport, [efetch_pmc] returns [(False, "error")] after exactly
    [retries] requests, sleeping [RETRY_DELAY] times the number of attempts
    made between two attempts, and writes nothing. *)
Theorem efetch_pmc_unreachable_every_time (w : world) (f : filesystem) :
  mkdir out_dir (fs w) = Return f ->
  file_exists out_dir (pmcid_display pmcid +:+ ".json") f = false ->
  (forall i, (i < Z.to_nat retries)%nat ->
     replies w (sent w + i) = Fails RequestException) ->
  exists w',
    efetch_pmc pmcid out_dir fmt api_key retries include_text w
      = (Return (false, "error"), w') /\
    sent w' = (sent w + Z.to_nat retries)%nat /\
    fs w' = f /\
    trace w' = trace w ++
      retry_trace pmcid api_key retries
        (fun attempt => RETRY_DELAY * (Z.of_nat attempt + 1))%Z.
Proof.
  intros Hm He Hf. unfold efetch_pmc. rewrite Hm. simpl. rewrite He.
  destruct (efetch_loop_all_retried
              (fun attempt => RETRY_DELAY * (Z.of_nat attempt + 1))%Z
              (Z.to_nat retries) 0 (set_fs f w) eq_refl)
    as (w' & Hrun & Hs & Hfs & _ & Ht).
  { intros i Hi. simpl. rewrite (Hf i Hi). apply transport_error_retried. }
  exists w'. unfold retry_trace, range. auto.
Qed.

End FetchFailureFacts.

Section FetchArguments.
Import Py ElementTree Metadata World Fetch Ids.
Context `{RT : Runtime}.

(** Two argument lists that give the same attempts give the same call. *)
Lemma efetch_loop_ext p1 p2 o f1 f2 k r i attempts w :
  (forall attempt w,
     efetch_attempt p1 o f1 k r i attempt w
     = efetch_attempt p2 o f2 k r i attempt w) ->
  efetch_loop p1 o f1 k r i attempts w = efetch_loop p2 o f2 k r i attempts w.
Proof.
  intros Hext. revert w. induction attempts as [| a rest IH]; intros w; simpl.
  - reflexivity.
  - rewrite Hext. destruct (efetch_attempt _ _ _ _ _ _ _ _) as [[| res] w1];
      [apply IH | reflexivity].
Qed.

Lemma efetch_pmc_same_format pmcid out_dir fmt1 fmt2 api_key retries
    include_text w :
  normalize_fmt fmt1 = normalize_fmt fmt2 ->
  efetch_pmc pmcid out_dir fmt1 api_key retries include_text w
  = efetch_pmc pmcid out_dir fmt2 api_key retries include_text w.
Proof.
  intros Hn. unfold efetch_pmc.
  destruct (mkdir out_dir (fs w)) as [f | e]; [| reflexivity].
  destruct (file_exists _ _ _); [reflexivity |].
  apply efetch_loop_ext. intros attempt w0.
  unfold efetch_attempt, save_article. by rewrite Hn.
Qed.

(** X10. The legacy formats are aliases: with "json" or "txt" a fetch
    returns what it returns with "text" and leaves the same world, the same
    record included. *)
Theorem efetch_pmc_legacy_formats
    (pmcid out_dir : string) (api_key : option string) (retries : Z)
    (include_text : bool) (w : world) :
  efetch_pmc pmcid out_dir "json" api_key retries include_text w
  = efetch_pmc pmcid out_dir "text" api_key retries include_text w /\
  efetch_pmc pmcid out_dir "txt" api_key retries include_text w
  = efetch_pmc pmcid out_dir "text" api_key retries include_text w.
Proof. split; by apply efetch_pmc_same_format. Qed.

Lemma digits_only_cons c r :
  digits_only (String c r) = true ->
  48 <= Ascii.nat_of_ascii c <= 57 /\ digits_only r = true.
Proof.
  change (digits_only (String c r))
    with ((48 <=? Ascii.nat_of_ascii c) && (Ascii.nat_of_ascii c <=? 57)
          && digits_only r).
  rewrite !andb_true_iff, !Nat.leb_le. tauto.
Qed.

Lemma digit_is_not_P c r :
  digits_only (String c r) = true -> Ascii.ascii_of_nat 80 ≠ c.
Proof.
  intros H Hc. apply digits_only_cons in H as [H _]. subst c.
  vm_compute in H. lia.
Qed.

Lemma prefix_cons a s1 b s2 :
  String.prefix (String a s1) (String b s2)
  = if Ascii.ascii_dec a b then String.prefix s1 s2 else false.
Proof. reflexivity. Qed.

Lemma prefix_append p s : String.prefix p (p +:+ s) = true.
Proof.
  induction p as [| a p IH]; simpl; [by destruct s |].
  by destruct (Ascii.ascii_dec a a).
Qed.

Lemma replace_from_here old new c r :
  replace_from old new 0 (String c r)
  = if String.prefix old (String c r)
    then new +:+ replace_from old new (String.length old - 1) r
    else String c (replace_from old new 0 r).
Proof. reflexivity. Qed.

Lemma replace_from_skip old new k c r :
  replace_from old new (S k) (String c r) = replace_from old new k r.
Proof. reflexivity. Qed.

Lemma digits_not_prefixed d : digits_only d = true -> startswith d "PMC" = false.
Proof.
  destruct d as [| c r]; [reflexivity |]. intros H.
  apply digit_is_not_P in H. unfold startswith. rewrite prefix_cons.
  destruct (Ascii.ascii_dec _ c) as [e | _]; [exfalso; exact (H e) | done].
Qed.

Lemma replace_digits d :
  digits_only d = true -> replace_from "PMC" "" 0 d = d.
Proof.
  induction d as [| c r IH]; intros H; [reflexivity |].
  pose proof (digit_is_not_P c r H) as Hc.
  apply digits_only_cons in H as [_ Hr].
  rewrite replace_from_here, prefix_cons.
  destruct (Ascii.ascii_dec _ c) as [e | _]; [exfalso; exact (Hc e) |].
  by rewrite IH.
Qed.

(** The forms of an identifier given with and without its prefix. *)
Lemma pmcid_forms_of_digits d :
  digits_only d = true ->
  pmcid_numeric d = d /\ pmcid_numeric ("PMC" +:+ d) = d /\
  pmcid_display d = "PMC" +:+ d /\ pmcid_display ("PMC" +:+ d) = "PMC" +:+ d.
Proof.
  intros Hd. pose proof (digits_not_prefixed d Hd) as Hnp.
  assert (pmcid_numeric d = d) as H1.
  { unfold pmcid_numeric. by rewrite Hnp. }
  assert (pmcid_numeric ("PMC" +:+ d) = d) as H2.
  { unfold pmcid_numeric, replace, startswith.
    pose proof (prefix_append "PMC" d) as Hp. rewrite Hp.
    lazy [String.append] in *. rewrite replace_from_here, Hp.
    change (String.length "PMC" - 1) with 2.
    rewrite !replace_from_skip.
    change ("" +:+ replace_from "PMC" "" 0 d) with (replace_from "PMC" "" 0 d).
    by apply replace_digits. }
  unfold pmcid_display. rewrite H1, H2, Hnp. auto.
Qed.

(** X11. The "PMC" prefix of a numeric identifier is optional: with or
    without it, [efetch_pmc] does the same thing, asking the service for the
    bare number and naming the record file with the prefixed form. *)
Theorem efetch_pmc_prefix_is_optional
    (d out_dir fmt : string) (api_key : option string) (retries : Z)
    (include_text : bool) (w : world) :
  digits_only d = true ->
  efetch_pmc ("PMC" +:+ d) out_dir fmt api_key retries include_text w
  = efetch_pmc d out_dir fmt api_key retries include_text w /\
  efetch_params d api_key !! "id" = Some d /\
  pmcid_display d = "PMC" +:+ d.
Proof.
  intros Hd.
  destruct (pmcid_forms_of_digits d Hd) as (H1 & H2 & H3 & H4).
  split; [| split; [| exact H3]].
  - unfold efetch_pmc. rewrite H3, H4.
    destruct (mkdir out_dir (fs w)) as [f | e]; [| reflexivity].
    destruct (file_exists _ _ _); [reflexivity |].
    apply efetch_loop_ext. intros attempt w0.
    unfold efetch_attempt, save_article, efetch_params.
    by rewrite H1, H2, H3, H4.
  - unfold efetch_params, with_api_key. rewrite H1.
    destruct api_key as [k |]; [destruct (truthy k) |];
      by simplify_map_eq.
Qed.

End FetchArguments.

(** ** esearch_pmc: requests and answers *)

Section SearchMore.
Import Py World Search Trace.
Context `{RT : Runtime}.
Variables (term : string) (max_results : Z) (api_key : option string)
          (retries : Z).

Ltac solve_acts :=
  unfold acts; simpl; rewrite <- ?app_assoc; simpl;
  split; [reflexivity || (symmetry; apply app_nil_r) |];
  unfold requests; simpl; repeat split; lia.

Lemma search_on_exception_acts attempt e w o w' :
  on_exception retries attempt e w = (o, w') ->
  exists new, acts w new w' /\ paced false new = true /\
    requests new = 0%nat /\ fs w' = fs w.
Proof.
  unfold on_exception.
  destruct (caught e); [destruct (Z.of_nat attempt <? retries - 1)%Z |];
    intros [= <- <-]; eexists; (split; [solve_acts |]); by repeat split.
Qed.

Lemma esearch_attempt_acts attempt w o w' :
  esearch_attempt term max_results api_key retries attempt w = (o, w') ->
  exists new, acts w new w' /\ paced false new = true /\
    requests new = 1%nat /\ fs w' = fs w.
Proof.
  unfold esearch_attempt.
  set (url := EUTILS_BASE +:+ "/esearch.fcgi").
  set (params := esearch_params term max_results api_key).
  assert (acts w [EvWait; EvGet url params]
            (session_get url params (wait w)).2) as Hget.
  { unfold session_get, wait, log. simpl.
    destruct (replies w (sent w)); solve_acts. }
  assert (fs (session_get url params (wait w)).2 = fs w) as Hfs.
  { unfold session_get. simpl. by destruct (replies w (sent w)). }
  assert (forall new,
            acts (session_get url params (wait w)).2 new w' ->
            paced false new = true -> requests new = 0%nat ->
            exists new', acts w new' w' /\ paced false new' = true /\
              requests new' = 1%nat) as Hglue.
  { intros new Ha Hp Hr. exists ([EvWait; EvGet url params] ++ new).
    split; [eapply acts_trans; eauto |]. split; [done |].
    rewrite requests_app, Hr. reflexivity. }
  destruct (session_get url params (wait w)) as [[[code body] | e] w1];
    simpl in *.
  - destruct (read_search_response code body) as [found | e].
    + intros [= <- <-]. exists [EvWait; EvGet url params].
      repeat (split; [done |]). done.
    + intros H. apply search_on_exception_acts in H
        as (new & Ha & Hp & Hr & Hf).
      destruct (Hglue new Ha Hp Hr) as (new' & ? & ? & ?).
      exists new'. repeat (split; [done |]). congruence.
  - intros H. apply search_on_exception_acts in H
      as (new & Ha & Hp & Hr & Hf).
    destruct (Hglue new Ha Hp Hr) as (new' & ? & ? & ?).
    exists new'. repeat (split; [done |]). congruence.
Qed.

Lemma esearch_loop_acts attempts w r w' :
  esearch_loop term max_results api_key retries attempts w = (r, w') ->
  exists new, acts w new w' /\ paced false new = true /\
    (requests new <= length attempts)%nat /\ fs w' = fs w.
Proof.
  revert w. induction attempts as [| attempt rest IH]; intros w; simpl.
  - intros [= <- <-]. exists []. split; [apply acts_refl |].
    split; [reflexivity |]. split; [unfold requests; simpl; lia | done].
  - destruct (esearch_attempt _ _ _ _ _ _) as [[| res] w1] eqn:E;
      apply esearch_attempt_acts in E as (new1 & Ha1 & Hp1 & Hr1 & Hf1).
    + intros Hloop. apply IH in Hloop as (new2 & Ha2 & Hp2 & Hr2 & Hf2).
      exists (new1 ++ new2).
      split; [by eapply acts_trans |].
      split; [by apply paced_app |].
      split; [rewrite requests_app; lia | congruence].
    + intros [= <- <-]. exists new1. repeat (split; [done || lia |]). done.
Qed.

(** X12. However it ends, a call of [esearch_pmc] sends at most [retries]
    requests, each of them directly after a [rate_limiter.wait()], and
    touches no file. *)
Theorem esearch_pmc_requests_paced_and_bounded
    (w w' : world) (r : result (json * Z)) :
  esearch_pmc term max_results api_key retries w = (r, w') ->
  exists new,
    trace w' = trace w ++ new /\
    sent w' = (sent w + requests new)%nat /\
    paced false new = true /\
    (requests new <= Z.to_nat retries)%nat /\
    fs w' = fs w.
Proof.
  unfold esearch_pmc. intros H.
  apply esearch_loop_acts in H as (new & Ha & Hp & Hr & Hf).
  unfold range in Hr. rewrite length_seq in Hr.
  destruct Ha as (Ht & Hs & _). by exists new.
Qed.

(** An answer that the [try] block reads is returned at once. *)
Lemma esearch_first_answer w status_code body found :
  (0 < retries)%Z ->
  replies w (sent w) = Response status_code body ->
  read_search_response status_code body = Return found ->
  exists w',
    esearch_pmc term max_results api_key retries w = (Return found, w') /\
    sent w' = S (sent w) /\
    trace w' = trace w ++
      [EvWait; EvGet (EUTILS_BASE +:+ "/esearch.fcgi")
                     (esearch_params term max_results api_key)].
Proof.
  intros Hpos Hr Hread. unfold esearch_pmc, range.
  destruct (Z.to_nat retries) as [| n] eqn:En; [lia |]. simpl.
  unfold esearch_attempt, session_get, wait, log. simpl.
  rewrite Hr, Hread. eexists. split; [reflexivity |]. simpl.
  by rewrite <- app_assoc.
Qed.

(** An answer on which the [try] block raises an exception that the
    [except] clause does not name leaves the function with it. *)
Lemma esearch_first_raises w status_code body e :
  (0 < retries)%Z ->
  replies w (sent w) = Response status_code body ->
  read_search_response status_code body = Raise e ->
  caught e = false ->
  exists w',
    esearch_pmc term max_results api_key retries w = (Raise e, w') /\
    sent w' = S (sent w) /\
    trace w' = trace w ++
      [EvWait; EvGet (EUTILS_BASE +:+ "/esearch.fcgi")
                     (esearch_params term max_results api_key)].
Proof.
  intros Hpos Hr Hread Hc. unfold esearch_pmc, range.
  destruct (Z.to_nat retries) as [| n] eqn:En; [lia |]. simpl.
  unfold esearch_attempt, session_get, wait, log. simpl.
  rewrite Hr, Hread. unfold on_exception. rewrite Hc.
  eexists. split; [reflexivity |]. simpl.
  by rewrite <- app_assoc.
Qed.

(** X13. An answer whose status is not an error status and whose body is
    a JSON object with an [esearchresult] holding an [idlist] and a [count]
    string that reads as the integer [n] is returned by the first attempt:
    the list as it is, and [n], after one request and no sleep. *)
Theorem esearch_pmc_returns_the_answer
    (w : world) (status_code : Z) (body : string)
    (fields res : list (string * json)) (ids : list json) (c : string) (n : Z) :
  (0 < retries)%Z ->
  replies w (sent w) = Response status_code body ->
  ~ (400 <= status_code < 600)%Z ->
  json_loads body = Return (JObj fields) ->
  assoc "esearchresult" fields = Some (JObj res) ->
  assoc "idlist" res = Some (JArr ids) ->
  assoc "count" res = Some (JStr c) ->
  int_of_str c = Some n ->
  exists w',
    esearch_pmc term max_results api_key retries w
      = (Return (JArr ids, n), w') /\
    sent w' = S (sent w) /\
    trace w' = trace w ++
      [EvWait; EvGet (EUTILS_BASE +:+ "/esearch.fcgi")
                     (esearch_params term max_results api_key)].
Proof.
  intros Hpos Hr Hst Hj He Hi Hc Hn.
  apply (esearch_first_answer w status_code body); [done.. |].
  unfold read_search_response, raise_for_status.
  destruct ((400 <=? status_code)%Z && (status_code <? 600)%Z) eqn:E.
  { apply andb_true_iff in E as [E1 E2].
    apply Z.leb_le in E1. apply Z.ltb_lt in E2. lia. }
  simpl. rewrite Hj. simpl. rewrite He. simpl. rewrite Hi. simpl.
  rewrite Hc. simpl. by rewrite Hn.
Qed.

(** X14. Missing keys have defaults: a JSON object without [esearchresult]
    gives the empty list and a zero total, and an [esearchresult] with an
    [idlist] but no [count] gives the number of identifiers as the total;
    in both cases at the first attempt, without a retry. *)
Theorem esearch_pmc_missing_keys
    (w : world) (status_code : Z) (body : string)
    (fields : list (string * json)) :
  (0 < retries)%Z ->
  replies w (sent w) = Response status_code body ->
  ~ (400 <= status_code < 600)%Z ->
  json_loads body = Return (JObj fields) ->
  (assoc "esearchresult" fields = None ->
   exists w',
     esearch_pmc term max_results api_key retries w
       = (Return (JArr [], 0%Z), w') /\ sent w' = S (sent w)) /\
  (forall res ids,
     assoc "esearchresult" fields = Some (JObj res) ->
     assoc "idlist" res = Some (JArr ids) ->
     assoc "count" res = None ->
     exists w',
       esearch_pmc term max_results api_key retries w
         = (Return (JArr ids, Z.of_nat (length ids)), w') /\
       sent w' = S (sent w)).
Proof.
  intros Hpos Hr Hst Hj.
  assert (raise_for_status status_code = Return tt) as Hok.
  { unfold raise_for_status.
    destruct ((400 <=? status_code)%Z && (status_code <? 600)%Z) eqn:E;
      [| reflexivity].
    apply andb_true_iff in E as [E1 E2].
    apply Z.leb_le in E1. apply Z.ltb_lt in E2. lia. }
  split.
  - intros He.
    destruct (esearch_first_answer w status_code body (JArr [], 0%Z))
      as (w' & Hrun & Hs & _); [done.. | | eauto].
    unfold read_search_response. rewrite Hok. simpl. rewrite Hj. simpl.
    by rewrite He.
  - intros res ids He Hi Hc.
    destruct (esearch_first_answer w status_code body
                (JArr ids, Z.of_nat (length ids)))
      as (w' & Hrun & Hs & _); [done.. | | eauto].
    unfold read_search_response. rewrite Hok. simpl. rewrite Hj. simpl.
    rewrite He. simpl. rewrite Hi. simpl. by rewrite Hc.
Qed.

(** X15. A body that is well-formed JSON but not an object is not treated
    as a failed attempt: [esearch_pmc] raises [AttributeError] after the
    first request, without retrying. *)
Theorem esearch_pmc_raises_on_non_object
    (w : world) (status_code : Z) (body : string) (data : json) :
  (0 < retries)%Z ->
  replies w (sent w) = Response status_code body ->
  ~ (400 <= status_code < 600)%Z ->
  json_loads body = Return data ->
  (forall fields, data ≠ JObj fields) ->
  exists w',
    esearch_pmc term max_results api_key retries w
      = (Raise AttributeError, w') /\
    sent w' = S (sent w).
Proof.
  intros Hpos Hr Hst Hj Hno.
  destruct (esearch_first_raises w status_code body AttributeError)
    as (w' & Hrun & Hs & _); [done.. | | reflexivity | eauto].
  unfold read_search_response, raise_for_status.
  destruct ((400 <=? status_code)%Z && (status_code <? 600)%Z) eqn:E.
  { apply andb_true_iff in E as [E1 E2].
    apply Z.leb_le in E1. apply Z.ltb_lt in E2. lia. }
  simpl. rewrite Hj. simpl.
  destruct data; try reflexivity. by destruct (Hno fields).
Qed.

End SearchMore.

(** ** search_and_download: exceptions, statistics, sessions *)

Section CoordinatorMore.
Import Py World Coordinator Cli Trace Dirs Tallies.
Context `{RT : Runtime} `{EX : Executor}.
Variables (keyword_ : string) (max_results : Z) (fmt : string)
          (api_key : option string) (use_concurrent : bool) (max_workers : Z)
          (include_text : bool) (output_dir_ : option string).

Local Open Scope Z_scope.

(** What [esearch_pmc] returns has a length. *)
Lemma read_search_response_len status_code body pmcids total :
  Search.read_search_response status_code body = Return (pmcids, total) ->
  exists n, len pmcids = Return n.
Proof.
  unfold Search.read_search_response.
  destruct (Search.raise_for_status status_code); [simpl | discriminate].
  destruct (json_loads body) as [data |]; [simpl | discriminate].
  destruct (dict_get data _ _) as [res |]; [simpl | discriminate].
  destruct (dict_get res "idlist" _) as [ids |]; [simpl | discriminate].
  destruct (len ids) as [n |] eqn:En; [simpl | discriminate].
  destruct (dict_get res "count" _) as [count |]; [simpl | discriminate].
  destruct (Search.int count); [simpl | discriminate].
  intros [= <- _]. eauto.
Qed.

Lemma esearch_loop_len term mr key retries attempts w pmcids total w' :
  Search.esearch_loop term mr key retries attempts w
    = (Return (pmcids, total), w') ->
  exists n, len pmcids = Return n.
Proof.
  revert w. induction attempts as [| a rest IH]; intros w; simpl.
  - intros [= <- _ _]. by exists 0%nat.
  - unfold Search.esearch_attempt.
    destruct (session_get _ _ _) as [[[code body] | e] w1].
    + destruct (Search.read_search_response code body)
        as [[ids tot] | e] eqn:Er.
      * intros [= <- _ _]. by eapply read_search_response_len.
      * unfold Search.on_exception. destruct (Search.caught e).
        -- destruct (_ <? _); [apply IH |]. intros [= <- _ _]. by exists 0%nat.
        -- discriminate.
    + unfold Search.on_exception. destruct (Search.caught e).
      * destruct (_ <? _); [apply IH |]. intros [= <- _ _]. by exists 0%nat.
      * discriminate.
Qed.

(** X16. No exception of the search or of a fetch leaves
    [search_and_download]: when the base directory can be created, and the
    downloads are sequential or the pool has a positive size, the function
    returns its statistics. *)
Theorem search_and_download_returns (w : world) (f : filesystem) :
  mkdir (base_dir output_dir_) (fs w) = Return f ->
  use_concurrent = false \/ 0 < max_workers ->
  exists stats w',
    search_and_download keyword_ max_results fmt api_key use_concurrent
      max_workers include_text output_dir_ w = (Return stats, w').
Proof.
  intros Hm Hmode. unfold search_and_download. fold (base_dir output_dir_).
  rewrite Hm.
  destruct (Search.esearch_pmc _ _ _ _ _) as [[[pmcids total] | e] w1] eqn:Es;
    [| eauto].
  destruct (negb (json_truthy pmcids)); [eauto |].
  apply esearch_loop_len in Es as [n ->].
  destruct (use_concurrent && (1 <? Z.of_nat n) && (max_workers <=? 0)) eqn:E.
  { apply andb_true_iff in E as [E1 E2]. apply andb_true_iff in E1 as [E1 _].
    apply Z.leb_le in E2. destruct Hmode; [congruence | lia]. }
  destruct (if use_concurrent && _ then _ else _) as [c w2]. eauto.
Qed.

(** *** The counters never go down *)

Lemma tally_nonneg c r : nonneg c -> nonneg (tally c r).
Proof.
  intros Hc. destruct (tally_one_more c r) as [-> | [-> | [-> | ->]]];
    unfold nonneg in *; simpl; lia.
Qed.

Lemma foldl_tally_nonneg results c : nonneg c -> nonneg (foldl tally c results).
Proof.
  revert c. induction results as [| r rest IH]; intros c Hc; simpl; auto.
  by apply IH, tally_nonneg.
Qed.

Lemma download_sequential_nonneg out_dir key items c w :
  nonneg c ->
  nonneg (download_sequential fmt include_text out_dir key items c w).1.
Proof.
  revert c w. induction items as [| x rest IH]; intros c w Hc; simpl; auto.
  destruct (download_one fmt include_text out_dir key x w) as [r w1].
  by apply IH, tally_nonneg.
Qed.

Lemma download_concurrent_nonneg out_dir key items c w :
  nonneg c ->
  nonneg (download_concurrent fmt include_text out_dir key items c w).1.
Proof.
  intros Hc. unfold download_concurrent.
  destruct (as_completed _ items w) as [results w1]. simpl.
  by apply foldl_tally_nonneg.
Qed.

(** The statistics [search_and_download] returns. *)
Lemma returned_stats w w' stats :
  search_and_download keyword_ max_results fmt api_key use_concurrent
    max_workers include_text output_dir_ w = (Return stats, w') ->
  requested stats
    = successful stats + skipped stats + unavailable stats + errors stats /\
  failed stats = unavailable stats + errors stats /\
  0 <= successful stats /\ 0 <= skipped stats /\
  0 <= unavailable stats /\ 0 <= errors stats.
Proof.
  unfold search_and_download.
  destruct (mkdir _ (fs w)) as [f | e]; [| discriminate].
  destruct (Search.esearch_pmc _ _ _ _ _) as [[[pmcids total] | e] w1].
  2: { intros [= <- _]. simpl. lia. }
  destruct (negb (json_truthy pmcids)).
  { intros [= <- _]. simpl. lia. }
  destruct (len pmcids) as [n | e] eqn:En; [| discriminate].
  destruct (_ && (max_workers <=? 0)); [discriminate |].
  pose proof (iter_length _ _ En) as Hn.
  assert (nonneg zero) as Hz by (unfold nonneg; simpl; lia).
  destruct (use_concurrent && (1 <? Z.of_nat n)).
  - match goal with
    | |- context [download_concurrent _ _ ?o ?k ?it ?c ?w] =>
        pose proof (download_concurrent_counted fmt include_text o k it c w) as Hc;
        pose proof (download_concurrent_nonneg o k it c w Hz) as Hnn
    end.
    destruct (download_concurrent _ _ _ _ _ _ _) as [c w2].
    intros [= <- _]. unfold nonneg, counted in *. simpl in *. lia.
  - match goal with
    | |- context [download_sequential _ _ ?o ?k ?it ?c ?w] =>
        pose proof (download_sequential_counted fmt include_text o k it c w) as Hc;
        pose proof (download_sequential_nonneg o k it c w Hz) as Hnn
    end.
    destruct (download_sequential _ _ _ _ _ _ _) as [c w2].
    intros [= <- _]. unfold nonneg, counted in *. simpl in *. lia.
Qed.

(** X17. In the statistics [search_and_download] returns, [failed] is
    [unavailable + errors], no counter is negative, and none exceeds
    [requested]. *)
Theorem search_and_download_counters_in_range
    (w w' : world) (stats : DownloadStats) :
  search_and_download keyword_ max_results fmt api_key use_concurrent
    max_workers include_text output_dir_ w = (Return stats, w') ->
  failed stats = unavailable stats + errors stats /\
  0 <= successful stats <= requested stats /\
  0 <= skipped stats <= requested stats /\
  0 <= unavailable stats <= requested stats /\
  0 <= errors stats <= requested stats /\
  0 <= failed stats <= requested stats.
Proof. intros H. apply returned_stats in H. lia. Qed.

(** *** A sequential session, request by request *)

Lemma download_sequential_acts out_dir key items c w :
  exists new,
    acts w new (download_sequential fmt include_text out_dir key items c w).2 /\
    paced false new = true /\
    (requests new <= Z.to_nat MAX_RETRIES * length items)%nat.
Proof.
  revert c w. induction items as [| x rest IH]; intros c w; simpl.
  - exists []. split; [apply acts_refl |]. split; [reflexivity |].
    unfold requests. simpl. lia.
  - unfold download_one at 1.
    destruct (Fetch.efetch_pmc _ _ _ _ _ _ _) as [r w1] eqn:E.
    apply efetch_pmc_acts in E as (new1 & Ha1 & Hp1 & Hr1 & _).
    destruct (IH (tally c r) w1) as (new2 & Ha2 & Hp2 & Hr2).
    exists (new1 ++ new2).
    split; [by eapply acts_trans |].
    split; [by apply paced_app |].
    rewrite requests_app. change (Z.to_nat MAX_RETRIES) with 3%nat in *. lia.
Qed.

(** X18. In a sequential session every request, of the search and of the
    fetches alike, comes directly after a [rate_limiter.wait()], and the
    session sends at most [MAX_RETRIES] requests for the search and
    [MAX_RETRIES] per requested identifier. *)
Theorem sequential_session_requests
    (w w' : world) (stats : DownloadStats) :
  use_concurrent = false ->
  search_and_download keyword_ max_results fmt api_key use_concurrent
    max_workers include_text output_dir_ w = (Return stats, w') ->
  exists new,
    trace w' = trace w ++ new /\
    sent w' = (sent w + requests new)%nat /\
    paced false new = true /\
    Z.of_nat (requests new) <= MAX_RETRIES * (1 + requested stats).
Proof.
  intros -> . unfold search_and_download.
  destruct (mkdir _ (fs w)) as [f | e]; [| discriminate].
  destruct (Search.esearch_pmc _ _ _ _ _) as [res w1] eqn:Es.
  unfold Search.esearch_pmc in Es.
  apply esearch_loop_acts in Es as (new1 & Ha1 & Hp1 & Hr1 & _).
  unfold range in Hr1. rewrite length_seq in Hr1.
  change (Z.to_nat MAX_RETRIES) with 3%nat in *.
  assert (acts w new1 w1) as Ha1'.
  { destruct Ha1 as (? & ? & ? & ? & ?). by repeat split. }
  assert (forall st w2, w2 = w1 -> requested st = 0 ->
            exists new, trace w2 = trace w ++ new /\
              sent w2 = (sent w + requests new)%nat /\
              paced false new = true /\
              Z.of_nat (requests new) <= MAX_RETRIES * (1 + requested st))
    as Hearly.
  { intros st w2 -> Hst. exists new1. destruct Ha1' as (? & ? & _).
    repeat (split; [done |]). rewrite Hst. unfold MAX_RETRIES in *. lia. }
  destruct res as [[pmcids total] | e].
  2: { intros [= <- <-]. by apply Hearly. }
  destruct (negb (json_truthy pmcids)).
  { intros [= <- <-]. by apply Hearly. }
  destruct (len pmcids) as [n | e] eqn:En; [| discriminate].
  simpl.
  pose proof (iter_length _ _ En) as Hn.
  match goal with
  | |- context [download_sequential _ _ ?o ?k ?it ?c ?w] =>
      destruct (download_sequential_acts o k it c w) as (new2 & Ha2 & Hp2 & Hr2)
  end.
  destruct (download_sequential _ _ _ _ _ _ _) as [c w2].
  intros [= <- <-]. simpl in *.
  exists (new1 ++ new2).
  destruct (acts_trans _ _ _ _ _ Ha1' Ha2) as (Ht & Hs & _).
  repeat (split; [done |]). split; [by apply paced_app |].
  rewrite requests_app. unfold MAX_RETRIES in *. lia.
Qed.

(** *** A session in which every record is already present *)

Lemma download_sequential_all_present out_dir key items c w :
  (forall x, x ∈ items ->
     is_Some (read_file out_dir (Fetch.pmcid_display (str x) +:+ ".json")
                (fs w))) ->
  download_sequential fmt include_text out_dir key items c w
  = (Counters (c_successful c) (c_unavailable c) (c_errors c)
       (c_skipped c + Z.of_nat (length items)), w).
Proof.
  revert c. induction items as [| x rest IH]; intros c Hall; simpl.
  - destruct c. simpl. do 2 f_equal. lia.
  - unfold download_one at 1.
    rewrite efetch_pmc_present by (apply Hall; by left).
    rewrite IH by (intros y Hy; apply Hall; by right).
    simpl. do 2 f_equal. lia.
Qed.

(** X19. Running a session again is cheap: when the search answers with a
    non-empty list and the record of every identifier of the list is
    already in the output directory, a sequential session sends no request
    beyond the search, writes nothing, and reports every identifier as
    skipped. *)
Theorem sequential_session_all_present
    (w w1 : world) (f : filesystem) (ids : list json) (total : Z) :
  use_concurrent = false ->
  mkdir (base_dir output_dir_) (fs w) = Return f ->
  Search.esearch_pmc keyword_ max_results
    (or_else api_key (environ w !! NCBI_API_KEY_ENV)) MAX_RETRIES (set_fs f w)
    = (Return (JArr ids, total), w1) ->
  ids ≠ [] ->
  (forall x, x ∈ ids ->
     is_Some (read_file (out_dir_of keyword_ output_dir_)
                (Fetch.pmcid_display (str x) +:+ ".json") (fs w1))) ->
  search_and_download keyword_ max_results fmt api_key use_concurrent
    max_workers include_text output_dir_ w
  = (Return {| keyword := keyword_; total_found := total;
               requested := Z.of_nat (length ids);
               successful := 0; failed := 0;
               skipped := Z.of_nat (length ids);
               unavailable := 0; errors := 0;
               output_dir := out_dir_of keyword_ output_dir_ |}, w1).
Proof.
  intros -> Hm Hs Hne Hall. unfold search_and_download.
  fold (base_dir output_dir_). rewrite Hm. lazy beta iota zeta.
  rewrite Hs. lazy beta iota zeta.
  assert (json_truthy (JArr ids) = true) as -> by (by destruct ids).
  change (len (JArr ids)) with (Return (A := nat) (length ids)).
  change (iter (JArr ids)) with ids.
  cbn [negb andb]. fold (out_dir_of keyword_ output_dir_).
  rewrite download_sequential_all_present by done.
  simpl. do 2 f_equal.
Qed.

End CoordinatorMore.

(** ** The command line: what the exit codes mean *)

Section CliMore.
Import Py World Coordinator Cli Trace Dirs.
Context `{RT : Runtime} `{EX : Executor}.

Local Open Scope Z_scope.

(** X20. For the download command, exit code 1 means that nothing was
    requested and exit code 2 that identifiers were requested but none was
    newly downloaded and either none was present already or some ended in
    error; there is no other non-zero code. *)
Theorem download_exit_codes (a : args) (w w' : world) (code : Z) :
  command a = "download" ->
  main a w = (Return code, w') ->
  exists stats,
    search_and_download (arg_keyword a) (arg_max_results a) (arg_format a)
      (arg_api_key a) (negb (arg_sequential a)) (arg_workers a)
      (negb (arg_exclude_text a)) (arg_output_dir a) w = (Return stats, w') /\
    (code = 0 \/ code = 1 \/ code = 2) /\
    (code = 1 <-> requested stats = 0) /\
    (code = 2 <->
       0 < requested stats /\ successful stats = 0 /\
       (skipped stats = 0 \/ 0 < errors stats)).
Proof.
  intros Hc. unfold main. rewrite Hc. simpl.
  destruct (search_and_download _ _ _ _ _ _ _ _ _) as [[stats | e] w1] eqn:Hrun;
    [| discriminate].
  intros [= <- <-]. exists stats. split; [reflexivity |].
  apply returned_stats in Hrun as (Hsum & _ & H1 & H2 & H3 & H4).
  unfold exit_code.
  destruct (0 <? successful stats) eqn:E1;
    [apply Z.ltb_lt in E1 | apply Z.ltb_ge in E1].
  { split; [auto |]. split; split; try discriminate; lia. }
  destruct (0 <? skipped stats) eqn:E2;
    [apply Z.ltb_lt in E2 | apply Z.ltb_ge in E2];
    (destruct (errors stats =? 0) eqn:E3;
      [apply Z.eqb_eq in E3 | apply Z.eqb_neq in E3]); simpl;
    try (split; [auto |]; split; split; try discriminate; lia);
    (destruct (requested stats =? 0) eqn:E4;
      [apply Z.eqb_eq in E4 | apply Z.eqb_neq in E4]);
    (split; [auto |]; split; split; try discriminate; try lia; auto).
Qed.

(** X21. When the search fails at each of its three attempts (transport
    error, error status or a body that is not JSON), the download command
    ends with exit code 1 after exactly three requests, without fetching or
    writing anything. *)
Theorem main_when_the_search_fails (a : args) (w : world) (f : filesystem) :
  command a = "download" ->
  mkdir (base_dir (arg_output_dir a)) (fs w) = Return f ->
  (forall i, (i < 3)%nat -> Search.failing (replies w (sent w + i))) ->
  exists w',
    main a w = (Return 1, w') /\
    sent w' = (sent w + 3)%nat /\
    fs w' = f.
Proof.
  intros Hc Hm Hf. unfold main. rewrite Hc. simpl.
  unfold search_and_download. fold (base_dir (arg_output_dir a)).
  rewrite Hm. lazy beta iota zeta. unfold Search.esearch_pmc, range.
  edestruct (esearch_loop_all_fail (arg_keyword a) (arg_max_results a)
               (or_else (arg_api_key a) (environ w !! NCBI_API_KEY_ENV))
               MAX_RETRIES 3 0 (set_fs f w) eq_refl)
    as (w' & Hrun & Hs & Hfs & _).
  { intros i Hi. simpl. by apply Hf. }
  change (Z.to_nat MAX_RETRIES) with 3%nat. rewrite Hrun.
  exists w'. by repeat split.
Qed.

End CliMore.

(** ** Strings: what [strip] leaves *)

Section StringFacts.
Import Py Dirs.
Variable p : Ascii.ascii -> bool.

Lemma last_char_cons c r : is_Some (last_char (String c r)).
Proof. simpl. destruct (last_char r); eauto. Qed.

Lemma first_char_rev_app s acc :
  first_char (String.rev_app s acc)
  = match last_char s with Some c => Some c | None => first_char acc end.
Proof.
  revert acc. induction s as [| a s IH]; intros acc; simpl; [reflexivity |].
  rewrite IH. by destruct (last_char s).
Qed.

Lemma last_char_rev_app s acc :
  last_char (String.rev_app s acc)
  = match last_char acc with Some c => Some c | None => first_char s end.
Proof.
  revert acc. induction s as [| a s IH]; intros acc; simpl.
  - by destruct (last_char acc).
  - rewrite IH. simpl. by destruct (last_char acc).
Qed.

Lemma first_char_rev s : first_char (String.rev s) = last_char s.
Proof. unfold String.rev. rewrite first_char_rev_app. by destruct (last_char s). Qed.

Lemma last_char_rev s : last_char (String.rev s) = first_char s.
Proof. unfold String.rev. by rewrite last_char_rev_app. Qed.

Lemma first_char_lstrip s c :
  first_char (lstrip_with p s) = Some c -> p c = false.
Proof.
  induction s as [| a s IH]; simpl; [discriminate |].
  destruct (p a) eqn:E; [exact IH |]. simpl. by intros [= <-].
Qed.

Lemma last_char_lstrip s c :
  last_char (lstrip_with p s) = Some c -> last_char s = Some c.
Proof.
  induction s as [| a s IH]; simpl; [discriminate |].
  destruct (p a) eqn:E; [| done].
  intros H. by rewrite (IH H).
Qed.

(** [strip_with p] leaves a string that neither starts nor ends with a
    character of [p]. *)
Lemma strip_with_trimmed s : trimmed p (strip_with p s).
Proof.
  unfold strip_with, trimmed. split; intros c.
  - rewrite first_char_rev. intros H.
    apply last_char_lstrip in H. rewrite last_char_rev in H.
    by apply first_char_lstrip in H.
  - rewrite last_char_rev. apply first_char_lstrip.
Qed.

Lemma all_chars_rev_app q s acc :
  all_chars q (String.rev_app s acc) = all_chars q s && all_chars q acc.
Proof.
  revert acc. induction s as [| a s IH]; intros acc; simpl; [reflexivity |].
  rewrite IH. simpl. destruct (q a), (all_chars q s); simpl; auto.
Qed.

Lemma all_chars_rev q s : all_chars q (String.rev s) = all_chars q s.
Proof. unfold String.rev. rewrite all_chars_rev_app. simpl. by rewrite andb_true_r. Qed.

Lemma all_chars_lstrip q s :
  all_chars q s = true -> all_chars q (lstrip_with p s) = true.
Proof.
  induction s as [| a s IH]; simpl; [done |].
  intros H. apply andb_true_iff in H as [Ha Hs].
  destruct (p a); [by apply IH |]. simpl. by rewrite Ha, Hs.
Qed.

Lemma all_chars_strip_with q s :
  all_chars q s = true -> all_chars q (strip_with p s) = true.
Proof.
  intros H. unfold strip_with.
  rewrite all_chars_rev. apply all_chars_lstrip.
  rewrite all_chars_rev. by apply all_chars_lstrip.
Qed.

End StringFacts.

Section SlugFacts.
Import Py Coordinator Dirs.

Lemma sub_unsafe_chars b s : all_chars slug_char (sub_unsafe b s) = true.
Proof.
  revert b. induction s as [| c r IH]; intros b; simpl; [reflexivity |].
  destruct (slug_char c) eqn:E; simpl.
  - by rewrite E, IH.
  - destruct b; [apply IH |]. simpl. apply IH.
Qed.

(** X22. The directory name derived from a search term is never empty,
    consists of letters, digits, dots, underscores and hyphens only, and
    neither starts nor ends with an underscore. *)
Theorem keyword_slug_is_a_safe_name (keyword_ : string) :
  keyword_slug keyword_ ≠ "" /\
  all_chars slug_char (keyword_slug keyword_) = true /\
  trimmed (Ascii.eqb chr_underscore) (keyword_slug keyword_).
Proof.
  unfold keyword_slug.
  set (s := strip_with _ (sub_unsafe false (strip keyword_))).
  destruct (truthy s) eqn:E.
  - split; [by apply truthy_nonempty |]. split.
    + apply all_chars_strip_with, sub_unsafe_chars.
    + apply strip_with_trimmed.
  - split; [done |]. split; [reflexivity |].
    split; intros c [= <-]; reflexivity.
Qed.

End SlugFacts.

(** ** strip_xml_tags: the plain text is single-spaced *)

Section PlainTextFacts.
Import Py Fetch Dirs PlainText.
Variable p : Ascii.ascii -> bool.

Lemma no_adjacent_before b s :
  no_adjacent p b s = true <->
  no_adjacent p false s = true /\ (b && starts_with p s = false).
Proof.
  destruct s as [| c r]; simpl.
  - rewrite andb_false_r. tauto.
  - destruct b, (p c); simpl; intuition congruence.
Qed.

Lemma no_adjacent_rev_app s acc :
  no_adjacent p false (String.rev_app s acc) = true <->
  no_adjacent p false s = true /\ no_adjacent p false acc = true /\
  starts_with p s && starts_with p acc = false.
Proof.
  revert acc. induction s as [| a s IH]; intros acc.
  - simpl. tauto.
  - change (String.rev_app (String a s) acc)
      with (String.rev_app s (String a acc)).
    rewrite IH.
    change (no_adjacent p false (String a acc))
      with (no_adjacent p (p a) acc).
    change (no_adjacent p false (String a s))
      with (no_adjacent p (p a) s).
    rewrite (no_adjacent_before (p a) acc), (no_adjacent_before (p a) s).
    simpl. destruct (p a), (starts_with p s), (starts_with p acc); simpl;
      intuition congruence.
Qed.

Lemma no_adjacent_rev s :
  no_adjacent p false s = true -> no_adjacent p false (String.rev s) = true.
Proof.
  intros H. unfold String.rev. apply no_adjacent_rev_app.
  simpl. rewrite andb_false_r. auto.
Qed.

Lemma no_adjacent_lstrip b b' s :
  no_adjacent p b s = true -> no_adjacent p b' (lstrip_with p s) = true.
Proof.
  revert b. induction s as [| a s IH]; intros b; simpl; [done |].
  intros H. apply andb_true_iff in H as [_ H].
  destruct (p a) eqn:E; [by eapply IH |].
  simpl. rewrite E, andb_false_r. exact H.
Qed.

Lemma no_adjacent_strip_with b s :
  no_adjacent p b s = true -> no_adjacent p false (strip_with p s) = true.
Proof.
  intros H. unfold strip_with. apply no_adjacent_rev.
  eapply no_adjacent_lstrip. apply no_adjacent_rev.
  by eapply no_adjacent_lstrip.
Qed.

End PlainTextFacts.

Section StripXmlTagsFacts.
Import Py Fetch Dirs PlainText.

Lemma collapse_spaces_plain b s :
  all_chars plain_char (collapse_spaces b s) = true.
Proof.
  revert b. induction s as [| c r IH]; intros b; simpl; [reflexivity |].
  destruct (isspace c) eqn:E.
  - destruct b; [apply IH |]. simpl. apply IH.
  - simpl. unfold plain_char at 1. rewrite E. simpl. apply IH.
Qed.

Lemma collapse_spaces_no_adjacent b s :
  no_adjacent isspace b (collapse_spaces b s) = true.
Proof.
  revert b. induction s as [| c r IH]; intros b; simpl; [reflexivity |].
  destruct (isspace c) eqn:E.
  - destruct b; [apply IH |]. simpl. apply IH.
  - simpl. rewrite E, andb_false_r. simpl. apply IH.
Qed.

(** X23. The plain text derived from a document is single-spaced: it
    neither starts nor ends with whitespace, its only whitespace characters
    are spaces, and no two of them are neighbours. *)
Theorem strip_xml_tags_is_single_spaced (xml_text : string) :
  trimmed isspace (strip_xml_tags xml_text) /\
  all_chars plain_char (strip_xml_tags xml_text) = true /\
  no_adjacent isspace false (strip_xml_tags xml_text) = true.
Proof.
  unfold strip_xml_tags, strip. split; [apply strip_with_trimmed |]. split.
  - apply all_chars_strip_with, collapse_spaces_plain.
  - eapply no_adjacent_strip_with, collapse_spaces_no_adjacent.
Qed.

End StripXmlTagsFacts.

(** ** extract_metadata_from_pmc_xml: identifiers and journal names *)

Section MetadataMore.
Import Py ElementTree Metadata Fields Dirs.
Context `{RT : Runtime}.

Lemma filter_snoc {A} (f : A -> bool) l x :
  List.filter f (l ++ [x]) = List.filter f l ++ (if f x then [x] else []).
Proof. rewrite List.filter_app. simpl. by destruct (f x). Qed.

(** After the loop over the [article-id] elements, each identifier key
    holds the text of the last element of its type. *)
Lemma store_article_ids_last ids (md : metadata) k :
  k ∈ ["pmid"; "pmcid"; "doi"] ->
  foldl article_id_step md ids !! k
  = match last_id ids k with
    | Some s => Some (MStr s)
    | None => md !! k
    end.
Proof.
  intros Hk. induction ids as [| aid ids IH] using rev_ind; [reflexivity |].
  rewrite foldl_app. simpl. unfold last_id in *. rewrite filter_snoc.
  unfold article_id_step at 1.
  assert (k = "pmid" \/ k = "pmcid" \/ k = "doi") as Hcases.
  { rewrite !elem_of_cons, elem_of_nil in Hk. tauto. }
  destruct (String.eqb (get_or_empty aid "pub-id-type") k) eqn:Ek.
  - apply String.eqb_eq in Ek. rewrite last_snoc. simpl.
    destruct Hcases as [-> | [-> | ->]]; rewrite Ek; simpl;
      by rewrite lookup_insert_eq.
  - rewrite app_nil_r. apply String.eqb_neq in Ek.
    destruct (String.eqb _ "pmid") eqn:E1;
      [apply String.eqb_eq in E1;
       rewrite lookup_insert_ne by congruence; exact IH |].
    destruct (String.eqb _ "pmcid") eqn:E2;
      [apply String.eqb_eq in E2;
       rewrite lookup_insert_ne by congruence; exact IH |].
    destruct (String.eqb _ "doi") eqn:E3;
      [apply String.eqb_eq in E3;
       rewrite lookup_insert_ne by congruence; exact IH |].
    exact IH.
Qed.

(** X24. When a document repeats an identifier type, the last occurrence
    wins: [pmid], [pmcid] and [doi] hold the stripped text of the last
    [article-id] element of their type, and are absent when there is
    none. *)
Theorem identifiers_last_occurrence_wins
    (xml_text : string) (root am : Element) (k : string) :
  ET_fromstring xml_text = Return root ->
  article_meta_of root = Some am ->
  k ∈ ["pmid"; "pmcid"; "doi"] ->
  exists md,
    extract_metadata_from_pmc_xml xml_text = Return md /\
    md !! k = MStr <$> last_id (findall am "article-id") k.
Proof.
  intros Hparse Ham Hk. unfold extract_metadata_from_pmc_xml. rewrite Hparse.
  eexists. split; [reflexivity |].
  destruct (extract_from_root_article_meta root am Ham) as (jt & nlm & iso & E).
  rewrite E, extract_article_meta_stages.
  assert (k = "pmid" \/ k = "pmcid" \/ k = "doi") as Hcases.
  { rewrite !elem_of_cons, elem_of_nil in Hk. tauto. }
  assert (k ∉ journal_keys) as Hj.
  { destruct Hcases as [-> | [-> | ->]]; by apply not_journal_key. }
  rewrite store_keywords_frame, store_abstract_frame, store_authors_frame,
    store_pub_date_frame, store_title_frame
    by (destruct Hcases as [-> | [-> | ->]]; done).
  unfold store_article_ids. rewrite store_article_ids_last by done.
  rewrite journal_has_no_other_key by done.
  by destruct (last_id _ _).
Qed.

(** The specific journal fields and the generic one, as [store_journal]
    writes them. *)
Lemma store_journal_preferred jt nlm iso :
  store_journal jt nlm iso ∅ !! "journal"
  = preferred_journal (store_journal jt nlm iso ∅).
Proof.
  unfold preferred_journal, store_journal, store_if_truthy, store_if_some,
    is_truthy.
  destruct jt as [t |], nlm as [n |], iso as [i |];
    repeat match goal with
    | |- context [truthy ?s] => destruct (truthy s) eqn:?
    end;
    by simplify_map_eq.
Qed.

Lemma extract_from_root_journal root :
  exists jt nlm iso,
    forall k, k ∈ journal_keys ->
      extract_from_root root !! k = store_journal jt nlm iso ∅ !! k.
Proof.
  unfold extract_from_root.
  destruct (locate_article root) as [article |];
    [| exists None, None, None; intros; by rewrite !lookup_empty].
  destruct (find article "front") as [front |];
    [| exists None, None, None; intros; by rewrite !lookup_empty].
  destruct (journal_fields (find front "journal-meta")) as [[jt nlm] iso].
  exists jt, nlm, iso. intros k Hk.
  destruct (find front "article-meta") as [am |]; [| reflexivity].
  assert (k = "journal_title" \/ k = "journal_nlm_ta" \/
          k = "journal_iso_abbrev" \/ k = "journal") as Hcases.
  { unfold journal_keys in Hk. rewrite !elem_of_cons, elem_of_nil in Hk. tauto. }
  rewrite extract_article_meta_stages.
  rewrite store_keywords_frame, store_abstract_frame, store_authors_frame,
    store_pub_date_frame, store_title_frame, store_article_ids_frame
    by (destruct Hcases as [-> | [-> | [-> | ->]]]; done).
  reflexivity.
Qed.

(** X25. In every record the generic [journal] field agrees with the
    specific ones: it is the journal title when the record has one, else
    the ISO abbreviation, else the NLM abbreviation, and it is absent
    exactly when all three are. *)
Theorem journal_alias_follows_the_specific_fields
    (xml_text : string) (md : metadata) :
  extract_metadata_from_pmc_xml xml_text = Return md ->
  md !! "journal" = preferred_journal md.
Proof.
  unfold extract_metadata_from_pmc_xml.
  destruct (ET_fromstring xml_text) as [root | e]; intros [= <-];
    [| reflexivity].
  destruct (extract_from_root_journal root) as (jt & nlm & iso & Hj).
  unfold preferred_journal.
  rewrite !Hj by (apply list_elem_of_In; simpl; tauto).
  apply store_journal_preferred.
Qed.

(** *** Stored strings are stripped *)

Let tidy_opt (o : option string) : Prop :=
  forall s, o = Some s -> trimmed isspace s.

Lemma strip_trimmed x : trimmed isspace (strip x).
Proof. apply strip_with_trimmed. Qed.

Lemma tidy_opt_strip x : tidy_opt (Some (strip x)).
Proof. intros s [= <-]. apply strip_trimmed. Qed.

Lemma tidy_opt_None : tidy_opt None.
Proof. intros s [=]. Qed.

Lemma journal_fields_tidy jm :
  tidy_opt (journal_fields jm).1.1 /\ tidy_opt (journal_fields jm).1.2 /\
  tidy_opt (journal_fields jm).2.
Proof.
  unfold journal_fields. destruct jm as [jm |];
    [| simpl; auto using tidy_opt_None].
  assert (forall ids acc,
            tidy_opt acc.1 -> tidy_opt acc.2 ->
            tidy_opt (foldl journal_id_step acc ids).1 /\
            tidy_opt (foldl journal_id_step acc ids).2) as Hloop.
  { induction ids as [| jid ids IH]; intros acc H1 H2; simpl; [auto |].
    apply IH; unfold journal_id_step;
      repeat (destruct (String.eqb _ _)); simpl;
      auto using tidy_opt_strip. }
  destruct (Hloop (findall jm "journal-id") (None, None))
    as [H1 H2]; [apply tidy_opt_None.. |].
  destruct (foldl journal_id_step _ _) as [nlm iso]. simpl in *.
  split; [| split; [exact H1 | exact H2]].
  destruct (find jm "journal-title-group") as [g |]; [| apply tidy_opt_None].
  destruct (find g "journal-title"); [apply tidy_opt_strip | apply tidy_opt_None].
Qed.

Lemma store_journal_from jt nlm iso k v :
  store_journal jt nlm iso ∅ !! k = Some v ->
  exists s, v = MStr s /\ (jt = Some s \/ nlm = Some s \/ iso = Some s).
Proof.
  unfold store_journal, store_if_truthy, store_if_some, is_truthy.
  destruct jt as [t |], nlm as [n |], iso as [i |];
    repeat match goal with
    | |- context [truthy ?s] => destruct (truthy s)
    end;
    intros H;
    repeat (apply lookup_insert_Some in H as [[_ <-] | [_ H]]; [eauto 6 |]);
    by rewrite lookup_empty in H.
Qed.

Lemma author_name_tidy contrib s :
  author_name contrib = Some s -> trimmed isspace s.
Proof.
  unfold author_name. destruct (bool_decide _); [| discriminate].
  destruct (find contrib "name") as [name_el |]; [| discriminate].
  destruct (truthy (strip (or_empty (findtext name_el "given-names")))).
  - destruct (truthy _); [| discriminate]. intros [= <-]. apply strip_trimmed.
  - destruct (truthy (strip (or_empty (get name_el "initials")))).
    + destruct (truthy _); [| discriminate]. intros [= <-]. apply strip_trimmed.
    + destruct (truthy _); [| discriminate]. intros [= <-]. apply strip_trimmed.
Qed.

Lemma keyword_text_tidy kwd s :
  keyword_text kwd = Some s -> trimmed isspace s.
Proof.
  unfold keyword_text. destruct (truthy _); [| discriminate].
  intros [= <-]. apply strip_trimmed.
Qed.

Lemma resolve_pub_date_tidy am :
  tidy_opt (resolve_pub_date am).1.1 /\ tidy_opt (resolve_pub_date am).1.2 /\
  tidy_opt (resolve_pub_date am).2.
Proof.
  assert (forall e t, tidy_opt (child_text e t)) as Hc.
  { intros e t. unfold child_text.
    destruct (find e t); [apply tidy_opt_strip | apply tidy_opt_None]. }
  unfold resolve_pub_date.
  destruct (find_attr am "pub-date" "pub-type" "epub"); simpl; [auto |].
  destruct (find_attr am "pub-date" "pub-type" "collection"); simpl;
    auto using tidy_opt_None.
Qed.

Lemma store_pub_date_tidy y m d (md : metadata) k v :
  tidy_opt y -> tidy_opt m -> tidy_opt d ->
  store_pub_date y m d md !! k = Some v ->
  tidy v \/ md !! k = Some v.
Proof.
  intros Hy Hm Hd. unfold store_pub_date.
  assert (store_if_some "day" d
            (store_if_some "month" m (store_if_some "year" y md)) !! k
          = Some v -> tidy v \/ md !! k = Some v) as Hflat.
  { intros H.
    apply store_if_some_lookup in H as [(_ & s & -> & ->) | H];
      [left; by apply Hd |].
    apply store_if_some_lookup in H as [(_ & s & -> & ->) | H];
      [left; by apply Hm |].
    apply store_if_some_lookup in H as [(_ & s & -> & ->) | H];
      [left; by apply Hy | by right]. }
  destruct y as [ys |]; [| exact Hflat].
  intros H. apply lookup_insert_Some in H as [[_ <-] | [_ H]]; [| auto].
  left. intros k' s Hs. unfold dict_set_if_some in Hs.
  destruct d as [ds |];
    [apply lookup_insert_Some in Hs as [[_ <-] | [_ Hs]]; [by apply Hd |] |];
    (destruct m as [ms |];
     [apply lookup_insert_Some in Hs as [[_ <-] | [_ Hs]]; [by apply Hm |] |]);
    apply lookup_singleton_Some in Hs as [_ <-]; by apply Hy.
Qed.

(** X26. No string of a record has whitespace at either end: every string
    field, every author name, every keyword and every component of the
    nested date is stored stripped. *)
Theorem stored_strings_are_stripped
    (xml_text : string) (md : metadata) (k : string) (v : mvalue) :
  extract_metadata_from_pmc_xml xml_text = Return md ->
  md !! k = Some v ->
  tidy v.
Proof.
  unfold extract_metadata_from_pmc_xml.
  destruct (ET_fromstring xml_text) as [root | e]; intros [= <-];
    [| by rewrite lookup_empty].
  unfold extract_from_root.
  destruct (locate_article root) as [article |]; [| by rewrite lookup_empty].
  destruct (find article "front") as [front |]; [| by rewrite lookup_empty].
  pose proof (journal_fields_tidy (find front "journal-meta")) as (Ht & Hn & Hi).
  destruct (journal_fields (find front "journal-meta")) as [[jt nlm] iso].
  simpl in Ht, Hn, Hi.
  assert (forall k v, store_journal jt nlm iso ∅ !! k = Some v -> tidy v)
    as Hjournal.
  { intros k0 v0 H. apply store_journal_from in H as (s & -> & [H | [H | H]]);
      simpl; eauto. }
  destruct (find front "article-meta") as [am |]; [| apply Hjournal].
  rewrite extract_article_meta_stages.
  pose proof (resolve_pub_date_tidy am) as (Hy & Hm & Hd).
  intros H. unfold store_keywords in H.
  apply store_list_lookup in H as [(_ & -> & _) | H].
  { simpl. apply Forall_omap_Some, keyword_text_tidy. }
  apply store_abstract_lookup in H as [(_ & el & _ & ->) | H].
  { apply strip_trimmed. }
  unfold store_authors in H.
  apply store_list_lookup in H as [(_ & -> & _) | H].
  { simpl. apply Forall_omap_Some, author_name_tidy. }
  apply (store_pub_date_tidy _ _ _ _ _ _ Hy Hm Hd) in H as [H | H]; [done |].
  apply store_title_lookup in H as [(_ & g & el & _ & _ & ->) | H].
  { apply strip_trimmed. }
  apply store_article_ids_lookup in H as [(_ & aid & _ & _ & ->) | H].
  { apply strip_trimmed. }
  by eapply Hjournal.
Qed.

End MetadataMore.

(** ** extract_metadata_from_pmc_xml: where each field comes from *)

Section MetadataSources.
Import Py ElementTree Metadata Fields.
Context `{RT : Runtime}.

(** The function after a successful parse, stage by stage. *)
Lemma extract_from_root_stages root :
  extract_from_root root
  = let jf := journal_fields (journal_meta_of root) in
    let md := store_journal jf.1.1 jf.1.2 jf.2 ∅ in
    match article_meta_of root with
    | Some am => extract_article_meta am md
    | None => md
    end.
Proof.
  unfold extract_from_root, journal_meta_of, article_meta_of.
  destruct (locate_article root) as [article |]; [| reflexivity].
  cbn [mbind option_bind].
  destruct (find article "front") as [front |]; [| reflexivity].
  cbn [mbind option_bind].
  by destruct (journal_fields (find front "journal-meta")) as [[jt nlm] iso].
Qed.

(** What the loop over the [journal-id] elements leaves in its two
    variables comes from an element of the right type. *)
Lemma journal_ids_source ids acc s :
  (foldl journal_id_step acc ids).1 = Some s \/
  (foldl journal_id_step acc ids).2 = Some s ->
  acc.1 = Some s \/ acc.2 = Some s \/
  exists jid,
    jid ∈ ids /\
    get_or_empty jid "journal-id-type" ∈ ["nlm-ta"; "iso-abbrev"] /\
    s = strip (or_empty (text jid)).
Proof.
  revert acc. induction ids as [| jid ids IH]; intros acc H; [simpl in H; tauto |].
  simpl in H. apply IH in H as [H | [H | (j & Hj & Ht & ->)]].
  - unfold journal_id_step in H.
    destruct (String.eqb _ "nlm-ta") eqn:E1.
    + apply String.eqb_eq in E1. simpl in H. injection H as <-.
      right. right. exists jid. rewrite E1.
      split; [by left |]. split; [| done]. apply list_elem_of_In; simpl; tauto.
    + destruct (String.eqb _ "iso-abbrev"); simpl in H; by left.
  - unfold journal_id_step in H.
    destruct (String.eqb _ "nlm-ta") eqn:E1; [simpl in H; tauto |].
    destruct (String.eqb _ "iso-abbrev") eqn:E2; [| tauto].
    apply String.eqb_eq in E2. simpl in H. injection H as <-.
    right. right. exists jid. rewrite E2.
    split; [by left |]. split; [| done]. apply list_elem_of_In; simpl; tauto.
  - right. right. exists j. split; [by right | done].
Qed.

Lemma journal_fields_source o s :
  (journal_fields o).1.1 = Some s \/ (journal_fields o).1.2 = Some s \/
  (journal_fields o).2 = Some s ->
  exists jm,
    o = Some jm /\
    ((exists g jt,
        find jm "journal-title-group" = Some g /\
        find g "journal-title" = Some jt /\
        s = strip (join "" (itertext jt))) \/
     (exists jid,
        jid ∈ findall jm "journal-id" /\
        get_or_empty jid "journal-id-type" ∈ ["nlm-ta"; "iso-abbrev"] /\
        s = strip (or_empty (text jid)))).
Proof.
  destruct o as [jm |]; [| simpl; intros [H | [H | H]]; discriminate].
  unfold journal_fields.
  pose proof (journal_ids_source (findall jm "journal-id") (None, None) s) as Hids.
  destruct (foldl journal_id_step (None, None) (findall jm "journal-id"))
    as [nlm iso].
  simpl in *. intros H. exists jm. split; [done |].
  destruct H as [H | H].
  - left. destruct (find jm "journal-title-group") as [g |] eqn:Eg;
      [| discriminate].
    destruct (find g "journal-title") as [jt |] eqn:Ejt; [| discriminate].
    injection H as <-. by exists g, jt.
  - right. destruct (Hids H) as [? | [? | ?]]; [discriminate.. | done].
Qed.

Lemma author_name_source contrib s :
  author_name contrib = Some s ->
  get contrib "contrib-type" = Some "author" /\
  exists name_el, find contrib "name" = Some name_el.
Proof.
  unfold author_name. case_bool_decide; [| discriminate].
  destruct (find contrib "name") as [name_el |]; [| discriminate]. eauto.
Qed.

Lemma keyword_text_source kwd s :
  keyword_text kwd = Some s -> s = strip (join "" (itertext kwd)).
Proof.
  unfold keyword_text. destruct (truthy _); [| discriminate]. by intros [= <-].
Qed.

(** An identifier type that occurs has a last occurrence. *)
Lemma last_id_present ids k aid :
  aid ∈ ids -> get_or_empty aid "pub-id-type" = k ->
  exists aid',
    aid' ∈ ids /\ get_or_empty aid' "pub-id-type" = k /\
    last_id ids k = Some (strip (or_empty (text aid'))).
Proof.
  intros Hin Ht. unfold last_id.
  set (f := fun a : Element => String.eqb (get_or_empty a "pub-id-type") k).
  assert (In aid (List.filter f ids)) as Hf.
  { apply List.filter_In. split; [by apply list_elem_of_In |].
    unfold f. by apply String.eqb_eq. }
  destruct (last (List.filter f ids)) as [a |] eqn:E.
  - apply last_Some in E as [l' E].
    assert (In a (List.filter f ids)) as Ha.
    { rewrite E. apply List.in_or_app. right. by left. }
    apply List.filter_In in Ha as [Ha Hfa].
    exists a. split; [by apply list_elem_of_In |].
    split; [by apply String.eqb_eq |]. reflexivity.
  - apply last_None in E. rewrite E in Hf. destruct Hf.
Qed.

(** C7, as the code has it.  Every field of the returned record is read from
    an element of the document, and none is null.  A journal field is the
    non-empty stripped text of the journal title or of a [journal-id] of
    [journal-meta]; [authors] and [keywords] are non-empty lists of
    non-empty strings, each from an author [contrib] with a [name] and from
    a [kwd]; an identifier, the title, the abstract and a date component
    hold the stripped text of their element, and [pub_date] comes with the
    year it holds.  Conversely an identifier, the title, the abstract and
    a component of the resolved date are stored whenever their element is
    present, so that an empty element gives an empty stored value. *)
Theorem stored_fields_have_a_source (xml_text : string) (md : metadata) :
  extract_metadata_from_pmc_xml xml_text = Return md ->
  (forall k v, md !! k = Some v ->
     exists root,
       ET_fromstring xml_text = Return root /\
       ((k ∈ journal_keys /\
         exists s jm,
           v = MStr s /\ s ≠ "" /\ journal_meta_of root = Some jm /\
           ((exists g jt,
               find jm "journal-title-group" = Some g /\
               find g "journal-title" = Some jt /\
               s = strip (join "" (itertext jt))) \/
            (exists jid,
               jid ∈ findall jm "journal-id" /\
               get_or_empty jid "journal-id-type" ∈ ["nlm-ta"; "iso-abbrev"] /\
               s = strip (or_empty (text jid))))) \/
        (exists am,
           article_meta_of root = Some am /\
           ((k = "authors" /\
             exists l, v = MList l /\ l ≠ [] /\
               Forall (fun s => s ≠ "" /\
                         exists contrib name_el,
                           contrib ∈ findall2 am "contrib-group" "contrib" /\
                           get contrib "contrib-type" = Some "author" /\
                           find contrib "name" = Some name_el /\
                           author_name contrib = Some s) l) \/
            (k = "keywords" /\
             exists l, v = MList l /\ l ≠ [] /\
               Forall (fun s => s ≠ "" /\
                         exists kwd,
                           kwd ∈ findall2 am "kwd-group" "kwd" /\
                           s = strip (join "" (itertext kwd))) l) \/
            (k ∈ ["pmid"; "pmcid"; "doi"] /\
             exists aid, aid ∈ findall am "article-id" /\
               get_or_empty aid "pub-id-type" = k /\
               v = MStr (strip (or_empty (text aid)))) \/
            (k = "title" /\
             exists g el, find am "title-group" = Some g /\
               find g "article-title" = Some el /\
               v = MStr (strip (join "" (itertext el)))) \/
            (k = "abstract" /\
             exists el, find am "abstract" = Some el /\
               v = MStr (strip (join " " (itertext el)))) \/
            (k ∈ ["year"; "month"; "day"] /\
             exists entry el, entry ∈ children am /\ tag entry = "pub-date" /\
               find entry k = Some el /\
               v = MStr (strip (or_empty (text el)))) \/
            (k = "pub_date" /\
             exists (d : gmap string string) y,
               v = MDict d /\ md !! "year" = Some (MStr y) /\
               d !! "year" = Some y))))) /\
  (forall root am,
     ET_fromstring xml_text = Return root ->
     article_meta_of root = Some am ->
     (forall g el,
        find am "title-group" = Some g -> find g "article-title" = Some el ->
        md !! "title" = Some (MStr (strip (join "" (itertext el))))) /\
     (forall el,
        find am "abstract" = Some el ->
        md !! "abstract" = Some (MStr (strip (join " " (itertext el))))) /\
     (forall k aid,
        k ∈ ["pmid"; "pmcid"; "doi"] ->
        aid ∈ findall am "article-id" ->
        get_or_empty aid "pub-id-type" = k ->
        exists aid',
          aid' ∈ findall am "article-id" /\
          get_or_empty aid' "pub-id-type" = k /\
          md !! k = Some (MStr (strip (or_empty (text aid'))))) /\
     (forall e c el,
        find_attr am "pub-date" "pub-type" "epub" = Some e ->
        c ∈ ["year"; "month"; "day"] ->
        find e c = Some el ->
        md !! c = Some (MStr (strip (or_empty (text el))))) /\
     (forall e el,
        find_attr am "pub-date" "pub-type" "epub" = None ->
        find_attr am "pub-date" "pub-type" "collection" = Some e ->
        find e "year" = Some el ->
        md !! "year" = Some (MStr (strip (or_empty (text el)))))).
Proof.
  unfold extract_metadata_from_pmc_xml.
  destruct (ET_fromstring xml_text) as [root | e] eqn:Hparse.
  2: { intros [= <-]. split; [| intros ? ? [=]].
       intros k v H. by rewrite lookup_empty in H. }
  intros [= <-]. split.
  - intros k v Hlook. exists root. split; [reflexivity |].
    pose proof Hlook as H. rewrite extract_from_root_stages in H.
    cbv zeta in H.
    assert (forall k v,
              store_journal (journal_fields (journal_meta_of root)).1.1
                (journal_fields (journal_meta_of root)).1.2
                (journal_fields (journal_meta_of root)).2 ∅ !! k = Some v ->
              k ∈ journal_keys /\
              exists s jm,
                v = MStr s /\ s ≠ "" /\ journal_meta_of root = Some jm /\
                ((exists g jt,
                    find jm "journal-title-group" = Some g /\
                    find g "journal-title" = Some jt /\
                    s = strip (join "" (itertext jt))) \/
                 (exists jid,
                    jid ∈ findall jm "journal-id" /\
                    get_or_empty jid "journal-id-type"
                      ∈ ["nlm-ta"; "iso-abbrev"] /\
                    s = strip (or_empty (text jid))))) as Hjournal.
    { intros k0 v0 H0.
      destruct (store_journal_lookup _ _ _ _ _ H0) as (Hk & s & -> & Hs).
      split; [done |].
      destruct (store_journal_from _ _ _ _ _ H0) as (s' & [= <-] & Hfrom).
      assert ((journal_fields (journal_meta_of root)).1.1 = Some s \/
              (journal_fields (journal_meta_of root)).1.2 = Some s \/
              (journal_fields (journal_meta_of root)).2 = Some s) as Hany
        by tauto.
      destruct (journal_fields_source _ _ Hany) as (jm & Hjm & Hsrc).
      exists s, jm. by repeat (split; [done |]). }
    destruct (article_meta_of root) as [am |] eqn:Ham; [| left; by apply Hjournal].
    rewrite extract_article_meta_stages in H.
    unfold store_keywords in H.
    apply store_list_lookup in H as [(-> & -> & Hne) | H].
    { right. exists am. split; [done |]. right. left.
      split; [done |]. eexists. repeat (split; [done |]).
      apply Forall_forall. intros s Hs.
      apply list_elem_of_omap in Hs as (kwd & Hkwd & Hs).
      split; [by eapply keyword_text_nonempty |].
      exists kwd. split; [done |]. by apply keyword_text_source. }
    apply store_abstract_lookup in H as [(-> & el & Hel & ->) | H].
    { right. exists am. split; [done |]. do 4 right. left. eauto. }
    unfold store_authors in H.
    apply store_list_lookup in H as [(-> & -> & Hne) | H].
    { right. exists am. split; [done |]. left.
      split; [done |]. eexists. repeat (split; [done |]).
      apply Forall_forall. intros s Hs.
      apply list_elem_of_omap in Hs as (c & Hc & Hs).
      split; [by eapply author_name_nonempty |].
      destruct (author_name_source _ _ Hs) as (Ht & name_el & Hn).
      exists c, name_el. by repeat (split; [done |]). }
    apply store_pub_date_lookup in H
      as [(s & -> & Hk) | [(-> & d & ys & Hy & ->) | H]].
    { right. exists am. split; [done |]. do 5 right. left.
      pose proof (resolved_component am) as Hres.
      destruct (resolve_pub_date am) as [[y m] d]. simpl in Hk.
      destruct (Hres k s Hk) as (entry & el & Hin & Ht & Hf & ->).
      split; [| eauto 10].
      destruct Hk as [[-> _] | [[-> _] | [-> _]]];
        apply list_elem_of_In; simpl; tauto. }
    { right. exists am. split; [done |]. do 6 right.
      split; [done |].
      destruct (date_fields root am Ham) as (Hyear & _ & _ & Hpd).
      cbv zeta in Hyear, Hpd. rewrite Hy in Hyear, Hpd. simpl in Hyear, Hpd.
      rewrite Hlook in Hpd. injection Hpd as ->.
      eexists _, ys. split; [reflexivity |]. split; [exact Hyear |].
      destruct (resolve_pub_date am).1.2, (resolve_pub_date am).2; simpl;
        by simplify_map_eq. }
    apply store_title_lookup in H as [(-> & g & el & Hg & Hel & ->) | H].
    { right. exists am. split; [done |]. do 3 right. left. eauto 10. }
    apply store_article_ids_lookup in H as [(Hk & aid & Hin & Ht & ->) | H].
    { right. exists am. split; [done |]. do 2 right. left. eauto 10. }
    left. by apply Hjournal.
  - intros root' am [= <-] Ham.
    assert (forall k,
              extract_from_root root !! k
              = store_keywords am (store_abstract am (store_authors am
                  (store_pub_date (resolve_pub_date am).1.1
                     (resolve_pub_date am).1.2 (resolve_pub_date am).2
                     (store_title am (store_article_ids am
                        (store_journal
                           (journal_fields (journal_meta_of root)).1.1
                           (journal_fields (journal_meta_of root)).1.2
                           (journal_fields (journal_meta_of root)).2 ∅))))))
                !! k) as Hmd.
    { intros k. rewrite extract_from_root_stages. cbv zeta. rewrite Ham.
      by rewrite extract_article_meta_stages. }
    destruct (date_fields root am Ham) as (Hyear & Hmonth & Hday & _).
    cbv zeta in Hyear, Hmonth, Hday.
    repeat split.
    + intros g el Hg Hel. rewrite Hmd.
      rewrite store_keywords_frame, store_abstract_frame, store_authors_frame,
        store_pub_date_frame by done.
      unfold store_title. rewrite Hg, Hel. by rewrite lookup_insert_eq.
    + intros el Hel. rewrite Hmd. rewrite store_keywords_frame by done.
      unfold store_abstract. rewrite Hel. by rewrite lookup_insert_eq.
    + intros k aid Hk Hin Ht.
      destruct (last_id_present _ _ _ Hin Ht) as (aid' & Hin' & Ht' & Hlast).
      exists aid'. repeat (split; [done |]).
      assert (k = "pmid" \/ k = "pmcid" \/ k = "doi") as Hcases.
      { rewrite !elem_of_cons, elem_of_nil in Hk. tauto. }
      rewrite Hmd.
      rewrite store_keywords_frame, store_abstract_frame, store_authors_frame,
        store_pub_date_frame, store_title_frame
        by (destruct Hcases as [-> | [-> | ->]]; done).
      unfold store_article_ids. rewrite store_article_ids_last by done.
      by rewrite Hlast.
    + intros e c el He Hc Hel.
      rewrite (resolve_pub_date_epub am e He) in Hyear, Hmonth, Hday.
      simpl in Hyear, Hmonth, Hday.
      assert (child_text e c = Some (strip (or_empty (text el)))) as Hct.
      { unfold child_text. by rewrite Hel. }
      rewrite !elem_of_cons, elem_of_nil in Hc.
      destruct Hc as [-> | [-> | [-> | []]]].
      * by rewrite Hyear, Hct.
      * by rewrite Hmonth, Hct.
      * by rewrite Hday, Hct.
    + intros e el Hnone He Hel.
      rewrite (resolve_pub_date_fallback am Hnone) in Hyear.
      simpl in Hyear. rewrite He in Hyear. simpl in Hyear.
      unfold child_text in Hyear. by rewrite Hel in Hyear.
Qed.

End MetadataSources.

Section MetadataSourcesExamples.
Import Py ElementTree Metadata Fields Examples.

(** The example article: every field it yields, and every element it has. *)
Lemma stored_fields_have_a_source_witness :
  (forall k v, extract_from_root article_doc !! k = Some v ->
     exists root,
       ET_fromstring (Runtime := runtime) article_text = Return root /\
       ((k ∈ journal_keys /\
         exists s jm,
           v = MStr s /\ s ≠ "" /\ journal_meta_of root = Some jm /\
           ((exists g jt,
               find jm "journal-title-group" = Some g /\
               find g "journal-title" = Some jt /\
               s = strip (join "" (itertext jt))) \/
            (exists jid,
               jid ∈ findall jm "journal-id" /\
               get_or_empty jid "journal-id-type" ∈ ["nlm-ta"; "iso-abbrev"] /\
               s = strip (or_empty (text jid))))) \/
        (exists am,
           article_meta_of root = Some am /\
           ((k = "authors" /\
             exists l, v = MList l /\ l ≠ [] /\
               Forall (fun s => s ≠ "" /\
                         exists contrib name_el,
                           contrib ∈ findall2 am "contrib-group" "contrib" /\
                           get contrib "contrib-type" = Some "author" /\
                           find contrib "name" = Some name_el /\
                           author_name contrib = Some s) l) \/
            (k = "keywords" /\
             exists l, v = MList l /\ l ≠ [] /\
               Forall (fun s => s ≠ "" /\
                         exists kwd,
                           kwd ∈ findall2 am "kwd-group" "kwd" /\
                           s = strip (join "" (itertext kwd))) l) \/
            (k ∈ ["pmid"; "pmcid"; "doi"] /\
             exists aid, aid ∈ findall am "article-id" /\
               get_or_empty aid "pub-id-type" = k /\
               v = MStr (strip (or_empty (text aid)))) \/
            (k = "title" /\
             exists g el, find am "title-group" = Some g /\
               find g "article-title" = Some el /\
               v = MStr (strip (join "" (itertext el)))) \/
            (k = "abstract" /\
             exists el, find am "abstract" = Some el /\
               v = MStr (strip (join " " (itertext el)))) \/
            (k ∈ ["year"; "month"; "day"] /\
             exists entry el, entry ∈ children am /\ tag entry = "pub-date" /\
               find entry k = Some el /\
               v = MStr (strip (or_empty (text el)))) \/
            (k = "pub_date" /\
             exists (d : gmap string string) y,
               v = MDict d /\ extract_from_root article_doc !! "year" = Some (MStr y) /\
               d !! "year" = Some y))))) /\
  (forall root am,
     ET_fromstring (Runtime := runtime) article_text = Return root ->
     article_meta_of root = Some am ->
     (forall g el,
        find am "title-group" = Some g -> find g "article-title" = Some el ->
        extract_from_root article_doc !! "title" = Some (MStr (strip (join "" (itertext el))))) /\
     (forall el,
        find am "abstract" = Some el ->
        extract_from_root article_doc !! "abstract" = Some (MStr (strip (join " " (itertext el))))) /\
     (forall k aid,
        k ∈ ["pmid"; "pmcid"; "doi"] ->
        aid ∈ findall am "article-id" ->
        get_or_empty aid "pub-id-type" = k ->
        exists aid',
          aid' ∈ findall am "article-id" /\
          get_or_empty aid' "pub-id-type" = k /\
          extract_from_root article_doc !! k = Some (MStr (strip (or_empty (text aid'))))) /\
     (forall e c el,
        find_attr am "pub-date" "pub-type" "epub" = Some e ->
        c ∈ ["year"; "month"; "day"] ->
        find e c = Some el ->
        extract_from_root article_doc !! c = Some (MStr (strip (or_empty (text el))))) /\
     (forall e el,
        find_attr am "pub-date" "pub-type" "epub" = None ->
        find_attr am "pub-date" "pub-type" "collection" = Some e ->
        find e "year" = Some el ->
        extract_from_root article_doc !! "year" = Some (MStr (strip (or_empty (text el)))))).
Proof.
  apply (stored_fields_have_a_source (RT := runtime) article_text
           (extract_from_root article_doc)).
  reflexivity.
Defined.

End MetadataSourcesExamples.

(** ** Author names *)

Section AuthorNames.
Import Py ElementTree Metadata Dirs.

Lemma append_empty_r s : s +:+ "" = s.
Proof. induction s as [| c s IH]; [reflexivity |]. lazy [String.append] in *. by f_equal. Qed.

Lemma append_cons c s t : String c s +:+ t = String c (s +:+ t).
Proof. reflexivity. Qed.

Lemma rev_app_rev_app s a b :
  String.rev_app (String.rev_app s a) b = String.rev_app a (s +:+ b).
Proof.
  revert a b. induction s as [| c s IH]; intros a b; [reflexivity |].
  change (String.rev_app (String c s) a) with (String.rev_app s (String c a)).
  rewrite IH. reflexivity.
Qed.

Lemma rev_involutive s : String.rev (String.rev s) = s.
Proof.
  unfold String.rev. rewrite rev_app_rev_app. simpl. apply append_empty_r.
Qed.

Lemma lstrip_with_id p s :
  (forall c, first_char s = Some c -> p c = false) -> lstrip_with p s = s.
Proof.
  destruct s as [| c r]; [reflexivity |]. intros H. simpl.
  by rewrite (H c eq_refl).
Qed.

(** Stripping a string that has nothing to strip. *)
Lemma strip_with_id p s : trimmed p s -> strip_with p s = s.
Proof.
  intros [Hf Hl]. unfold strip_with. rewrite (lstrip_with_id p s Hf).
  rewrite lstrip_with_id; [apply rev_involutive |].
  intros c. rewrite first_char_rev. apply Hl.
Qed.

Lemma first_char_append s t :
  s ≠ "" -> first_char (s +:+ t) = first_char s.
Proof. by destruct s. Qed.

Lemma last_char_append s t :
  t ≠ "" -> last_char (s +:+ t) = last_char t.
Proof.
  intros Ht. induction s as [| c s IH]; [reflexivity |].
  rewrite append_cons. simpl. rewrite IH.
  destruct t as [| d t]; [done |].
  by destruct (last_char_cons d t) as [x ->].
Qed.

(** [f"{a} {b}".strip()] for stripped [a] and [b], [b] not empty. *)
Lemma strip_joined a b :
  trimmed isspace a -> trimmed isspace b -> b ≠ "" ->
  strip (a +:+ " " +:+ b) = if truthy a then a +:+ " " +:+ b else b.
Proof.
  intros [Haf Hal] [Hbf Hbl] Hb. destruct a as [| c a]; simpl truthy; cbv iota.
  - change ("" +:+ " " +:+ b) with (String Fetch.chr_space b).
    unfold strip, strip_with.
    change (lstrip_with isspace (String Fetch.chr_space b))
      with (lstrip_with isspace b).
    apply (strip_with_id isspace b). by split.
  - apply strip_with_id. split; intros x.
    + rewrite first_char_append by done. apply Haf.
    + rewrite last_char_append, last_char_append by (by destruct b).
      apply Hbl.
Qed.

(** X27. The display name of an author is "surname given-names" when the
    given names are known, else "surname initials" when the initials are,
    else the surname alone; a missing surname leaves the other part alone,
    without a stray space, and a contributor without any of the three
    yields no name. *)
Theorem author_display_name (contrib name_el : Element) :
  get contrib "contrib-type" = Some "author" ->
  find contrib "name" = Some name_el ->
  let surname := strip (or_empty (findtext name_el "surname")) in
  let given := strip (or_empty (findtext name_el "given-names")) in
  let initials := strip (or_empty (get name_el "initials")) in
  author_name contrib =
    if truthy given then
      Some (if truthy surname then surname +:+ " " +:+ given else given)
    else if truthy initials then
      Some (if truthy surname then surname +:+ " " +:+ initials else initials)
    else if truthy surname then Some surname
    else None.
Proof.
  intros Ht Hn surname given initials. unfold author_name.
  rewrite Ht, Hn, bool_decide_eq_true_2 by done.
  fold surname given initials.
  assert (forall b, trimmed isspace b -> truthy b = true ->
            trimmed isspace surname ->
            truthy (strip (surname +:+ " " +:+ b)) = true /\
            strip (surname +:+ " " +:+ b)
            = if truthy surname then surname +:+ " " +:+ b else b) as Hjoin.
  { intros b Hb Hne Hs.
    rewrite (strip_joined surname b Hs Hb) by (by destruct b).
    split; [| reflexivity]. destruct (truthy surname) eqn:E; [| done].
    by destruct surname. }
  pose proof (strip_with_trimmed isspace (or_empty (findtext name_el "surname")))
    as Hs.
  destruct (truthy given) eqn:Eg.
  - destruct (Hjoin given (strip_with_trimmed _ _) Eg Hs) as [-> ->]. done.
  - destruct (truthy initials) eqn:Ei; [| reflexivity].
    destruct (Hjoin initials (strip_with_trimmed _ _) Ei Hs) as [-> ->]. done.
Qed.

End AuthorNames.

(** ** strip_xml_tags: no tag is left *)

Section TagFacts.
Import Py Fetch Dirs PlainText.

Lemma tag_span_seen r n :
  bool_decide (is_Some (tag_span r (S n))) = gt_in r.
Proof.
  revert n. induction r as [| c r IH]; intros n; simpl; [done |].
  unfold is_gt. destruct (Ascii.eqb c chr_gt); simpl; [done | apply IH].
Qed.

(** A tag opens at the start of [r]: there is a [">"] further on, and not
    at once. *)
Lemma tag_opens r :
  bool_decide (is_Some (tag_span r 0)) = gt_in r && negb (starts_with is_gt r).
Proof.
  destruct r as [| c r]; simpl; [done |].
  unfold is_gt. destruct (Ascii.eqb c chr_gt); simpl.
  - done.
  - rewrite andb_true_r. apply tag_span_seen.
Qed.

Lemma gt_in_sub_tags n r : gt_in (sub_tags n r) = true -> gt_in r = true.
Proof.
  revert n. induction r as [| c r IH]; intros n; simpl; [done |].
  destruct n as [| k].
  - destruct (Ascii.eqb c chr_lt) eqn:El.
    + destruct (tag_span r 0) as [m |]; simpl; intros H.
      * apply IH in H. rewrite H. apply orb_true_r.
      * apply orb_true_iff in H as [H | H]; [by rewrite H |].
        apply IH in H. rewrite H. apply orb_true_r.
    + simpl. intros H. apply orb_true_iff in H as [H | H]; [by rewrite H |].
      apply IH in H. rewrite H. apply orb_true_r.
  - intros H. apply IH in H. rewrite H. apply orb_true_r.
Qed.

Lemma starts_gt_sub_tags r :
  starts_with is_gt r = true -> starts_with is_gt (sub_tags 0 r) = true.
Proof.
  destruct r as [| c r]; simpl; [done |]. unfold is_gt. intros H.
  assert (Ascii.eqb c chr_lt = false) as ->.
  { apply Ascii.eqb_eq in H. by subst c. }
  simpl. exact H.
Qed.

Lemma has_tag_sub_tags n r : has_tag (sub_tags n r) = false.
Proof.
  revert n. induction r as [| c r IH]; intros n; simpl; [done |].
  destruct n as [| k]; [| apply IH].
  destruct (Ascii.eqb c chr_lt) eqn:El.
  - destruct (tag_span r 0) as [m |] eqn:Et; simpl.
    + apply IH.
    + rewrite El, IH, orb_false_r. simpl. rewrite tag_opens.
      assert (gt_in r && negb (starts_with is_gt r) = false) as Hno.
      { rewrite <- tag_opens, Et. apply bool_decide_eq_false_2. by intros [? ?]. }
      apply andb_false_iff in Hno as [Hno | Hno].
      * destruct (gt_in (sub_tags 0 r)) eqn:E; [| done].
        apply gt_in_sub_tags in E. congruence.
      * apply negb_false_iff in Hno.
        by rewrite (starts_gt_sub_tags r Hno), andb_false_r.
  - simpl. rewrite El. simpl. apply IH.
Qed.

(** Whitespace is neither ["<"] nor [">"]. *)
Lemma space_is_not_a_bracket c :
  isspace c = true -> Ascii.eqb c chr_lt = false /\ is_gt c = false.
Proof.
  intros H. unfold is_gt.
  destruct (Ascii.eqb c chr_lt) eqn:E1;
    [apply Ascii.eqb_eq in E1; subst c; discriminate |].
  destruct (Ascii.eqb c chr_gt) eqn:E2;
    [apply Ascii.eqb_eq in E2; subst c; discriminate |].
  done.
Qed.

Lemma gt_in_collapse b s : gt_in (collapse_spaces b s) = true -> gt_in s = true.
Proof.
  revert b. induction s as [| c r IH]; intros b; simpl; [done |].
  destruct (isspace c) eqn:E.
  - destruct b; simpl; intros H; eapply IH in H; rewrite H; apply orb_true_r.
  - simpl. intros H. apply orb_true_iff in H as [H | H]; [by rewrite H |].
    apply IH in H. rewrite H. apply orb_true_r.
Qed.

Lemma starts_gt_collapse s :
  starts_with is_gt s = true ->
  starts_with is_gt (collapse_spaces false s) = true.
Proof.
  destruct s as [| c r]; simpl; [done |]. intros H.
  destruct (isspace c) eqn:E; [| exact H].
  apply space_is_not_a_bracket in E as [_ E]. congruence.
Qed.

Lemma has_tag_collapse b s :
  has_tag s = false -> has_tag (collapse_spaces b s) = false.
Proof.
  revert b. induction s as [| c r IH]; intros b; simpl; [done |].
  intros H. apply orb_false_iff in H as [Hc Hr].
  destruct (isspace c) eqn:E.
  - destruct b; simpl; [by apply IH |]. by apply IH.
  - simpl. rewrite (IH false Hr), orb_false_r.
    destruct (Ascii.eqb c chr_lt); [| done]. simpl in *.
    rewrite tag_opens in *.
    apply andb_false_iff in Hc as [Hc | Hc].
    + destruct (gt_in (collapse_spaces false r)) eqn:Eg; [| done].
      apply gt_in_collapse in Eg. congruence.
    + apply negb_false_iff in Hc.
      by rewrite (starts_gt_collapse r Hc), andb_false_r.
Qed.

End TagFacts.

Section TagStripFacts.
Import Py Fetch Dirs PlainText.

Lemma append_assoc (a b c : string) : (a +:+ b) +:+ c = a +:+ (b +:+ c).
Proof.
  induction a as [| x a IH]; [reflexivity |].
  rewrite !append_cons. by f_equal.
Qed.

Lemma rev_app_append s a : String.rev_app s a = String.rev s +:+ a.
Proof.
  revert a. induction s as [| c s IH]; intros a; [reflexivity |].
  unfold String.rev.
  change (String.rev_app (String c s) a) with (String.rev_app s (String c a)).
  change (String.rev_app (String c s) "") with (String.rev_app s (String c "")).
  rewrite (IH (String c a)), (IH (String c "")), append_assoc.
  reflexivity.
Qed.

Lemma rev_append a b : String.rev (a +:+ b) = String.rev b +:+ String.rev a.
Proof.
  induction a as [| c a IH].
  - change ("" +:+ b) with b. by rewrite append_empty_r.
  - rewrite append_cons. unfold String.rev at 1 3.
    change (String.rev_app (String c (a +:+ b)) "")
      with (String.rev_app (a +:+ b) (String c "")).
    change (String.rev_app (String c a) "")
      with (String.rev_app a (String c "")).
    rewrite !rev_app_append, IH, append_assoc. reflexivity.
Qed.

(** [lstrip] only drops a prefix. *)
Lemma lstrip_with_suffix p s : exists pre, s = pre +:+ lstrip_with p s.
Proof.
  induction s as [| c r [pre IH]]; [by exists "" |]. simpl.
  destruct (p c).
  - exists (String c pre). rewrite append_cons. by f_equal.
  - by exists "".
Qed.

(** [strip] only drops a prefix and a suffix. *)
Lemma strip_with_infix p s :
  exists pre post, s = pre +:+ (strip_with p s +:+ post).
Proof.
  unfold strip_with.
  destruct (lstrip_with_suffix p s) as [pre Hpre].
  destruct (lstrip_with_suffix p (String.rev (lstrip_with p s))) as [post Hpost].
  exists pre, (String.rev post).
  rewrite <- rev_append, <- Hpost, rev_involutive. exact Hpre.
Qed.

Lemma gt_in_append a b : gt_in a = true -> gt_in (a +:+ b) = true.
Proof.
  induction a as [| c a IH]; [done |]. rewrite append_cons. simpl.
  intros H. apply orb_true_iff in H as [H | H]; [by rewrite H |].
  rewrite (IH H). apply orb_true_r.
Qed.

Lemma has_tag_append_r a b : has_tag a = true -> has_tag (a +:+ b) = true.
Proof.
  induction a as [| c a IH]; [done |]. rewrite append_cons. simpl.
  intros H. apply orb_true_iff in H as [H | H].
  - apply andb_true_iff in H as [Hc Ho]. rewrite Hc. simpl.
    rewrite tag_opens in *. apply andb_true_iff in Ho as [Hg Hs].
    rewrite (gt_in_append _ b Hg). simpl.
    destruct a as [| x a]; [done |]. rewrite append_cons. simpl in *.
    by rewrite Hs.
  - rewrite (IH H). apply orb_true_r.
Qed.

Lemma has_tag_append_l a b : has_tag b = true -> has_tag (a +:+ b) = true.
Proof.
  intros H. induction a as [| c a IH]; [exact H |].
  rewrite append_cons. simpl. rewrite IH. apply orb_true_r.
Qed.

Lemma has_tag_strip_with p s :
  has_tag s = false -> has_tag (strip_with p s) = false.
Proof.
  intros H. destruct (has_tag (strip_with p s)) eqn:E; [| done].
  destruct (strip_with_infix p s) as (pre & post & Hs).
  rewrite Hs in H.
  by rewrite (has_tag_append_l pre _ (has_tag_append_r _ post E)) in H.
Qed.

(** X28. The plain text holds no tag: nowhere in the result of
    [strip_xml_tags] does the pattern [<[^>]+>] match, whatever the input
    (a lone ["<"], or ["<>"], is not a tag and stays). *)
Theorem strip_xml_tags_leaves_no_tag (xml_text : string) :
  has_tag (strip_xml_tags xml_text) = false.
Proof.
  unfold strip_xml_tags, strip.
  apply has_tag_strip_with, has_tag_collapse, has_tag_sub_tags.
Qed.

End TagStripFacts.

(** ** The further properties on the example scenarios *)

Section FetchScenarios.
Import Py ElementTree Metadata World Fetch Trace FetchFailures Ids.
Import Examples Scenarios.

(** A 429, then the article: two requests, each after a wait. *)
Lemma efetch_pmc_requests_paced_and_bounded_witness :
  exists new,
    trace fetch_2.2 = trace (world_of disk rate_limited_once) ++ new /\
    sent fetch_2.2 = (sent (world_of disk rate_limited_once) + requests new)%nat /\
    paced false new = true /\
    (requests new <= Z.to_nat 3)%nat.
Proof.
  apply (efetch_pmc_requests_paced_and_bounded (RT := runtime)
           "2" "publications/frailty" "text" None 3 true
           (world_of disk rate_limited_once) fetch_2.2 fetch_2.1).
  vm_compute. reflexivity.
Defined.

(** The record written for identifier 2 holds the plain text of the second
    answer. *)
Lemma efetch_pmc_success_writes_the_record_witness :
  exists body md,
    (sent (world_of disk rate_limited_once) < sent fetch_2.2)%nat /\
    replies (world_of disk rate_limited_once) (sent fetch_2.2 - 1)
    = Response 200 body /\
    extract_metadata_from_pmc_xml (RT := runtime) body = Return md /\
    read_file "publications/frailty" (pmcid_display "2" +:+ ".json")
      (fs fetch_2.2)
    = Some (Record_
              {| payload_pmcid := pmcid_display "2";
                 payload_source := "PMC";
                 payload_download_date :=
                   now_iso (world_of disk rate_limited_once);
                 payload_metadata := md;
                 payload_xml :=
                   if bool_decide ("text" = "xml" \/ "text" = "both")
                   then Some body else None;
                 payload_text :=
                   if bool_decide ("text" ∈ ["text"; "json"; "txt"; "both"])
                      && true
                   then Some (strip_xml_tags body) else None |}) /\
    (forall d n, (d, n) ≠ ("publications/frailty", pmcid_display "2" +:+ ".json") ->
       read_file d n (fs fetch_2.2)
       = read_file d n (fs (world_of disk rate_limited_once))).
Proof.
  apply (efetch_pmc_success_writes_the_record (RT := runtime)
           "2" "publications/frailty" "text" None 3 true
           (world_of disk rate_limited_once) fetch_2.2).
  vm_compute. reflexivity.
Defined.

(** The error wrapper leaves no file for identifier 2; no write is cut on
    that disk. *)
Lemma efetch_pmc_failure_leaves_the_files_witness :
  (forall d n,
     (d, n) ≠ ("publications/frailty", pmcid_display "2" +:+ ".json") ->
     read_file d n (fs fetch_2_unavailable.2)
     = read_file d n (fs (world_of disk wrapper_first))) /\
  ((forall d n,
      read_file d n (fs fetch_2_unavailable.2)
      = read_file d n (fs (world_of disk wrapper_first))) \/
   (exists written,
      Return (false, "unavailable") = Return (false, "error") /\
      write_cut (fs (world_of disk wrapper_first))
        !! ("publications/frailty", pmcid_display "2" +:+ ".json")
      = Some written /\
      read_file "publications/frailty" (pmcid_display "2" +:+ ".json")
        (fs (world_of disk wrapper_first)) = None /\
      read_file "publications/frailty" (pmcid_display "2" +:+ ".json")
        (fs fetch_2_unavailable.2)
      = Some (Bytes written))).
Proof.
  apply (efetch_pmc_failure_leaves_the_files (RT := runtime)
           "2" "publications/frailty" "text" None 3 true
           (world_of disk wrapper_first) fetch_2_unavailable.2
           (Return (false, "unavailable"))).
  - vm_compute. reflexivity.
  - discriminate.
Defined.


(** Identifier 2 again, now as XML, with a key and a single attempt. *)
Lemma efetch_pmc_again_after_success_witness :
  efetch_pmc (RT := runtime) "2" "publications/frailty" "xml" (Some "key") 1
    false fetch_2.2
  = (Return (true, "exists"), fetch_2.2).
Proof.
  apply (efetch_pmc_again_after_success (RT := runtime)
           "2" "publications/frailty" "text" None 3 true
           (world_of disk rate_limited_once) fetch_2.2
           "xml" (Some "key") 1 false).
  vm_compute. reflexivity.
Defined.

(** Three answers 503: two sleeps of two seconds. *)
Lemma efetch_pmc_refused_every_time_witness :
  exists w',
    efetch_pmc (RT := runtime) "2" "publications/frailty" "text" None 3 true
      (world_of disk always_503)
      = (Return (false, "error"), w') /\
    sent w' = (sent (world_of disk always_503) + Z.to_nat 3)%nat /\
    fs w' = disk /\
    trace w' = trace (world_of disk always_503) ++
      retry_trace "2" None 3 (fun _ => RETRY_DELAY).
Proof.
  apply (efetch_pmc_refused_every_time (RT := runtime)
           "2" "publications/frailty" "text" None 3 true
           (world_of disk always_503) disk).
  - reflexivity.
  - reflexivity.
  - intros i _. left. discriminate.
Defined.

(** The network is down: sleeps of two and of four seconds. *)
Lemma efetch_pmc_unreachable_every_time_witness :
  exists w',
    efetch_pmc (RT := runtime) "2" "publications/frailty" "text" None 3 true
      (world_of disk always_down)
      = (Return (false, "error"), w') /\
    sent w' = (sent (world_of disk always_down) + Z.to_nat 3)%nat /\
    fs w' = disk /\
    trace w' = trace (world_of disk always_down) ++
      retry_trace "2" None 3
        (fun attempt => RETRY_DELAY * (Z.of_nat attempt + 1))%Z.
Proof.
  apply (efetch_pmc_unreachable_every_time (RT := runtime)
           "2" "publications/frailty" "text" None 3 true
           (world_of disk always_down) disk).
  - reflexivity.
  - reflexivity.
  - intros i _. reflexivity.
Defined.

(** "PMC2" and "2" name the same article. *)
Lemma efetch_pmc_prefix_is_optional_witness :
  efetch_pmc (RT := runtime) ("PMC" +:+ "2") "publications/frailty" "text"
    None 3 true (world_of disk rate_limited_once)
  = efetch_pmc (RT := runtime) "2" "publications/frailty" "text"
      None 3 true (world_of disk rate_limited_once) /\
  efetch_params "2" None !! "id" = Some "2" /\
  pmcid_display "2" = "PMC" +:+ "2".
Proof.
  apply (efetch_pmc_prefix_is_optional (RT := runtime)
           "2" "publications/frailty" "text" None 3 true
           (world_of disk rate_limited_once)).
  reflexivity.
Defined.

End FetchScenarios.

Section SearchScenarios.
Import Py World Search Trace.
Import Examples Scenarios.

(** The search is answered at once: one request. *)
Lemma esearch_pmc_requests_paced_and_bounded_witness :
  exists new,
    trace search_frailty.2 = trace (world_of disk search_then_503) ++ new /\
    sent search_frailty.2
    = (sent (world_of disk search_then_503) + requests new)%nat /\
    paced false new = true /\
    (requests new <= Z.to_nat MAX_RETRIES)%nat /\
    fs search_frailty.2 = fs (world_of disk search_then_503).
Proof.
  apply (esearch_pmc_requests_paced_and_bounded (RT := runtime)
           "frailty" 100 None MAX_RETRIES
           (world_of disk search_then_503) search_frailty.2 search_frailty.1).
  vm_compute. reflexivity.
Defined.

(** The answer lists 1 and 2 and counts 2. *)
Lemma esearch_pmc_returns_the_answer_witness :
  exists w',
    esearch_pmc (RT := runtime) "frailty" 100 None 3
      (world_of disk search_then_503)
      = (Return (JArr [JStr "1"; JStr "2"], 2%Z), w') /\
    sent w' = S (sent (world_of disk search_then_503)) /\
    trace w' = trace (world_of disk search_then_503) ++
      [EvWait; EvGet (EUTILS_BASE +:+ "/esearch.fcgi")
                     (esearch_params "frailty" 100 None)].
Proof.
  apply (esearch_pmc_returns_the_answer (RT := runtime)
           "frailty" 100 None 3 (world_of disk search_then_503)
           200 search_body
           [("esearchresult",
             JObj [("idlist", JArr [JStr "1"; JStr "2"]); ("count", JStr "2")])]
           [("idlist", JArr [JStr "1"; JStr "2"]); ("count", JStr "2")]
           [JStr "1"; JStr "2"] "2" 2%Z);
    try reflexivity; lia.
Defined.

(** Without a [count], the total is the number of identifiers listed. *)
Lemma esearch_pmc_missing_keys_witness :
  exists w',
    esearch_pmc (RT := parsers) "frailty" 100 None 3
      (world_of disk uncounted_search)
      = (Return (JArr [JStr "1"; JStr "2"], 2%Z), w') /\
    sent w' = S (sent (world_of disk uncounted_search)).
Proof.
  apply (proj2 (esearch_pmc_missing_keys (RT := parsers)
                  "frailty" 100 None 3 (world_of disk uncounted_search)
                  200 uncounted_body uncounted
                  ltac:(lia) eq_refl ltac:(lia) eq_refl)
           [("idlist", JArr [JStr "1"; JStr "2"])] [JStr "1"; JStr "2"]);
    reflexivity.
Defined.

(** A body that is a JSON array. *)
Lemma esearch_pmc_raises_on_non_object_witness :
  exists w',
    esearch_pmc (RT := parsers) "frailty" 100 None 3
      (world_of disk array_search)
      = (Raise AttributeError, w') /\
    sent w' = S (sent (world_of disk array_search)).
Proof.
  apply (esearch_pmc_raises_on_non_object (RT := parsers)
           "frailty" 100 None 3 (world_of disk array_search)
           200 array_body (JArr [])).
  - lia.
  - reflexivity.
  - lia.
  - reflexivity.
  - discriminate.
Defined.

End SearchScenarios.

Section SessionScenarios.
Import Py World Coordinator Cli Trace Dirs.
Import Examples Scenarios.
Local Open Scope Z_scope.

Lemma search_and_download_returns_witness :
  exists stats w',
    search_and_download (RT := runtime) (EX := executor)
      "frailty" 100 "text" None false MAX_WORKERS true None
      (world_of disk search_then_503) = (Return stats, w').
Proof.
  apply (search_and_download_returns (RT := runtime) (EX := executor)
           "frailty" 100 "text" None false MAX_WORKERS true None
           (world_of disk search_then_503) disk).
  - reflexivity.
  - left. reflexivity.
Defined.

Lemma search_and_download_counters_in_range_witness :
  failed one_skipped_one_error
  = unavailable one_skipped_one_error + errors one_skipped_one_error /\
  0 <= successful one_skipped_one_error <= requested one_skipped_one_error /\
  0 <= skipped one_skipped_one_error <= requested one_skipped_one_error /\
  0 <= unavailable one_skipped_one_error <= requested one_skipped_one_error /\
  0 <= errors one_skipped_one_error <= requested one_skipped_one_error /\
  0 <= failed one_skipped_one_error <= requested one_skipped_one_error.
Proof.
  apply (search_and_download_counters_in_range (RT := runtime) (EX := executor)
           "frailty" 100 "text" None false MAX_WORKERS true None
           (world_of disk search_then_503) after_download_frailty
           one_skipped_one_error).
  vm_compute. reflexivity.
Defined.

(** One request for the search and three for identifier 2. *)
Lemma sequential_session_requests_witness :
  exists new,
    trace after_download_frailty
    = trace (world_of disk search_then_503) ++ new /\
    sent after_download_frailty
    = (sent (world_of disk search_then_503) + requests new)%nat /\
    paced false new = true /\
    Z.of_nat (requests new)
    <= MAX_RETRIES * (1 + requested one_skipped_one_error).
Proof.
  apply (sequential_session_requests (RT := runtime) (EX := executor)
           "frailty" 100 "text" None false MAX_WORKERS true None
           (world_of disk search_then_503) after_download_frailty
           one_skipped_one_error).
  - reflexivity.
  - vm_compute. reflexivity.
Defined.

(** Both records are on disk: the session ends where the search ends. *)
Lemma sequential_session_all_present_witness :
  search_and_download (RT := runtime) (EX := executor)
    "frailty" 100 "text" None false MAX_WORKERS true None
    (world_of full_disk search_then_503)
  = (Return {| keyword := "frailty"; total_found := 2;
               requested := Z.of_nat (length [JStr "1"; JStr "2"]);
               successful := 0; failed := 0;
               skipped := Z.of_nat (length [JStr "1"; JStr "2"]);
               unavailable := 0; errors := 0;
               output_dir := out_dir_of "frailty" None |}, search_again.2).
Proof.
  apply (sequential_session_all_present (RT := runtime) (EX := executor)
           "frailty" 100 "text" None false MAX_WORKERS true None
           (world_of full_disk search_then_503) search_again.2 full_disk
           [JStr "1"; JStr "2"] 2).
  - reflexivity.
  - reflexivity.
  - vm_compute. reflexivity.
  - discriminate.
  - intros x Hx. apply list_elem_of_In in Hx.
    destruct Hx as [<- | [<- | []]]; vm_compute; eexists; reflexivity.
Defined.

(** One record present, one identifier in error: exit code 2. *)
Lemma download_exit_codes_witness :
  exists stats,
    search_and_download (RT := runtime) (EX := executor)
      (arg_keyword download_frailty) (arg_max_results download_frailty)
      (arg_format download_frailty) (arg_api_key download_frailty)
      (negb (arg_sequential download_frailty)) (arg_workers download_frailty)
      (negb (arg_exclude_text download_frailty))
      (arg_output_dir download_frailty) (world_of disk search_then_503)
    = (Return stats, after_download_frailty) /\
    (2 = 0 \/ 2 = 1 \/ 2 = 2) /\
    (2 = 1 <-> requested stats = 0) /\
    (2 = 2 <->
       0 < requested stats /\ successful stats = 0 /\
       (skipped stats = 0 \/ 0 < errors stats)).
Proof.
  apply (download_exit_codes (RT := runtime) (EX := executor) download_frailty
           (world_of disk search_then_503) after_download_frailty 2).
  - reflexivity.
  - vm_compute. reflexivity.
Defined.

(** Every search answer is 503. *)
Lemma main_when_the_search_fails_witness :
  exists w',
    main (RT := runtime) (EX := executor) download_frailty
      (world_of disk always_503) = (Return 1, w') /\
    sent w' = (sent (world_of disk always_503) + 3)%nat /\
    fs w' = disk.
Proof.
  apply (main_when_the_search_fails (RT := runtime) (EX := executor)
           download_frailty (world_of disk always_503) disk).
  - reflexivity.
  - reflexivity.
  - intros i _. simpl. left. lia.
Defined.

End SessionScenarios.

Section RecordScenarios.
Import Py ElementTree Metadata Fields Dirs.
Import Examples Scenarios.

(** Two identifiers of type pmid, 111 and then 222: the second is kept. *)
Lemma identifiers_last_occurrence_wins_witness :
  exists md,
    extract_metadata_from_pmc_xml (RT := parsers) repeated_pmid_text
    = Return md /\
    md !! "pmid"
    = MStr <$> last_id (findall repeated_pmid_meta "article-id") "pmid" /\
    md !! "pmid" = Some (MStr "222").
Proof.
  destruct (identifiers_last_occurrence_wins (RT := parsers)
              repeated_pmid_text repeated_pmid_doc repeated_pmid_meta "pmid")
    as (md & Hmd & Hk).
  - reflexivity.
  - reflexivity.
  - apply list_elem_of_In. simpl. tauto.
  - exists md. split; [exact Hmd |]. split; [exact Hk |].
    rewrite Hk. vm_compute. reflexivity.
Defined.

Lemma journal_alias_follows_the_specific_fields_witness :
  article_record !! "journal" = preferred_journal article_record.
Proof.
  apply (journal_alias_follows_the_specific_fields (RT := runtime)
           article_text article_record).
  vm_compute. reflexivity.
Defined.

Lemma stored_strings_are_stripped_witness : tidy (MStr "Frailty").
Proof.
  apply (stored_strings_are_stripped (RT := runtime)
           article_text article_record "title" (MStr "Frailty")).
  - vm_compute. reflexivity.
  - vm_compute. reflexivity.
Defined.

Lemma author_display_name_witness : author_name jane = Some "Doe Jane".
Proof.
  apply (author_display_name jane jane_name); reflexivity.
Defined.

End RecordScenarios.
